(** * PISA histogramming engine: bin search, GPU accumulation, cached transforms

    Shallow embedding of
    - [pisa/devel/hist.py]: the CUDA device function [GetBin], the kernel
      [Hist2D] and the host class [GPUhist] ([__init__], [clear],
      [get_hist]);
    - [pisa/stages/utils/hist.py]: the stage [hist] ([setup_function],
      [apply_function]).

    Conventions of the embedding.
    - [fType] is a macro of the absent header [constants.h] (float or
      double).  It is a parameter here: a type [F] with the comparisons and
      the arithmetic the code uses (class [FType]).  The order laws
      ([FOrder]) are those of IEEE comparisons, NaN included (a NaN compares
      false with everything, itself too).  The laws of exact arithmetic
      ([FExact]) are an idealisation: rounding is not modelled.
    - C [int] values are integers of [Z]; an operation whose result leaves
      the 32-bit range is undefined behaviour and is modelled by [None].
      [unsigned int] arithmetic wraps modulo [2^32].
    - Device buffers are lists; a read or an atomic add outside of a buffer
      is undefined behaviour ([None]).  Device memory is a finite map from
      allocation handles to buffers. *)

From stdpp Require Import base option list gmap strings.
From Stdlib Require Import ZArith Lia.

Local Open Scope Z_scope.

(** ** Scalars *)

Class FType (F : Type) := {
  fzero : F;
  fone : F;
  fadd : F → F → F;
  fmul : F → F → F;
  fle : F → F → bool;   (* C: a <= b *)
  flt : F → F → bool;   (* C: a < b  *)
}.

(** A value is a number (not a NaN) when it compares equal to itself. *)
Definition fnum `{FType F} (a : F) : Prop := fle a a = true.

Class FOrder (F : Type) `{FType F} := {
  fle_num_l a b : fle a b = true → fnum a;
  fle_num_r a b : fle a b = true → fnum b;
  flt_fle a b : flt a b = true → fle a b = true;
  flt_trans a b c : flt a b = true → flt b c = true → flt a c = true;
  fle_trans a b c : fle a b = true → fle b c = true → fle a c = true;
  flt_total a b : fnum a → fnum b → flt a b = negb (fle b a);
}.

Class FExact (F : Type) `{FType F} := {
  fadd_comm a b : fadd a b = fadd b a;
  fadd_assoc a b c : fadd a (fadd b c) = fadd (fadd a b) c;
  fadd_0_l a : fadd fzero a = a;
  fmul_1_r a : fmul a fone = a;
  fmul_0_r a : fmul a fzero = fzero;
}.

(** Integers as scalars: the instance used to run the model. *)
#[export] Instance Z_FType : FType Z :=
  {| fzero := 0; fone := 1; fadd := Z.add; fmul := Z.mul;
     fle := Z.leb; flt := Z.ltb |}.

#[export] Instance Z_FOrder : FOrder Z.
Proof.
  split; unfold fnum; simpl; intros; lia.
Qed.

#[export] Instance Z_FExact : FExact Z.
Proof.
  split; simpl; intros; lia.
Qed.

(** Integers with a NaN: comparisons with [None] are false. *)
Definition nan_le (a b : option Z) : bool :=
  match a, b with Some x, Some y => x <=? y | _, _ => false end.
Definition nan_lt (a b : option Z) : bool :=
  match a, b with Some x, Some y => x <? y | _, _ => false end.
Definition nan_add (a b : option Z) : option Z :=
  match a, b with Some x, Some y => Some (x + y) | _, _ => None end.
Definition nan_mul (a b : option Z) : option Z :=
  match a, b with Some x, Some y => Some (x * y) | _, _ => None end.

Definition NaNZ_FType : FType (option Z) :=
  {| fzero := Some 0; fone := Some 1; fadd := nan_add; fmul := nan_mul;
     fle := nan_le; flt := nan_lt |}.

Lemma NaNZ_FOrder : @FOrder (option Z) NaNZ_FType.
Proof.
  split; unfold fnum; simpl;
    repeat (let a := fresh in intros a; try destruct a as [?|]);
    simpl in *; try discriminate; try lia.
Qed.

(** Sums and products as far as the transform of the stage needs them.
    The sums are exact, as in [FExact].  The laws of the product are asked
    of finite values only: on IEEE numbers [a * 0] is a NaN, not zero, when
    [a] is an infinity or a NaN. *)
Class FFinite (F : Type) `{FType F} := {
  ffinite : F → bool;
  ffinite_0 : ffinite fzero = true;
  fsum_comm a b : fadd a b = fadd b a;
  fsum_assoc a b c : fadd a (fadd b c) = fadd (fadd a b) c;
  fsum_0_l a : fadd fzero a = a;
  fprod_1_r a : fmul a fone = a;
  fprod_0_r a : ffinite a = true → fmul a fzero = fzero;
  fprod_add_r a b c :
    ffinite a = true → fmul a (fadd b c) = fadd (fmul a b) (fmul a c);
}.

#[export] Instance Z_FFinite : FFinite Z.
Proof.
  refine {| ffinite := λ _, true |}; simpl; intros; lia.
Defined.

(** With a NaN: every integer is finite, the NaN is not. *)
Definition NaNZ_FFinite : @FFinite (option Z) NaNZ_FType.
Proof.
  refine {| ffinite := λ a : option Z, match a with Some _ => true | None => false end |};
    simpl;
    repeat (let a := fresh in intros a; try destruct a as [?|]);
    simpl in *; try discriminate; try reflexivity; f_equal; lia.
Defined.

(** ** C integers *)

Definition INT_MIN : Z := - 2 ^ 31.
Definition INT_MAX : Z := 2 ^ 31 - 1.

(** The value of an [int] expression: undefined on overflow. *)
Definition cint (z : Z) : option Z :=
  if (INT_MIN <=? z) && (z <=? INT_MAX) then Some z else None.

(** [unsigned int] arithmetic, and the conversion of its result to [int]. *)
Definition uint_wrap (z : Z) : Z := z mod 2 ^ 32.
Definition int_of_uint (u : Z) : Z := if u <=? INT_MAX then u else u - 2 ^ 32.

(** ** Buffers *)

Definition read {A} (buf : list A) (i : Z) : option A :=
  if 0 <=? i then buf !! Z.to_nat i else None.

(** ** [GetBin] *)

Section GetBin.
Context `{FType F}.

(** The [while] loop of [GetBin].  [bin] is the current value of the
    variable of that name ([None] before its first assignment).  Each
    iteration removes at least the probed position from [first..last], so
    [last - first + 1] iterations are always enough ([GetBin_loop_fuel]);
    running out of [fuel] is [None]. *)
Fixpoint GetBin_loop (fuel : nat) (x : F) (n_bins : Z) (bin_edges : list F)
    (first last : Z) (bin : option Z) : option Z :=
  if first <=? last then
    match fuel with
    | O => None
    | S fuel =>
        s ← cint (first + last);
        let bin := Z.quot s 2 in
        e ← read bin_edges bin;
        if fle e x then
          bin1 ← cint (bin + 1);
          e1 ← read bin_edges bin1;
          if flt x e1 then Some bin
          else
            en ← read bin_edges n_bins;
            if fle x en && (bin =? n_bins - 1) then Some bin
            else GetBin_loop fuel x n_bins bin_edges bin1 last (Some bin)
        else
          bm1 ← cint (bin - 1);
          GetBin_loop fuel x n_bins bin_edges first bm1 (Some bin)
    end
  else bin.

Definition GetBin (x : F) (n_bins : Z) (bin_edges : list F) : option Z :=
  last ← cint (n_bins - 1);
  GetBin_loop (Z.to_nat n_bins) x n_bins bin_edges 0 last None.
End GetBin.

(** The same loop with its ways of stopping told apart.  [Ends r]: the loop
    is left, by a [return], by its condition or by undefined behaviour, and
    [r] is what [GetBin_loop] gives.  [Pending]: the iterations at hand are
    used up while the condition of the loop still holds. *)
Inductive run : Type :=
  | Ends (r : option Z)
  | Pending.

Section GetBin_run.
Context `{FType F}.

Fixpoint GetBin_run (fuel : nat) (x : F) (n_bins : Z) (bin_edges : list F)
    (first last : Z) (bin : option Z) : run :=
  if first <=? last then
    match fuel with
    | O => Pending
    | S fuel =>
        match cint (first + last) with
        | None => Ends None
        | Some s =>
            let bin := Z.quot s 2 in
            match read bin_edges bin with
            | None => Ends None
            | Some e =>
                if fle e x then
                  match cint (bin + 1) with
                  | None => Ends None
                  | Some bin1 =>
                      match read bin_edges bin1 with
                      | None => Ends None
                      | Some e1 =>
                          if flt x e1 then Ends (Some bin)
                          else
                            match read bin_edges n_bins with
                            | None => Ends None
                            | Some en =>
                                if fle x en && (bin =? n_bins - 1) then Ends (Some bin)
                                else GetBin_run fuel x n_bins bin_edges bin1 last
                                       (Some bin)
                            end
                      end
                  end
                else
                  match cint (bin - 1) with
                  | None => Ends None
                  | Some bm1 =>
                      GetBin_run fuel x n_bins bin_edges first bm1 (Some bin)
                  end
            end
        end
    end
  else Ends bin.
End GetBin_run.

(** ** Device memory and the kernel [Hist2D] *)

(** Device memory: one buffer per allocation, [cuda.mem_alloc] hands out the
    next index. *)
Abbreviation device F := (list (list F)).

(** The writes a piece of code performs on device memory. *)
Inductive write (F : Type) : Type :=
  | AtomicAdd (p : nat) (i : Z) (v : F)      (* atomicAdd(&p[i], v) *)
  | MemcpyHtoD (p : nat) (src : list F).       (* cuda.memcpy_htod(p, src) *)
Arguments AtomicAdd {F} p i v.
Arguments MemcpyHtoD {F} p src.

Definition is_atomic_add {F} (w : write F) : bool :=
  match w with AtomicAdd _ _ _ => true | MemcpyHtoD _ _ => false end.

Definition write_target {F} (w : write F) : nat :=
  match w with AtomicAdd p _ _ => p | MemcpyHtoD p _ => p end.

(** The arguments of a launch of [Hist2D]; pointers are allocation handles. *)
Record Hist2D_args : Type := {
  arg_X : nat;
  arg_Y : nat;
  arg_W : nat;
  arg_n_evts : Z;
  arg_hist : nat;
  arg_n_bins_x : Z;
  arg_n_bins_y : Z;
  arg_bin_edges_x : nat;
  arg_bin_edges_y : nat;
}.

(** C's [a && b]: [b] is evaluated only when [a] holds. *)
Definition sc_and (a b : option bool) : option bool :=
  match a with
  | Some true => b
  | Some false => Some false
  | None => None
  end.

Section Device.
Context `{FType F}.

Definition zeros (n : nat) : list F := replicate n fzero.

(** [cuda.mem_alloc] followed by [cuda.memcpy_htod] of the whole array. *)
Definition mem_alloc (mem : device F) (init : list F) : nat * device F :=
  (length mem, mem ++ [init]).

(** One write, performed as a single step. *)
Definition exec_write (mem : device F) (w : write F) : option (device F) :=
  match w with
  | AtomicAdd p i v =>
      buf ← mem !! p;
      old ← read buf i;
      Some (<[p := <[Z.to_nat i := fadd old v]> buf]> mem)
  | MemcpyHtoD p src =>
      buf ← mem !! p;
      if (length src <=? length buf)%nat
      then Some (<[p := src ++ drop (length src) buf]> mem)
      else None
  end.

Definition exec_writes (mem : device F) (ws : list (write F)) : option (device F) :=
  foldl (λ acc w, m ← acc; exec_write m w) (Some mem) ws.

(** [cuda.memcpy_dtoh(dst, p)]: fills the host array [dst]. *)
Definition memcpy_dtoh (dst : list F) (mem : device F) (p : nat) : option (list F) :=
  buf ← mem !! p;
  if (length dst <=? length buf)%nat then Some (take (length dst) buf) else None.

(** [int idx = threadIdx.x + blockDim.x * blockIdx.x]: the sum is computed
    on [unsigned int] and converted. *)
Definition thread_idx (threadIdx blockDim blockIdx : Z) : Z :=
  int_of_uint (uint_wrap (threadIdx + blockDim * blockIdx)).

(** The body of the kernel for one thread: the reads are done on [mem],
    the result is the list of the writes of the thread. *)
Definition Hist2D (mem : device F) (a : Hist2D_args)
    (threadIdx blockDim blockIdx : Z) : option (list (write F)) :=
  let idx := thread_idx threadIdx blockDim blockIdx in
  if idx <? arg_n_evts a then
    X ← mem !! arg_X a;
    Y ← mem !! arg_Y a;
    W ← mem !! arg_W a;
    bin_edges_x ← mem !! arg_bin_edges_x a;
    bin_edges_y ← mem !! arg_bin_edges_y a;
    let n_bins_x := arg_n_bins_x a in
    let n_bins_y := arg_n_bins_y a in
    x ← read (A:=F) X idx;
    y ← read (A:=F) Y idx;
    (* check if event is even in range *)
    c ← sc_and (e ← read bin_edges_x 0; Some (fle e x))
        (sc_and (e ← read bin_edges_x n_bins_x; Some (fle x e))
        (sc_and (e ← read bin_edges_y 0; Some (fle e y))
                (e ← read bin_edges_y n_bins_y; Some (fle y e))));
    if c : bool then
      bin_x ← GetBin x n_bins_x bin_edges_x;
      bin_y ← GetBin y n_bins_y bin_edges_y;
      m ← cint (bin_x * n_bins_y);
      i ← cint (bin_y + m);
      w ← read (A:=F) W idx;
      Some [AtomicAdd (arg_hist a) i w]
    else Some []
  else Some [].

(** A thread runs to completion: its reads, then its writes. *)
Definition run_thread (a : Hist2D_args) (bdim : Z) (mem : device F)
    (worker : Z * Z) : option (device F) :=
  ws ← Hist2D mem a worker.2 bdim worker.1;
  exec_writes mem ws.

(** The threads of a launch with [grid] blocks of [block] threads, as
    pairs (blockIdx.x, threadIdx.x). *)
Definition workers (block grid : Z) : list (Z * Z) :=
  b ← seqZ 0 grid; (λ t, (b, t)) <$> seqZ 0 block.

(** The threads of a launch in the order [schedule]. *)
Definition run_schedule (a : Hist2D_args) (bdim : Z)
    (schedule : list (Z * Z)) (mem : device F) : option (device F) :=
  foldl (λ acc w, m ← acc; run_thread a bdim m w) (Some mem) schedule.

(** [hist2d_fun(..., block=(bdim,1,1), grid=(gdim,1))]: the launch is
    refused with an empty or oversized grid or block. *)
Definition launch_Hist2D (a : Hist2D_args) (bdim gdim : Z) (mem : device F)
    : option (device F) :=
  if (1 <=? bdim) && (bdim <=? 1024) && (1 <=? gdim) && (gdim <=? INT_MAX)
  then run_schedule a bdim (workers bdim gdim) mem
  else None.

(** The sizes of the allocations. *)
Definition mem_shape (mem : device F) : list nat := length <$> mem.
End Device.

(** ** Interleaved execution of a launch *)

(** The threads of a launch in flight: each one with its block and thread
    number, and with the writes it still has to perform once it has done its
    reads ([None] before). *)
Abbreviation pool F := (list (Z * Z * option (list (write F)))).

Section Interleaving.
Context `{FType F}.

(** One step of a launch: some thread that has not started performs its
    reads on the memory of the moment, or some thread performs its next
    write.  An atomic add is one step. *)
Inductive step (a : Hist2D_args) (bdim : Z) :
    pool F * device F → pool F * device F → Prop :=
  | step_reads p mem i w ws :
      p !! i = Some (w, None) →
      Hist2D mem a w.2 bdim w.1 = Some ws →
      step a bdim (p, mem) (<[i := (w, Some ws)]> p, mem)
  | step_write p mem i w op ws mem' :
      p !! i = Some (w, Some (op :: ws)) →
      exec_write mem op = Some mem' →
      step a bdim (p, mem) (<[i := (w, Some ws)]> p, mem').

Definition started (schedule : list (Z * Z)) : pool F :=
  (λ w, (w, None)) <$> schedule.

Definition is_done (t : Z * Z * option (list (write F))) : bool :=
  match t.2 with Some [] => true | _ => false end.

Definition finished (p : pool F) : Prop := Forall (λ t, is_done t = true) p.
End Interleaving.

(** ** The host class [GPUhist] *)

Record GPUhist (F : Type) : Type := {
  n_bins_x : Z;
  n_bins_y : Z;
  hist2d : list F;
  d_hist2d : nat;
  d_bin_edges_x : nat;
  d_bin_edges_y : nat;
}.
Arguments n_bins_x {F}.
Arguments n_bins_y {F}.
Arguments hist2d {F}.
Arguments d_hist2d {F}.
Arguments d_bin_edges_x {F}.
Arguments d_bin_edges_y {F}.

(** [a.reshape(rows, cols)] on a flat array. *)
Fixpoint reshape {A} (rows cols : nat) (flat : list A) : list (list A) :=
  match rows with
  | O => []
  | S rows => take cols flat :: reshape rows cols (drop cols flat)
  end.

Section GPUhist.
Context `{FType F}.

(** [GPUhist.__init__].  [np.zeros] refuses a negative dimension and
    [cuda.mem_alloc] a size of zero, so both axes need a bin. *)
Definition GPUhist_init (bin_edges_x bin_edges_y : list F) (mem : device F)
    : option (GPUhist F * device F) :=
  nx ← cint (Z.of_nat (length bin_edges_x) - 1);
  ny ← cint (Z.of_nat (length bin_edges_y) - 1);
  if (1 <=? nx) && (1 <=? ny) then
    let h := zeros (Z.to_nat (nx * ny)) in
    let '(d_h, mem) := mem_alloc mem h in
    let '(d_ex, mem) := mem_alloc mem bin_edges_x in
    let '(d_ey, mem) := mem_alloc mem bin_edges_y in
    Some ({| n_bins_x := nx; n_bins_y := ny; hist2d := h; d_hist2d := d_h;
             d_bin_edges_x := d_ex; d_bin_edges_y := d_ey |}, mem)
  else None.

(** [GPUhist.clear]: the writes it performs, and the new host array. *)
Definition clear_writes (self : GPUhist F) : list (write F) :=
  [MemcpyHtoD (d_hist2d self) (zeros (Z.to_nat (n_bins_x self * n_bins_y self)))].

Definition clear (self : GPUhist F) (mem : device F) : option (GPUhist F * device F) :=
  let h := zeros (Z.to_nat (n_bins_x self * n_bins_y self)) in
  mem ← exec_writes mem (clear_writes self);
  Some ({| n_bins_x := n_bins_x self; n_bins_y := n_bins_y self; hist2d := h;
           d_hist2d := d_hist2d self; d_bin_edges_x := d_bin_edges_x self;
           d_bin_edges_y := d_bin_edges_y self |}, mem).

(** The launch configuration of [get_hist]. *)
Definition get_hist_bdim : Z := 256.
Definition get_hist_gdim (n_evts : Z) : Z :=
  let dx := n_evts `div` get_hist_bdim in
  let mx := n_evts `mod` get_hist_bdim in
  (dx + (if 0 <? mx then 1 else 0)) * get_hist_bdim.

Definition get_hist_args (self : GPUhist F) (n_evts : Z) (d_x d_y d_w : nat)
    : Hist2D_args :=
  {| arg_X := d_x; arg_Y := d_y; arg_W := d_w; arg_n_evts := n_evts;
     arg_hist := d_hist2d self; arg_n_bins_x := n_bins_x self;
     arg_n_bins_y := n_bins_y self; arg_bin_edges_x := d_bin_edges_x self;
     arg_bin_edges_y := d_bin_edges_y self |}.

(** [GPUhist.get_hist]: the returned array, the object and the device
    memory after the call. *)
Definition get_hist (self : GPUhist F) (n_evts : Z) (d_x d_y d_w : nat)
    (mem : device F) : option (list (list F) * GPUhist F * device F) :=
  let bdim := get_hist_bdim in
  let gdim := get_hist_gdim n_evts in
  '(self, mem) ← clear self mem;
  mem ← launch_Hist2D (get_hist_args self n_evts d_x d_y d_w) bdim gdim mem;
  h ← memcpy_dtoh (hist2d self) mem (d_hist2d self);
  let self := {| n_bins_x := n_bins_x self; n_bins_y := n_bins_y self; hist2d := h;
           d_hist2d := d_hist2d self; d_bin_edges_x := d_bin_edges_x self;
           d_bin_edges_y := d_bin_edges_y self |} in
  Some (reshape (Z.to_nat (n_bins_x self)) (Z.to_nat (n_bins_y self)) h, self, mem).
End GPUhist.

(** Every event index is the index of exactly one thread of the grid of
    [get_hist]. *)
Definition each_event_once (n_evts : Z) : Prop :=
  let grid := workers get_hist_bdim (get_hist_gdim n_evts) in
  ∀ idx, 0 ≤ idx < n_evts →
    ∃ w, w ∈ grid ∧ thread_idx w.2 get_hist_bdim w.1 = idx ∧
         ∀ w', w' ∈ grid → thread_idx w'.2 get_hist_bdim w'.1 = idx → w' = w.

(** ** Binnings as the data model has them *)

Section Edges.
Context `{FType F}.

(** Invariant of a dimension: the edges are strictly increasing. *)
Definition strictly_increasing (edges : list F) : Prop :=
  ∀ (i : nat) a b, edges !! i = Some a → edges !! S i = Some b → flt a b = true.

Fixpoint strictly_increasingb (edges : list F) : bool :=
  match edges with
  | a :: (b :: _) as rest => flt a b && strictly_increasingb rest
  | _ => true
  end.

(** [edges] describes [n_bins] bins. *)
Definition edges_of (n_bins : Z) (edges : list F) : Prop :=
  1 ≤ n_bins ∧ Z.of_nat (length edges) = n_bins + 1 ∧ strictly_increasing edges.

(** [x] lies in the closed range of the dimension: the test of [Hist2D]. *)
Definition in_range (x : F) (n_bins : Z) (edges : list F) : bool :=
  match read edges 0, read edges n_bins with
  | Some e0, Some en => fle e0 x && fle x en
  | _, _ => false
  end.

(** [bin] is the bin of [x]: closed below, open above, the last bin closed
    above too. *)
Definition located (x : F) (n_bins : Z) (edges : list F) (bin : Z) : Prop :=
  ∃ e e1, read edges bin = Some e ∧ read edges (bin + 1) = Some e1 ∧
    fle e x = true ∧ (flt x e1 = true ∨ (bin = n_bins - 1 ∧ fle x e1 = true)).
End Edges.

(** ** Events and their bins *)

Section Events.
Context `{FType F}.

(** The flat bin of an event, as [Hist2D] computes it; [None] for an event
    that is out of range in a dimension. *)
Definition bin_index (n_bins_x n_bins_y : Z) (bin_edges_x bin_edges_y : list F)
    (x y : F) : option Z :=
  if in_range x n_bins_x bin_edges_x && in_range y n_bins_y bin_edges_y then
    bin_x ← GetBin x n_bins_x bin_edges_x;
    bin_y ← GetBin y n_bins_y bin_edges_y;
    Some (bin_y + bin_x * n_bins_y)
  else None.

(** [buf[i] += w]. *)
Definition add_to_bin (buf : list F) (i : Z) (w : F) : list F :=
  alter (λ old, fadd old w) (Z.to_nat i) buf.

(** The effect of one event (coordinates and weight) on a histogram. *)
Definition add_event (n_bins_x n_bins_y : Z) (bin_edges_x bin_edges_y : list F)
    (h : list F) (ev : F * F * F) : list F :=
  match bin_index n_bins_x n_bins_y bin_edges_x bin_edges_y ev.1.1 ev.1.2 with
  | Some i => add_to_bin h i ev.2
  | None => h
  end.

(** The events of a sample: coordinates and weight, in order. *)
Definition events (X Y W : list F) (n_evts : Z) : list (F * F * F) :=
  take (Z.to_nat n_evts) (zip (zip X Y) W).

Definition event_in_range (n_bins_x n_bins_y : Z) (bin_edges_x bin_edges_y : list F)
    (ev : F * F * F) : bool :=
  in_range ev.1.1 n_bins_x bin_edges_x && in_range ev.1.2 n_bins_y bin_edges_y.

Definition fsum (l : list F) : F := foldr fadd fzero l.

(** The buffers a launch of [Hist2D] reads, and what it needs of them. *)
Record Hist2D_ok (mem : device F) (a : Hist2D_args)
    (X Y W bin_edges_x bin_edges_y : list F) : Prop := {
  ok_X : mem !! arg_X a = Some X;
  ok_Y : mem !! arg_Y a = Some Y;
  ok_W : mem !! arg_W a = Some W;
  ok_bin_edges_x : mem !! arg_bin_edges_x a = Some bin_edges_x;
  ok_bin_edges_y : mem !! arg_bin_edges_y a = Some bin_edges_y;
  ok_len_X : arg_n_evts a ≤ Z.of_nat (length X);
  ok_len_Y : arg_n_evts a ≤ Z.of_nat (length Y);
  ok_len_W : arg_n_evts a ≤ Z.of_nat (length W);
  ok_edges_x : edges_of (arg_n_bins_x a) bin_edges_x;
  ok_edges_y : edges_of (arg_n_bins_y a) bin_edges_y;
}.

(** The histogram buffer of a launch: of the size of the binning, and none
    of the buffers the kernel reads. *)
Record hist_ok (mem : device F) (a : Hist2D_args) (h : list F) : Prop := {
  ok_hist : mem !! arg_hist a = Some h;
  ok_hist_len : Z.of_nat (length h) = arg_n_bins_x a * arg_n_bins_y a;
  ok_hist_X : arg_hist a ≠ arg_X a;
  ok_hist_Y : arg_hist a ≠ arg_Y a;
  ok_hist_W : arg_hist a ≠ arg_W a;
  ok_hist_ex : arg_hist a ≠ arg_bin_edges_x a;
  ok_hist_ey : arg_hist a ≠ arg_bin_edges_y a;
}.

(** The effect on the histogram of the thread of index [idx]. *)
Definition thread_effect (a : Hist2D_args) (X Y W ex ey : list F)
    (h : list F) (idx : Z) : list F :=
  from_option (add_event (arg_n_bins_x a) (arg_n_bins_y a) ex ey h) h
    (events X Y W (arg_n_evts a) !! Z.to_nat idx).
End Events.

(** Bounds under which the index arithmetic of the kernel stays within
    [int]: each axis, and the flat index. *)
Definition bins_fit (n_bins_x n_bins_y : Z) : Prop :=
  n_bins_x ≤ 2 ^ 30 ∧ n_bins_y ≤ 2 ^ 30 ∧ n_bins_x * n_bins_y ≤ 2 ^ 31 - 1.

(** Largest number of bins for which [first + last] is an [int]. *)
Definition MAX_BINS : Z := 2 ^ 30.

(** ** The stage [hist] *)

(** Python exceptions, and results of code that can raise. *)
Inductive exn : Type :=
  | AssertionError | KeyError | ValueError | IndexError | AttributeError.

Inductive res (A : Type) : Type :=
  | Ok (a : A)
  | Raise (e : exn).
Arguments Ok {A} a.
Arguments Raise {A} e.

#[export] Instance res_ret : MRet res := λ A a, Ok a.
#[export] Instance res_bind : MBind res :=
  λ A B f m, match m with Ok a => f a | Raise e => Raise e end.

(** A numpy array: its shape and its entries in row-major order. *)
Record ndarray (F : Type) : Type := { shape : list nat; flat : list F }.
Arguments Build_ndarray {F} shape flat.
Arguments shape {F}.
Arguments flat {F}.

(** A one-dimensional array. *)
Definition vector {F} (l : list F) : ndarray F :=
  {| shape := [length l]; flat := l |}.

Record OneDimBinning (F : Type) : Type := { dim_name : string; dim_edges : list F }.
Arguments dim_name {F}.
Arguments dim_edges {F}.

(** [MultiDimBinning]: an ordered sequence of dimensions. *)
Abbreviation MultiDimBinning F := (list (OneDimBinning F)).

(** [binning.names]. *)
Definition names {F} (b : MultiDimBinning F) : list string := dim_name <$> b.

(** Modelled from the spec: [MultiDimBinning.__add__] ([pisa.core.binning]
    is absent), which the spec describes as the concatenation of the
    dimensions of two binnings. *)
Definition binning_add {F} (b1 b2 : MultiDimBinning F) : MultiDimBinning F :=
  b1 ++ b2.

(** The values of [calc_mode], [apply_mode] and of a representation. *)
Inductive Mode (F : Type) : Type :=
  | mode_None
  | mode_events
  | mode_binning (b : MultiDimBinning F).
Arguments mode_None {F}.
Arguments mode_events {F}.
Arguments mode_binning {F} b.

(** A container: its current representation, and its arrays, each stored
    under the representation it was written in. *)
Record Container (F : Type) : Type := {
  representation : Mode F;
  store : list (Mode F * string * ndarray F);
}.
Arguments Build_Container {F} representation store.
Arguments representation {F}.
Arguments store {F}.

Record hist (F : Type) : Type := {
  calc_mode : Mode F;
  apply_mode : Mode F;
  error_method : option string;
  transform_binning : option (MultiDimBinning F);
  data : list (Container F);
}.
Arguments Build_hist {F} calc_mode apply_mode error_method transform_binning data.
Arguments calc_mode {F}.
Arguments apply_mode {F}.
Arguments error_method {F}.
Arguments transform_binning {F}.
Arguments data {F}.

#[export] Instance OneDimBinning_eq_dec `{EqDecision F} : EqDecision (OneDimBinning F).
Proof. solve_decision. Defined.
#[export] Instance Mode_eq_dec `{EqDecision F} : EqDecision (Mode F).
Proof. solve_decision. Defined.

Section Arrays.
Context `{FType F}.

(** [transform.reshape(n, -1)], as the list of the [n] rows. *)
Definition nd_reshape (t : ndarray F) (n : nat) : res (list (list F)) :=
  let size := length (flat t) in
  if (n =? 0)%nat then Raise ValueError
  else if (size mod n =? 0)%nat then Ok (reshape n (size / n) (flat t))
  else Raise ValueError.

(** The dot product of two vectors. *)
Definition dot (u v : list F) : F :=
  foldr (λ ab acc, fadd (fmul ab.1 ab.2) acc) fzero (zip u v).

(** Column [j] of a matrix given by its rows. *)
Definition column (j : nat) (rows : list (list F)) : list F :=
  (λ row, default fzero (row !! j)) <$> rows.

(** The product of a vector with a matrix of [m] columns: entry [j] is
    the sum over [i] of [w[i] * T[i][j]]. *)
Definition vecmat (w : list F) (rows : list (list F)) (m : nat) : list F :=
  (λ j, dot w (column j rows)) <$> seq 0 m.

(** The number of columns of a matrix given by its rows. *)
Definition n_columns (rows : list (list F)) : nat :=
  match rows with row :: _ => length row | [] => 0%nat end.

(** [weights @ transform] for a one-dimensional [weights] and the rows of a
    two-dimensional [transform]; numpy refuses mismatched lengths.  Other
    ranks of [weights] are not modelled. *)
Definition matmul (weights : ndarray F) (rows : list (list F)) : res (ndarray F) :=
  match shape weights with
  | [n] =>
      if (n =? length rows)%nat
      then Ok (vector (vecmat (flat weights) rows (n_columns rows)))
      else Raise ValueError
  | _ => Raise ValueError
  end.

(** [np.square]. *)
Definition square (a : ndarray F) : ndarray F :=
  {| shape := shape a; flat := (λ v, fmul v v) <$> flat a |}.
End Arrays.

Section Containers.
Context `{EqDecision F}.

Fixpoint assoc (key : Mode F * string) (l : list (Mode F * string * ndarray F))
    : option (ndarray F) :=
  match l with
  | [] => None
  | (k, v) :: l => if decide (k = key) then Some v else assoc key l
  end.

(** [container[key]]: the array stored under the current representation. *)
Definition getitem (c : Container F) (key : string) : res (ndarray F) :=
  match assoc (representation c, key) (store c) with
  | Some v => Ok v
  | None => Raise KeyError
  end.

(** [container[key] = v]. *)
Definition setitem (c : Container F) (key : string) (v : ndarray F) : Container F :=
  {| representation := representation c;
     store := ((representation c, key), v) :: store c |}.

(** [container.representation = r]. *)
Definition set_representation (r : Mode F) (c : Container F) : Container F :=
  {| representation := r; store := store c |}.

(** [self.data.representation = r]: every container of the set. *)
Definition set_all_representation (r : Mode F) (cs : list (Container F))
    : list (Container F) :=
  set_representation r <$> cs.
End Containers.

Section Stage.
Context `{FType F} `{EqDecision F}.

(** [pisa.core.translation.histogram(sample, weights, binning,
    averaged=False)] and [np.sqrt] are not part of the sources: the stage is
    parameterised by them. *)
Variable histogram :
  list (ndarray F) → option (ndarray F) → MultiDimBinning F → res (ndarray F).
Variable fsqrt : F → F.

Definition sqrt_array (a : ndarray F) : ndarray F :=
  {| shape := shape a; flat := fsqrt <$> flat a |}.

(** A loop [for container in self.data], on the positions of the
    containers: the body can replace every container of the set. *)
Definition for_containers
    (body : nat → list (Container F) → res (list (Container F)))
    (cs : list (Container F)) : res (list (Container F)) :=
  foldl (λ acc i, cs ← acc; body i cs) (Ok cs) (seq 0 (length cs)).

Definition nth_container (i : nat) (cs : list (Container F)) : res (Container F) :=
  match cs !! i with Some c => Ok c | None => Raise IndexError end.

(** The body of the loop of [setup_function]. *)
Definition setup_container (tb : MultiDimBinning F) (i : nat)
    (cs : list (Container F)) : res (list (Container F)) :=
  let cs := set_all_representation mode_events cs in
  container ← nth_container i cs;
  sample ← mapM (getitem container) (names tb);
  h ← histogram sample None tb;
  let cs := set_all_representation (mode_binning tb) cs in
  container ← nth_container i cs;
  Ok (<[i := setitem container "hist_transform" h]> cs).

Definition setup_function (self : hist F) : res (hist F) :=
  match apply_mode self with
  | mode_binning apply_b =>
      match calc_mode self with
      | mode_binning calc_b =>
          (* The two binning must be exclusive *)
          if decide (size (list_to_set (names calc_b) ∩ list_to_set (names apply_b)
                           : gset string) = 0%nat)
          then
            let tb := binning_add calc_b apply_b in
            cs ← for_containers (setup_container tb) (data self);
            Ok {| calc_mode := calc_mode self; apply_mode := apply_mode self;
                  error_method := error_method self;
                  transform_binning := Some tb; data := cs |}
          else Raise AssertionError
      | _ => Ok self
      end
  | _ => Raise AssertionError
  end.

(** Lines 86-92 of [apply_function]: the histogram, and the sum of squared
    weights when the error method asks for it. *)
Definition apply_transform (error_method : option string)
    (weights transform : ndarray F) : res (ndarray F * option (ndarray F)) :=
  n ← match shape weights with n :: _ => Ok n | [] => Raise IndexError end;
  rows ← nd_reshape transform n;
  h ← matmul weights rows;
  if decide (error_method = Some "sumw2") then
    sumw2 ← matmul (square weights) rows;
    Ok (h, Some sumw2)
  else Ok (h, None).

(** The body of the loop of [apply_function] when [calc_mode] is a binning. *)
Definition apply_container_binned (self : hist F) (i : nat)
    (cs : list (Container F)) : res (list (Container F)) :=
  container ← nth_container i cs;
  let cs := <[i := set_representation (calc_mode self) container]> cs in
  container ← nth_container i cs;
  weights ← getitem container "weights";
  tb ← match transform_binning self with
       | Some tb => Ok tb
       | None => Raise AttributeError
       end;
  let cs := set_all_representation (mode_binning tb) cs in
  container ← nth_container i cs;
  transform ← getitem container "hist_transform";
  '(h, sumw2) ← apply_transform (error_method self) weights transform;
  let container := set_representation (apply_mode self) container in
  let container := setitem container "weights" h in
  let container :=
    match sumw2 with
    | Some s => setitem container "errors" (sqrt_array s)
    | None => container
    end in
  Ok (<[i := container]> cs).

(** The body of the loop of [apply_function] when [calc_mode] is
    ['events']. *)
Definition apply_container_events (self : hist F) (i : nat)
    (cs : list (Container F)) : res (list (Container F)) :=
  container ← nth_container i cs;
  let container := set_representation (calc_mode self) container in
  apply_b ← match apply_mode self with
            | mode_binning b => Ok b
            | _ => Raise AttributeError
            end;
  sample ← mapM (getitem container) (names apply_b);
  weights ← getitem container "weights";
  h ← histogram sample (Some weights) apply_b;
  sumw2 ← (if decide (error_method self = Some "sumw2")
           then s ← histogram sample (Some (square weights)) apply_b; Ok (Some s)
           else Ok None);
  let container := set_representation (apply_mode self) container in
  let container := setitem container "weights" h in
  let container :=
    match sumw2 with
    | Some s => setitem container "errors" (sqrt_array s)
    | None => container
    end in
  Ok (<[i := container]> cs).

(** The arrays that processing a container adds to its store. *)
Definition processed (self : hist F) (st : list (Mode F * string * ndarray F))
    : res (list (Mode F * string * ndarray F)) :=
  weights ← match assoc (calc_mode self, "weights") st with
            | Some v => Ok v | None => Raise KeyError end;
  tb ← match transform_binning self with
       | Some tb => Ok tb | None => Raise AttributeError end;
  transform ← match assoc (mode_binning tb, "hist_transform") st with
              | Some v => Ok v | None => Raise KeyError end;
  hs ← apply_transform (error_method self) weights transform;
  Ok (match hs.2 with
      | Some s => [((apply_mode self, "errors"), sqrt_array s)]
      | None => []
      end ++ ((apply_mode self, "weights"), hs.1) :: st).

Definition with_data (self : hist F) (cs : list (Container F)) : hist F :=
  {| calc_mode := calc_mode self; apply_mode := apply_mode self;
     error_method := error_method self;
     transform_binning := transform_binning self; data := cs |}.

Definition apply_function (self : hist F) : res (hist F) :=
  match calc_mode self with
  | mode_binning _ =>
      cs ← for_containers (apply_container_binned self) (data self);
      Ok (with_data self cs)
  | mode_events =>
      cs ← for_containers (apply_container_events self) (data self);
      Ok (with_data self cs)
  | mode_None => Ok self
  end.
End Stage.

(** ** The absent [histogram] *)

(** [pisa.core.translation], of which the stage calls [histogram], is not
    part of the sources.  The spec describes the function as
    [accumulate(sample, weights, binning)]. *)
Module translation.
Section histogram.
Context `{FType F}.

(** Modelled from the spec: the number of bins of a dimension
    ([pisa.core.binning] is absent), [num_bins = len(edges) - 1]. *)
Definition num_bins (d : OneDimBinning F) : Z :=
  Z.of_nat (length (dim_edges d)) - 1.

(** Modelled from the spec: the number of bins of a binning
    ([pisa.core.binning] is absent), the product of [num_bins] over the
    dimensions. *)
Definition tot_num_bins (binning : MultiDimBinning F) : Z :=
  foldr (λ d acc, num_bins d * acc) 1 binning.

(** Modelled from the spec: the flat index of the coordinates of an event
    (the bin indexer of [pisa.core.translation] is absent).  It is the sum
    over the dimensions of the bin times the number of bins of the
    dimensions after it; an event out of range in any dimension has none.
    The bin of a coordinate in a dimension is the one of the search of
    [GetBin], behind the range test of [Hist2D]. *)
Fixpoint flat_index (binning : MultiDimBinning F) (coords : list F) : option Z :=
  match binning, coords with
  | [], [] => Some 0
  | d :: binning, x :: coords =>
      if in_range x (num_bins d) (dim_edges d) then
        i ← GetBin x (num_bins d) (dim_edges d);
        rest ← flat_index binning coords;
        Some (i * tot_num_bins binning + rest)
      else None
  | _, _ => None
  end.

(** The number of events of a sample, the coordinates and the weight of an
    event: the weights default to one each. *)
Definition n_events (sample : list (ndarray F)) : nat :=
  match sample with a :: _ => length (flat a) | [] => 0%nat end.

Definition event_coords (sample : list (ndarray F)) (e : nat) : option (list F) :=
  mapM (λ a, flat a !! e) sample.

Definition event_weight (weights : option (ndarray F)) (e : nat) : F :=
  match weights with
  | Some w => default fone (flat w !! e)
  | None => fone
  end.

(** The contribution of event [e] to the histogram [h]: its weight, added
    to its bin; nothing when it is out of range. *)
Definition add_event (sample : list (ndarray F)) (weights : option (ndarray F))
    (binning : MultiDimBinning F) (h : list F) (e : nat) : list F :=
  match event_coords sample e ≫= flat_index binning with
  | Some i => add_to_bin h i (event_weight weights e)
  | None => h
  end.

(** Modelled from the spec: [pisa.core.translation.histogram(sample,
    weights, binning, averaged=False)], which is absent.  The sample holds
    one coordinate array per dimension, all of the length of the weights (a
    mismatch is fatal); the histogram starts from zeros, has the shape of
    the binning, with one entry per bin in row-major order, and every event
    that is in range adds its weight to its bin. *)
Definition histogram (sample : list (ndarray F)) (weights : option (ndarray F))
    (binning : MultiDimBinning F) : res (ndarray F) :=
  let n := n_events sample in
  if (length sample =? length binning)%nat
     && forallb (λ a, (length (flat a) =? n)%nat) sample
     && match weights with
        | Some w => (length (flat w) =? n)%nat
        | None => true
        end
  then
    Ok {| shape := (λ d, Z.to_nat (num_bins d)) <$> binning;
          flat := foldl (add_event sample weights binning)
                    (zeros (Z.to_nat (tot_num_bins binning))) (seq 0 n) |}
  else Raise ValueError.
End histogram.
End translation.

(** ** Binned weights seen from the events *)

Section Binned_weights.
Context `{FType F}.

(** A binning as the data model has it: at least one dimension, and in
    every dimension strictly increasing edges of at least one bin. *)
Definition binning_ok (binning : MultiDimBinning F) : Prop :=
  binning ≠ [] ∧
  Forall (λ d, edges_of (translation.num_bins d) (dim_edges d) ∧
               translation.num_bins d ≤ MAX_BINS) binning.

(** The weight an event carries when the weights are given per bin of
    [binning]: the weight of the bin of the event, and none for an event
    that is out of the range of the binning. *)
Definition binned_weight (binning : MultiDimBinning F) (sample : list (ndarray F))
    (w : list F) (e : nat) : F :=
  match translation.event_coords sample e ≫= translation.flat_index binning with
  | Some i => default fzero (w !! Z.to_nat i)
  | None => fzero
  end.

Definition binned_weights (binning : MultiDimBinning F) (sample : list (ndarray F))
    (w : list F) (n : nat) : list F :=
  binned_weight binning sample w <$> seq 0 n.
End Binned_weights.

(** ** Cells of the histogram, and the [__main__] block *)

Section Cells.
Context `{FType F}.

(** The event falls in the cell [(bin_x, bin_y)]: it is in range in both
    dimensions, and [GetBin] gives these two bins. *)
Definition in_cell (n_bins_x n_bins_y : Z) (bin_edges_x bin_edges_y : list F)
    (bin_x bin_y : Z) (ev : F * F * F) : bool :=
  event_in_range n_bins_x n_bins_y bin_edges_x bin_edges_y ev
  && bool_decide (GetBin ev.1.1 n_bins_x bin_edges_x = Some bin_x)
  && bool_decide (GetBin ev.1.2 n_bins_y bin_edges_y = Some bin_y).

(** The sum of the weights of the events of a cell. *)
Definition cell_content (n_bins_x n_bins_y : Z) (bin_edges_x bin_edges_y : list F)
    (evs : list (F * F * F)) (bin_x bin_y : Z) : F :=
  fsum (snd <$> filter (λ ev, in_cell n_bins_x n_bins_y bin_edges_x bin_edges_y
                                bin_x bin_y ev = true) evs).

(** Entry [[r][c]] of a two-dimensional array given by its rows. *)
Definition entry (rows : list (list F)) (r c : Z) : option F :=
  row ← read rows r; read row c.

(** The [__main__] block, with the sample [e], [cz] and the edges as
    parameters: the events are uploaded with weights one, then the
    histogrammer is built and run.  [cuda.mem_alloc] refuses a size of
    zero, so the sample needs an event. *)
Definition main (e cz bin_edges_e bin_edges_cz : list F) : option (list (list F)) :=
  n_evts ← cint (Z.of_nat (length e));
  if 1 <=? n_evts then
    let w := replicate (Z.to_nat n_evts) fone in
    let '(d_e, mem) := mem_alloc [] e in
    let '(d_cz, mem) := mem_alloc mem cz in
    let '(d_w, mem) := mem_alloc mem w in
    '(histogrammer, mem) ← GPUhist_init bin_edges_e bin_edges_cz mem;
    r ← get_hist histogrammer n_evts d_e d_cz d_w mem;
    Some r.1.1
  else None.
End Cells.

(** ** Test data *)

(** The [__main__] block on a small sample: edges [0,1,2,3] on both axes. *)
Definition demo_edges : list Z := [0; 1; 2; 3].
Definition demo_run (xs ys ws : list Z) : option (list (list Z)) :=
  '(g, mem) ← GPUhist_init demo_edges demo_edges [];
  let '(d_e, mem) := mem_alloc mem xs in
  let '(d_cz, mem) := mem_alloc mem ys in
  let '(d_w, mem) := mem_alloc mem ws in
  r ← get_hist g (Z.of_nat (length xs)) d_e d_cz d_w mem;
  Some r.1.1.

(** A small launch used to run the theorems: edges [0,1,2,3] on both axes,
    four events of which the first is out of range in [x]. *)
Definition demo_X : list Z := [-1; 1; 3; 2].
Definition demo_Y : list Z := [0; 3; 3; 1].
Definition demo_W : list Z := [5; 7; 11; 13].
Definition demo_mem : device Z :=
  [zeros 9; demo_edges; demo_edges; demo_X; demo_Y; demo_W].
Definition demo_args : Hist2D_args :=
  {| arg_X := 3; arg_Y := 4; arg_W := 5; arg_n_evts := 4; arg_hist := 0;
     arg_n_bins_x := 3; arg_n_bins_y := 3; arg_bin_edges_x := 1;
     arg_bin_edges_y := 2 |}.

(** The object and the memory of the small launch, and what [get_hist]
    leaves of them. *)
Definition demo_self : GPUhist Z :=
  {| n_bins_x := 3; n_bins_y := 3; hist2d := zeros 9; d_hist2d := 0;
     d_bin_edges_x := 1; d_bin_edges_y := 2 |}.
Definition demo_hist : list Z := [0; 0; 0; 0; 0; 7; 0; 13; 11].
Definition demo_self' : GPUhist Z :=
  {| n_bins_x := 3; n_bins_y := 3; hist2d := demo_hist; d_hist2d := 0;
     d_bin_edges_x := 1; d_bin_edges_y := 2 |}.
Definition demo_mem' : device Z :=
  [demo_hist; demo_edges; demo_edges; demo_X; demo_Y; demo_W].

(** Two one-dimensional binnings, with and without a common name, and a
    stage without containers for each pair. *)
Definition demo_binning (name : string) : MultiDimBinning Z :=
  [{| dim_name := name; dim_edges := demo_edges |}].
Definition demo_stage (calc_name apply_name : string) : hist Z :=
  {| calc_mode := mode_binning (demo_binning calc_name);
     apply_mode := mode_binning (demo_binning apply_name);
     error_method := Some "sumw2"; transform_binning := None; data := [] |}.
Definition demo_histogram (sample : list (ndarray Z)) (weights : option (ndarray Z))
    (b : MultiDimBinning Z) : res (ndarray Z) := Raise ValueError.

(** A stage with one container: three calculation bins, three apply bins. *)
Definition demo_calc : MultiDimBinning Z := demo_binning "true_energy".
Definition demo_apply : MultiDimBinning Z := demo_binning "reco_energy".
Definition demo_container : Container Z :=
  {| representation := mode_events;
     store :=
       [((mode_binning demo_calc, "weights"), vector [2; 3; 1]);
        ((mode_binning (binning_add demo_calc demo_apply), "hist_transform"),
         {| shape := [3; 3]%nat; flat := [1; 0; 0; 0; 1; 1; 2; 0; 0] |})] |}.
Definition demo_hist_stage : hist Z :=
  {| calc_mode := mode_binning demo_calc; apply_mode := mode_binning demo_apply;
     error_method := Some "sumw2";
     transform_binning := Some (binning_add demo_calc demo_apply);
     data := [demo_container] |}.
Definition demo_applied : hist Z :=
  Eval vm_compute in
    match apply_function demo_histogram Z.sqrt demo_hist_stage with
    | Ok s => s
    | Raise _ => demo_hist_stage
    end.

(** A container with its events, a [histogram] that returns, and the stage
    before [setup_function], for both kinds of [calc_mode]. *)
Definition demo_transform_array : ndarray Z :=
  {| shape := [3; 3]%nat; flat := [1; 0; 0; 0; 1; 1; 2; 0; 0] |}.
Definition demo_histogram_ok (sample : list (ndarray Z)) (weights : option (ndarray Z))
    (b : MultiDimBinning Z) : res (ndarray Z) :=
  match weights with
  | None => Ok demo_transform_array
  | Some w => Ok (vector (flat w))
  end.
Definition demo_events_container : Container Z :=
  {| representation := mode_None;
     store :=
       [((mode_events, "true_energy"), vector [1; 2; 3]);
        ((mode_events, "reco_energy"), vector [2; 2; 1]);
        ((mode_events, "weights"), vector [2; 3; 1]);
        ((mode_binning demo_calc, "weights"), vector [2; 3; 1])] |}.
Definition demo_setup_stage : hist Z :=
  {| calc_mode := mode_binning demo_calc; apply_mode := mode_binning demo_apply;
     error_method := Some "sumw2"; transform_binning := None;
     data := [demo_events_container] |}.
Definition demo_events_stage : hist Z :=
  {| calc_mode := mode_events; apply_mode := mode_binning demo_apply;
     error_method := Some "sumw2"; transform_binning := None;
     data := [demo_events_container] |}.

(** The stages above after [setup_function] and [apply_function]. *)
Definition demo_setup_done : hist Z :=
  Eval vm_compute in
    match setup_function demo_histogram_ok demo_setup_stage with
    | Ok s => s
    | Raise _ => demo_setup_stage
    end.
Definition demo_setup_applied : hist Z :=
  Eval vm_compute in
    match apply_function demo_histogram_ok Z.sqrt demo_setup_done with
    | Ok s => s
    | Raise _ => demo_setup_done
    end.
Definition demo_events_applied : hist Z :=
  Eval vm_compute in
    match apply_function demo_histogram_ok Z.sqrt demo_events_stage with
    | Ok s => s
    | Raise _ => demo_events_stage
    end.

(** A container whose weights are given per calculation bin: five events,
    the last one outside of the calculation binning; the stage that rebins
    it with [translation.histogram], before and after [setup_function] and
    [apply_function]. *)
Definition demo_rebin_true : ndarray Z := vector [2; 0; 1; 1; 7].
Definition demo_rebin_reco : ndarray Z := vector [0; 1; 2; 3; 1].
Definition demo_rebin_container : Container Z :=
  {| representation := mode_None;
     store :=
       [((mode_events, "true_energy"), demo_rebin_true);
        ((mode_events, "reco_energy"), demo_rebin_reco);
        ((mode_binning demo_calc, "weights"), vector [5; 7; 11])] |}.
Definition demo_rebin_stage : hist Z :=
  {| calc_mode := mode_binning demo_calc; apply_mode := mode_binning demo_apply;
     error_method := None; transform_binning := None;
     data := [demo_rebin_container] |}.
Definition demo_rebin_setup : hist Z :=
  Eval vm_compute in
    match setup_function translation.histogram demo_rebin_stage with
    | Ok s => s
    | Raise _ => demo_rebin_stage
    end.
Definition demo_rebin_applied : hist Z :=
  Eval vm_compute in
    match apply_function translation.histogram Z.sqrt demo_rebin_setup with
    | Ok s => s
    | Raise _ => demo_rebin_setup
    end.

(** Three events with one weight per event, stored where [apply_function]
    reads its weights. *)
Definition demo_perevent_true : ndarray Z := vector [2; 0; 1].
Definition demo_perevent_reco : ndarray Z := vector [0; 1; 2].
Definition demo_perevent_stage : hist Z :=
  {| calc_mode := mode_binning demo_calc; apply_mode := mode_binning demo_apply;
     error_method := None; transform_binning := None;
     data :=
       [{| representation := mode_None;
           store :=
             [((mode_events, "true_energy"), demo_perevent_true);
              ((mode_events, "reco_energy"), demo_perevent_reco);
              ((mode_binning demo_calc, "weights"), vector [5; 7; 11])] |}] |}.

(** The same three events on scalars with a NaN, and a NaN as the weight of
    the first calculation bin. *)
Definition nan_binning (name : string) : MultiDimBinning (option Z) :=
  [{| dim_name := name; dim_edges := [Some 0; Some 1; Some 2; Some 3] |}].
Definition nan_true : ndarray (option Z) := vector [Some 2; Some 0; Some 1].
Definition nan_reco : ndarray (option Z) := vector [Some 0; Some 1; Some 2].
Definition nan_weights : list (option Z) := [None; Some 1; Some 1].
Definition nan_stage : hist (option Z) :=
  {| calc_mode := mode_binning (nan_binning "true_energy");
     apply_mode := mode_binning (nan_binning "reco_energy");
     error_method := None; transform_binning := None;
     data :=
       [{| representation := mode_None;
           store :=
             [((mode_events, "true_energy"), nan_true);
              ((mode_events, "reco_energy"), nan_reco);
              ((mode_binning (nan_binning "true_energy"), "weights"),
               vector nan_weights)] |}] |}.

(** What [apply_function] stores as ['weights'] under [apply_mode] for the
    first container of a stage, after [setup_function]. *)
Definition rebinned `{FType F} `{EqDecision F} (fsqrt : F → F) (self : hist F)
    : res (ndarray F) :=
  self1 ← setup_function translation.histogram self;
  self2 ← apply_function translation.histogram fsqrt self1;
  c2 ← nth_container 0 (data self2);
  getitem (set_representation (apply_mode self) c2) "weights".

(** * Running the model *)

Example GetBin_ex1 : GetBin 0 3 [0; 1; 2; 3] = Some 0.
Proof. reflexivity. Qed.
Example GetBin_ex2 : GetBin 3 3 [0; 1; 2; 3] = Some 2.
Proof. reflexivity. Qed.
Example GetBin_ex3 : GetBin 2 3 [0; 1; 2; 3] = Some 2.
Proof. reflexivity. Qed.
Example GetBin_ex4 : GetBin 7 3 [0; 1; 2; 3] = Some 2.
Proof. reflexivity. Qed.
Example GetBin_ex5 : GetBin (-7) 3 [0; 1; 2; 3] = Some 0.
Proof. reflexivity. Qed.

(** A NaN coordinate fails the range test, and its thread writes nothing. *)
Example nan_out_of_range :
  @in_range (option Z) NaNZ_FType None 3 [Some 0; Some 1; Some 2; Some 3] = false.
Proof. reflexivity. Qed.
Example nan_thread :
  @Hist2D (option Z) NaNZ_FType
    [[Some 0]; [Some 0; Some 1; Some 2; Some 3]; [Some 0; Some 1; Some 2; Some 3];
     [None]; [Some 1]; [Some 5]]
    {| arg_X := 3; arg_Y := 4; arg_W := 5; arg_n_evts := 1; arg_hist := 0;
       arg_n_bins_x := 3; arg_n_bins_y := 3; arg_bin_edges_x := 1;
       arg_bin_edges_y := 2 |} 0 256 0
  = Some [].
Proof. reflexivity. Qed.

(** Two bins on each axis, one event on the right edge of both: it lands in
    the last bin of both. *)
Example right_edges_2d :
  (λ m, m !! 0%nat)
    <$> launch_Hist2D
          {| arg_X := 3; arg_Y := 4; arg_W := 5; arg_n_evts := 1; arg_hist := 0;
             arg_n_bins_x := 2; arg_n_bins_y := 2; arg_bin_edges_x := 1;
             arg_bin_edges_y := 2 |} 256 1
          [[0; 0; 0; 0]; [0; 1; 2]; [0; 1; 2]; [2]; [2]; [1]]
  = Some (Some [0; 0; 0; 1]).
Proof. vm_compute. reflexivity. Qed.

Example demo_run_ex1 :
  demo_run [0; 1; 2; 3] [0; 0; 0; 0] [1; 1; 1; 1] = Some [[1; 0; 0]; [1; 0; 0]; [2; 0; 0]].
Proof. vm_compute. reflexivity. Qed.
Example demo_run_ex2 :
  demo_run [-1; 1; 3; 4] [0; 3; 3; 1] [5; 7; 11; 13] = Some [[0; 0; 0]; [0; 0; 7]; [0; 0; 11]].
Proof. vm_compute. reflexivity. Qed.

(** * Properties of [GetBin] *)

Lemma read_Some {A} (buf : list A) (i : Z) a :
  read buf i = Some a ↔ 0 ≤ i ∧ buf !! Z.to_nat i = Some a.
Proof.
  unfold read. destruct (Z.leb_spec 0 i); split; intros; try tauto; try easy.
  lia.
Qed.

Lemma read_lt {A} (buf : list A) (i : Z) :
  0 ≤ i < Z.of_nat (length buf) → ∃ a, read buf i = Some a.
Proof.
  intros Hi. destruct (lookup_lt_is_Some_2 buf (Z.to_nat i)) as [a Ha]; [lia|].
  exists a. apply read_Some. split; [lia|done].
Qed.

Lemma read_bound {A} (buf : list A) (i : Z) a :
  read buf i = Some a → 0 ≤ i < Z.of_nat (length buf).
Proof.
  intros [Hi Hl]%read_Some. apply lookup_lt_Some in Hl. lia.
Qed.

Lemma cint_Some z : INT_MIN ≤ z ≤ INT_MAX → cint z = Some z.
Proof.
  intros Hz. unfold cint.
  rewrite !(proj2 (Z.leb_le _ _)); [done|lia..].
Qed.

Lemma strictly_increasingb_sound `{FType F} (edges : list F) :
  strictly_increasingb edges = true → strictly_increasing edges.
Proof.
  induction edges as [|a [|b rest] IH]; intros Hb i u v Hu Hv.
  - by rewrite lookup_nil in Hu.
  - by rewrite lookup_cons, lookup_nil in Hv.
  - apply andb_prop in Hb as [Hab Hrest].
    destruct i as [|i]; simpl in *.
    + by simplify_eq.
    + by apply (IH Hrest i).
Qed.

Section GetBin_proofs.
Context `{FOrder F}.

Lemma fnum_flt_false (a b : F) :
  fnum a → fnum b → flt a b = false → fle b a = true.
Proof.
  intros Ha Hb Hlt. rewrite (flt_total a b Ha Hb) in Hlt.
  by destruct (fle b a).
Qed.

Lemma fnum_fle_false (a b : F) :
  fnum a → fnum b → fle a b = false → flt b a = true.
Proof.
  intros Ha Hb Hle. by rewrite (flt_total b a Hb Ha), Hle.
Qed.

Lemma flt_not_fle (a b : F) : flt a b = true → fle b a = false.
Proof.
  intros Hlt. pose proof (flt_fle _ _ Hlt) as Hle.
  rewrite (flt_total a b (fle_num_l _ _ Hle) (fle_num_r _ _ Hle)) in Hlt.
  by destruct (fle b a).
Qed.

Lemma strictly_increasing_lt (edges : list F) (i j : nat) a b :
  strictly_increasing edges → (i < j)%nat →
  edges !! i = Some a → edges !! j = Some b → flt a b = true.
Proof.
  intros Hinc Hij Ha. revert b.
  induction j as [|j IH]; intros b Hb; [lia|].
  destruct (lookup_lt_is_Some_2 edges j) as [c Hc].
  { apply lookup_lt_Some in Hb. lia. }
  destruct (decide (i = j)) as [->|Hne].
  - simplify_eq. by apply (Hinc j).
  - apply (flt_trans a c b); [apply IH; [lia|done]|by apply (Hinc j)].
Qed.

Lemma strictly_increasing_le (edges : list F) (i j : nat) a b :
  strictly_increasing edges → (2 ≤ length edges)%nat → (i ≤ j)%nat →
  edges !! i = Some a → edges !! j = Some b → fle a b = true.
Proof.
  intros Hinc Hlen Hij Ha Hb.
  destruct (decide (i = j)) as [->|Hne].
  - simplify_eq.
    (* an edge is a number: it has a neighbour it compares with *)
    destruct j as [|j].
    + destruct (lookup_lt_is_Some_2 edges 1) as [c Hc]; [lia|].
      eapply fle_num_l, flt_fle, (Hinc 0%nat); eauto.
    + destruct (lookup_lt_is_Some_2 edges j) as [c Hc].
      { apply lookup_lt_Some in Ha. lia. }
      eapply fle_num_r, flt_fle, (Hinc j); eauto.
  - apply flt_fle. apply (strictly_increasing_lt edges i j a b); [done|lia|done|done].
Qed.

Lemma edges_fnum n (edges : list F) (i : Z) e :
  edges_of n edges → read edges i = Some e → fnum e.
Proof.
  intros (Hn & Hlen & Hinc) [Hi He]%read_Some.
  eapply (strictly_increasing_le edges _ _ e e Hinc); eauto; lia.
Qed.

(** The loop: from a state whose bounds bracket [x], it leaves through
    [break] with the bin of [x]. *)
Lemma GetBin_loop_located (x : F) (n : Z) (edges : list F) :
  edges_of n edges → n ≤ MAX_BINS → fnum x →
  ∀ (fuel : nat) (first last : Z) (b0 : option Z),
    0 ≤ first ≤ last → last ≤ n - 1 →
    last - first + 1 ≤ Z.of_nat fuel →
    (∃ e, read edges first = Some e ∧ fle e x = true) →
    ((last = n - 1 ∧ ∃ e, read edges n = Some e ∧ fle x e = true) ∨
     (∃ e, read edges (last + 1) = Some e ∧ flt x e = true)) →
    ∃ bin, GetBin_loop fuel x n edges first last b0 = Some bin ∧
           first ≤ bin ≤ last ∧ located x n edges bin.
Proof.
  intros Hedges Hmax Hx. pose proof Hedges as (Hn & Hlen & Hinc).
  unfold MAX_BINS in Hmax.
  induction fuel as [|fuel IH]; intros first last b0 Hfl Hlast Hfuel Hlo Hhi;
    [lia|].
  cbn [GetBin_loop].
  rewrite (proj2 (Z.leb_le first last)); [|lia].
  rewrite cint_Some; [|unfold INT_MIN, INT_MAX; lia]. cbn [mbind option_bind].
  assert (Hq : first ≤ (first + last) `quot` 2 ≤ last).
  { rewrite Z.quot_div_nonneg; [|lia..].
    split; [apply Z.div_le_lower_bound|apply Z.div_le_upper_bound]; lia. }
  set (bin := (first + last) `quot` 2) in *.
  destruct (read_lt edges bin) as [e He]; [lia|]. rewrite He. cbn [mbind option_bind].
  destruct (fle e x) eqn:Hex.
  - rewrite cint_Some; [|unfold INT_MIN, INT_MAX; lia]. cbn [mbind option_bind].
    destruct (read_lt edges (bin + 1)) as [e1 He1]; [lia|]. rewrite He1.
    cbn [mbind option_bind].
    destruct (flt x e1) eqn:Hx1.
    { exists bin. split; [done|]. split; [lia|]. exists e, e1. auto. }
    destruct (read_lt edges n) as [en Hen]; [lia|]. rewrite Hen.
    cbn [mbind option_bind].
    destruct (fle x en && (bin =? n - 1)) eqn:Hclosed.
    { apply andb_prop in Hclosed as [Hxn Hb%Z.eqb_eq].
      exists bin. split; [done|]. split; [lia|]. exists e, e1.
      repeat split; auto. right. split; [done|].
      replace (bin + 1) with n in He1 by lia. by simplify_eq. }
    assert (Hbl : bin < last).
    { destruct (decide (bin = last)) as [Heq|]; [|lia]. exfalso.
      destruct Hhi as [[Hl (en' & Hen' & Hxn)]|(e' & He' & Hxe')].
      - simplify_eq. rewrite Hxn in Hclosed.
        rewrite (proj2 (Z.eqb_eq _ _)) in Hclosed; [done|lia].
      - rewrite Heq in He1. simplify_eq. congruence. }
    destruct (IH (bin + 1) last (Some bin)) as (r & Hr & Hrb & Hloc);
      [lia|lia|lia| |done|].
    { exists e1. split; [done|]. apply fnum_flt_false; [done| |done].
      by eapply edges_fnum. }
    exists r. split; [done|]. split; [lia|done].
  - rewrite cint_Some; [|unfold INT_MIN, INT_MAX; lia]. cbn [mbind option_bind].
    assert (Hfb : first < bin).
    { destruct (decide (bin = first)) as [Heq|]; [|lia]. exfalso.
      destruct Hlo as (e' & He' & Hle'). rewrite Heq in He. simplify_eq.
      congruence. }
    destruct (IH first (bin - 1) (Some bin)) as (r & Hr & Hrb & Hloc);
      [lia|lia|lia|done| |].
    { right. exists e. replace (bin - 1 + 1) with bin by lia. split; [done|].
      apply fnum_fle_false; [|done|done]. by eapply edges_fnum. }
    exists r. split; [done|]. split; [lia|done].
Qed.

(** [GetBin] on a value of the range. *)
Lemma GetBin_in_range (x : F) (n : Z) (edges : list F) :
  edges_of n edges → n ≤ MAX_BINS → in_range x n edges = true →
  ∃ bin, GetBin x n edges = Some bin ∧ 0 ≤ bin < n ∧ located x n edges bin.
Proof.
  intros Hedges Hmax Hin. pose proof Hedges as (Hn & Hlen & Hinc).
  unfold in_range in Hin.
  destruct (read edges 0) as [e0|] eqn:He0; [|done].
  destruct (read edges n) as [en|] eqn:Hen; [|done].
  apply andb_prop in Hin as [H0x Hxn].
  unfold GetBin. unfold MAX_BINS in Hmax.
  rewrite cint_Some; [|unfold INT_MIN, INT_MAX; lia]. cbn [mbind option_bind].
  destruct (GetBin_loop_located x n edges Hedges Hmax (fle_num_r _ _ H0x)
              (Z.to_nat n) 0 (n - 1) None) as (bin & Hb & Hrange & Hloc);
    [lia|lia|lia|eauto|eauto|].
  exists bin. split; [done|]. split; [lia|done].
Qed.

(** A value has at most one bin. *)
Lemma located_unique (x : F) (n : Z) (edges : list F) (b1 b2 : Z) :
  edges_of n edges → located x n edges b1 → located x n edges b2 → b1 = b2.
Proof.
  intros (Hn & Hlen & Hinc).
  assert (Hhalf : ∀ a b, located x n edges a → located x n edges b → a ≤ b).
  { intros a b (ea & ea1 & Hea & Hea1 & Hax & Hxa) (eb & eb1 & Heb & Heb1 & Hbx & Hxb).
    destruct (decide (a ≤ b)) as [|Hgt]; [done|]. exfalso.
    apply read_Some in Hea as [Ha0 Hea]. apply read_Some in Heb1 as [Hb0 Heb1].
    apply read_bound in Hea1.
    (* edges[b+1] <= edges[a] <= x, against x < edges[b+1] or b = n-1 *)
    assert (Hle : fle eb1 ea = true).
    { eapply (strictly_increasing_le edges (Z.to_nat (b + 1)) (Z.to_nat a));
        eauto; lia. }
    destruct Hxb as [Hlt|[Hbn _]]; [|lia].
    apply flt_not_fle in Hlt.
    by rewrite (fle_trans _ _ _ Hle Hax) in Hlt. }
  intros H1 H2. apply Z.le_antisymm; auto.
Qed.
End GetBin_proofs.

(** * The kernel, thread by thread *)

Section Hist2D_proofs.
Context `{FOrder F}.

Lemma sc_and_in_range (x : F) (n : Z) (edges : list F) (rest : option bool) :
  edges_of n edges →
  sc_and (e ← read edges 0; Some (fle e x))
    (sc_and (e ← read edges n; Some (fle x e)) rest)
  = if in_range x n edges then rest else Some false.
Proof.
  intros (Hn & Hlen & _). unfold in_range.
  destruct (read_lt edges 0) as [e0 ->]; [lia|].
  destruct (read_lt edges n) as [en ->]; [lia|].
  cbn. by destruct (fle e0 x), (fle x en).
Qed.

Lemma bin_index_Some nx ny (ex ey : list F) (x y : F) :
  edges_of nx ex → edges_of ny ey → bins_fit nx ny →
  in_range x nx ex = true → in_range y ny ey = true →
  ∃ bx by', GetBin x nx ex = Some bx ∧ GetBin y ny ey = Some by' ∧
    0 ≤ bx < nx ∧ 0 ≤ by' < ny ∧
    bin_index nx ny ex ey x y = Some (by' + bx * ny).
Proof.
  intros Hex Hey (Hfx & Hfy & _) Hx Hy.
  destruct (GetBin_in_range x nx ex Hex Hfx Hx) as (bx & Hbx & Hrx & _).
  destruct (GetBin_in_range y ny ey Hey Hfy Hy) as (by' & Hby & Hry & _).
  exists bx, by'. unfold bin_index. rewrite Hx, Hy, Hbx, Hby. auto.
Qed.

Lemma bin_index_range nx ny (ex ey : list F) (x y : F) (i : Z) :
  edges_of nx ex → edges_of ny ey → bins_fit nx ny →
  bin_index nx ny ex ey x y = Some i → 0 ≤ i < nx * ny.
Proof.
  intros Hex Hey Hfit Hi.
  destruct (in_range x nx ex) eqn:Hx; [|by unfold bin_index in Hi; rewrite Hx in Hi].
  destruct (in_range y ny ey) eqn:Hy;
    [|by unfold bin_index in Hi; rewrite Hx, Hy in Hi].
  destruct (bin_index_Some nx ny ex ey x y) as (bx & by' & _ & _ & Hrx & Hry & Hidx);
    auto.
  rewrite Hidx in Hi. simplify_eq. nia.
Qed.

(** A thread whose index is not below [n_evts] does nothing. *)
Lemma Hist2D_idle (mem : device F) a tid bdim bid :
  arg_n_evts a ≤ thread_idx tid bdim bid → Hist2D mem a tid bdim bid = Some [].
Proof.
  intros Hge. unfold Hist2D.
  by rewrite (proj2 (Z.ltb_ge _ _)).
Qed.

(** A thread whose index is that of an event performs the atomic add of
    the event, or nothing when the event is out of range. *)
Lemma Hist2D_event (mem : device F) a X Y W ex ey tid bdim bid x y w :
  Hist2D_ok mem a X Y W ex ey →
  bins_fit (arg_n_bins_x a) (arg_n_bins_y a) →
  let idx := thread_idx tid bdim bid in
  idx < arg_n_evts a →
  read X idx = Some x → read Y idx = Some y → read W idx = Some w →
  Hist2D mem a tid bdim bid =
    Some (match bin_index (arg_n_bins_x a) (arg_n_bins_y a) ex ey x y with
          | Some i => [AtomicAdd (arg_hist a) i w]
          | None => []
          end).
Proof.
  intros [] Hfit idx Hlt Hx Hy Hw. unfold Hist2D. fold idx.
  rewrite (proj2 (Z.ltb_lt _ _)); [|done].
  rewrite ok_X0, ok_Y0, ok_W0, ok_bin_edges_x0, ok_bin_edges_y0.
  cbn [mbind option_bind]. rewrite Hx, Hy. cbn [mbind option_bind].
  rewrite sc_and_in_range; [|done].
  destruct (in_range x (arg_n_bins_x a) ex) eqn:Hrx;
    [|by unfold bin_index; rewrite Hrx].
  pose proof ok_edges_y0 as (Hn & Hlen & _).
  assert (Hyr : sc_and (e ← read ey 0; Some (fle e y))
                  (e ← read ey (arg_n_bins_y a); Some (fle y e))
                = Some (in_range y (arg_n_bins_y a) ey)).
  { unfold in_range.
    destruct (read_lt ey 0) as [e0 ->]; [lia|].
    destruct (read_lt ey (arg_n_bins_y a)) as [en ->]; [lia|].
    cbn. by destruct (fle e0 y). }
  rewrite Hyr. cbn [mbind option_bind].
  destruct (in_range y (arg_n_bins_y a) ey) eqn:Hry;
    [|by unfold bin_index; rewrite Hrx, Hry].
  destruct (bin_index_Some (arg_n_bins_x a) (arg_n_bins_y a) ex ey x y)
    as (bx & by' & Hbx & Hby & Hbxr & Hbyr & Hidx); auto.
  rewrite Hidx, Hbx, Hby. cbn [mbind option_bind].
  destruct Hfit as (_ & _ & Htot).
  rewrite cint_Some; [|unfold INT_MIN, INT_MAX; nia]. cbn [mbind option_bind].
  rewrite cint_Some; [|unfold INT_MIN, INT_MAX; nia]. cbn [mbind option_bind].
  by rewrite Hw.
Qed.
End Hist2D_proofs.

(** * Launches *)

Lemma foldl_lookup_seq {A B} (f : B → A → B) (l : list A) (m k : nat) (b : B) :
  foldl (λ acc i, from_option (f acc) acc (l !! i)) b (seq k m)
  = foldl f b (take m (drop k l)).
Proof.
  revert k b. induction m as [|m IH]; intros k b; [done|].
  cbn [seq foldl]. rewrite IH.
  destruct (l !! k) as [x|] eqn:Hk.
  - by rewrite (drop_S l x k Hk).
  - apply lookup_ge_None in Hk.
    rewrite !drop_ge by lia. by rewrite take_nil.
Qed.

Lemma foldl_pointwise {A B} (f g : B → A → B) (l : list A) (b : B) :
  (∀ acc x, f acc x = g acc x) → foldl f b l = foldl g b l.
Proof.
  intros Hfg. revert b. induction l as [|x l IH]; intros b; [done|].
  cbn. by rewrite Hfg, IH.
Qed.

Lemma foldl_lookup_seqZ {A B} (f : B → A → B) (l : list A) (N : Z) (b : B) :
  Z.of_nat (length l) ≤ N →
  foldl (λ acc i, from_option (f acc) acc (l !! Z.to_nat i)) b (seqZ 0 N)
  = foldl f b l.
Proof.
  intros HN. unfold seqZ. rewrite foldl_fmap.
  rewrite (foldl_pointwise _ (λ acc i, from_option (f acc) acc (l !! i))).
  - rewrite foldl_lookup_seq, drop_0. by rewrite take_ge by lia.
  - intros acc i. by rewrite Z.add_0_r, Nat2Z.id.
Qed.

Section Launch_proofs.
Context `{FOrder F}.

Lemma events_lookup (X Y W : list F) (n idx : Z) ev :
  0 ≤ idx →
  events X Y W n !! Z.to_nat idx = Some ev ↔
  idx < n ∧ read X idx = Some ev.1.1 ∧ read Y idx = Some ev.1.2 ∧
  read W idx = Some ev.2.
Proof.
  intros Hidx. unfold events. rewrite lookup_take_Some, !lookup_zip_with_Some.
  rewrite !read_Some. destruct ev as [[x y] w]. cbn. split.
  - intros [((x' & y') & w' & Heq & (? & ? & ? & ? & ?)%lookup_zip_with_Some & ?) ?].
    simplify_eq. repeat split; auto; lia.
  - intros (? & (_ & ?) & (_ & ?) & (_ & ?)). split; [|lia].
    exists (x, y), w. repeat split; auto.
    apply lookup_zip_with_Some. eauto.
Qed.

Lemma events_lookup_ge (X Y W : list F) (n idx : Z) :
  n ≤ idx → events X Y W n !! Z.to_nat idx = None.
Proof.
  intros Hge. unfold events. apply lookup_ge_None.
  rewrite length_take. lia.
Qed.

Lemma add_to_bin_insert (h : list F) (i : Z) (old w : F) :
  read h i = Some old → <[Z.to_nat i := fadd old w]> h = add_to_bin h i w.
Proof.
  intros [_ Hold]%read_Some. unfold add_to_bin.
  apply list_eq. intros j.
  destruct (decide (j = Z.to_nat i)) as [->|Hne].
  - rewrite list_lookup_insert_eq by (by eapply lookup_lt_Some).
    by rewrite list_lookup_alter_eq, Hold.
  - by rewrite list_lookup_insert_ne, list_lookup_alter_ne.
Qed.

Lemma length_add_event nx ny (ex ey h : list F) ev :
  length (add_event nx ny ex ey h ev) = length h.
Proof.
  unfold add_event, add_to_bin. destruct (bin_index _ _ _ _ _ _); [|done].
  apply length_alter.
Qed.

Lemma length_thread_effect a (X Y W ex ey h : list F) idx :
  length (thread_effect a X Y W ex ey h idx) = length h.
Proof.
  unfold thread_effect. destruct (events _ _ _ _ !! _); [|done].
  apply length_add_event.
Qed.

Lemma Hist2D_ok_insert (mem : device F) a X Y W ex ey h h' :
  Hist2D_ok mem a X Y W ex ey → hist_ok mem a h →
  Hist2D_ok (<[arg_hist a := h']> mem) a X Y W ex ey.
Proof.
  intros [] []. split; try done; by rewrite list_lookup_insert_ne.
Qed.

Lemma hist_ok_insert (mem : device F) a h h' :
  hist_ok mem a h → length h' = length h →
  hist_ok (<[arg_hist a := h']> mem) a h'.
Proof.
  intros [] Hlen. split; try done; [|by rewrite Hlen].
  apply list_lookup_insert_eq. by eapply lookup_lt_Some.
Qed.

(** One thread, as a function on the histogram buffer. *)
Lemma run_thread_spec (mem : device F) a X Y W ex ey h bdim bid tid :
  Hist2D_ok mem a X Y W ex ey → hist_ok mem a h →
  bins_fit (arg_n_bins_x a) (arg_n_bins_y a) →
  0 ≤ thread_idx tid bdim bid →
  run_thread a bdim mem (bid, tid)
  = Some (<[arg_hist a := thread_effect a X Y W ex ey h (thread_idx tid bdim bid)]> mem).
Proof.
  intros Hok Hh Hfit Hidx. unfold run_thread, thread_effect. cbn [fst snd].
  set (idx := thread_idx tid bdim bid) in *.
  destruct (decide (idx < arg_n_evts a)) as [Hlt|Hge].
  - destruct (read_lt X idx) as [x Hx]; [pose proof (ok_len_X _ _ _ _ _ _ _ Hok); lia|].
    destruct (read_lt Y idx) as [y Hy]; [pose proof (ok_len_Y _ _ _ _ _ _ _ Hok); lia|].
    destruct (read_lt W idx) as [w Hw]; [pose proof (ok_len_W _ _ _ _ _ _ _ Hok); lia|].
    rewrite (Hist2D_event mem a X Y W ex ey tid bdim bid x y w); auto.
    assert (Hev : events X Y W (arg_n_evts a) !! Z.to_nat idx = Some (x, y, w))
      by (by apply events_lookup).
    rewrite Hev. cbn [from_option mbind option_bind]. unfold add_event. cbn [fst snd].
    destruct (bin_index _ _ _ _ _ _) as [i|] eqn:Hi.
    + apply bin_index_range in Hi;
        [|by eapply ok_edges_x|by eapply ok_edges_y|done].
      destruct Hh. cbn. rewrite ok_hist0. cbn.
      destruct (read_lt h i) as [old Hold]; [lia|]. rewrite Hold. cbn.
      by rewrite (add_to_bin_insert h i old w).
    + cbn. destruct Hh. by rewrite list_insert_id.
  - rewrite Hist2D_idle by lia. rewrite events_lookup_ge by lia. cbn.
    destruct Hh. by rewrite list_insert_id.
Qed.

(** A schedule whose thread indices are not negative, as a function on the
    histogram buffer. *)
Lemma run_schedule_spec a X Y W ex ey bdim (sch : list (Z * Z)) :
  bins_fit (arg_n_bins_x a) (arg_n_bins_y a) →
  Forall (λ w, 0 ≤ thread_idx w.2 bdim w.1) sch →
  ∀ (mem : device F) h,
    Hist2D_ok mem a X Y W ex ey → hist_ok mem a h →
    run_schedule a bdim sch mem
    = Some (<[arg_hist a :=
               foldl (thread_effect a X Y W ex ey) h
                 ((λ w, thread_idx w.2 bdim w.1) <$> sch)]> mem).
Proof.
  intros Hfit. unfold run_schedule.
  induction 1 as [|[bid tid] sch Hidx Hsch IH]; intros mem h Hok Hh.
  - cbn. destruct Hh. by rewrite list_insert_id.
  - cbn [foldl fmap list_fmap]. cbn [mbind option_bind].
    rewrite (run_thread_spec mem a X Y W ex ey h); auto.
    cbn [fst snd] in *.
    set (h' := thread_effect a X Y W ex ey h (thread_idx tid bdim bid)).
    rewrite (IH _ h').
    + by rewrite list_insert_insert_eq.
    + by apply (Hist2D_ok_insert mem a X Y W ex ey h).
    + apply (hist_ok_insert mem a h h'); [done|]. apply length_thread_effect.
Qed.
End Launch_proofs.

Section Grid_proofs.
Context `{FType F}.

Lemma thread_idx_small (tid bdim bid : Z) :
  0 ≤ tid + bdim * bid < 2 ^ 31 → thread_idx tid bdim bid = tid + bdim * bid.
Proof.
  intros Hr. unfold thread_idx, uint_wrap, int_of_uint, INT_MAX.
  rewrite Z.mod_small by lia.
  by rewrite (proj2 (Z.leb_le _ _)) by lia.
Qed.

(** Without overflow the threads of a grid carry the indices
    [0 .. bdim * gdim - 1], in the order of [workers]. *)
Lemma workers_idx (bdim : Z) (g : nat) :
  0 ≤ bdim → bdim * Z.of_nat g ≤ 2 ^ 31 →
  (λ w : Z * Z, thread_idx w.2 bdim w.1) <$> workers bdim (Z.of_nat g)
  = seqZ 0 (bdim * Z.of_nat g).
Proof.
  intros Hb. unfold workers. induction g as [|g IH]; intros Hg.
  - by rewrite Z.mul_0_r.
  - rewrite seqZ_S, bind_app, fmap_app, IH by lia.
    replace (bdim * Z.of_nat (S g)) with (bdim * Z.of_nat g + bdim) by lia.
    rewrite seqZ_app by lia. f_equal.
    rewrite bind_singleton, <- list_fmap_compose.
    rewrite !Z.add_0_l.
    replace (seqZ (bdim * Z.of_nat g) bdim)
      with (Z.add (bdim * Z.of_nat g) <$> seqZ 0 bdim)
      by (by rewrite fmap_add_seqZ, Z.add_0_r).
    apply list_fmap_ext. intros i t [-> Ht]%lookup_seqZ. cbn.
    rewrite thread_idx_small by nia. lia.
Qed.

Lemma workers_elem (bdim gdim bid tid : Z) :
  (bid, tid) ∈ workers bdim gdim ↔ 0 ≤ bid < gdim ∧ 0 ≤ tid < bdim.
Proof.
  unfold workers. rewrite list_elem_of_bind. split.
  - intros (b & (t & ? & Ht%elem_of_seqZ)%list_elem_of_fmap & Hb%elem_of_seqZ).
    simplify_eq. lia.
  - intros [Hb Ht]. exists bid. split.
    + apply list_elem_of_fmap. exists tid. split; [done|]. apply elem_of_seqZ. lia.
    + apply elem_of_seqZ. lia.
Qed.
End Grid_proofs.

Section Accumulate_proofs.
Context `{!FType F, !FOrder F}.

(** A launch that covers the events without overflow of the thread index
    performs the events in order. *)
Lemma launch_Hist2D_spec (mem : device F) a X Y W ex ey h bdim gdim :
  Hist2D_ok mem a X Y W ex ey → hist_ok mem a h →
  bins_fit (arg_n_bins_x a) (arg_n_bins_y a) →
  1 ≤ bdim ≤ 1024 → 1 ≤ gdim ≤ INT_MAX →
  arg_n_evts a ≤ bdim * gdim ≤ 2 ^ 31 →
  launch_Hist2D a bdim gdim mem
  = Some (<[arg_hist a :=
             foldl (add_event (arg_n_bins_x a) (arg_n_bins_y a) ex ey) h
               (events X Y W (arg_n_evts a))]> mem).
Proof.
  intros Hok Hh Hfit Hb Hg Hn. unfold launch_Hist2D.
  rewrite !(proj2 (Z.leb_le _ _)) by lia. cbn [andb].
  assert (Hidx : (λ w : Z * Z, thread_idx w.2 bdim w.1) <$> workers bdim gdim
                 = seqZ 0 (bdim * gdim)).
  { rewrite <- (Z2Nat.id gdim) by lia. apply workers_idx; lia. }
  rewrite (run_schedule_spec a X Y W ex ey bdim _ Hfit) with (h := h);
    [|clear Hidx|done|done].
  - rewrite Hidx. unfold thread_effect.
    rewrite (foldl_lookup_seqZ (add_event _ _ ex ey)); [done|].
    unfold events. rewrite length_take. lia.
  - apply Forall_forall. intros [bid tid] Hw.
    apply workers_elem in Hw. cbn. rewrite thread_idx_small; nia.
Qed.
End Accumulate_proofs.

(** * Sums of histograms *)

Section Sum_proofs.
Context `{!FType F, !FOrder F, !FExact F}.

Lemma fsum_zeros (n : nat) : fsum (zeros n) = fzero.
Proof.
  unfold fsum, zeros. induction n as [|n IH]; [done|].
  cbn. by rewrite IH, fadd_0_l.
Qed.

Lemma fsum_alter (h : list F) (k : nat) (w : F) :
  (k < length h)%nat →
  fsum (alter (λ old, fadd old w) k h) = fadd (fsum h) w.
Proof.
  unfold fsum. revert k. induction h as [|a h IH]; intros k Hk; [cbn in Hk; lia|].
  destruct k as [|k]; cbn.
  - by rewrite <- !fadd_assoc, (fadd_comm w).
  - cbn in Hk. rewrite IH by lia. apply fadd_assoc.
Qed.

Lemma fsum_add_to_bin (h : list F) (i : Z) (w : F) :
  0 ≤ i < Z.of_nat (length h) → fsum (add_to_bin h i w) = fadd (fsum h) w.
Proof. intros Hi. apply fsum_alter. lia. Qed.

Lemma add_event_out_of_range nx ny (ex ey h : list F) ev :
  event_in_range nx ny ex ey ev = false → add_event nx ny ex ey h ev = h.
Proof.
  unfold event_in_range, add_event, bin_index. by intros ->.
Qed.

(** Events out of range can be left out of an accumulation. *)
Lemma foldl_add_event_filter nx ny (ex ey : list F) evs h :
  foldl (add_event nx ny ex ey) h evs
  = foldl (add_event nx ny ex ey) h (filter (λ ev, event_in_range nx ny ex ey ev) evs).
Proof.
  revert h. induction evs as [|ev evs IH]; intros h; [done|].
  cbn [foldl]. rewrite filter_cons.
  destruct (decide (event_in_range nx ny ex ey ev)) as [Hin|Hout].
  - cbn [foldl]. apply IH.
  - rewrite add_event_out_of_range; [apply IH|].
    by destruct (event_in_range nx ny ex ey ev).
Qed.

(** Conservation of weight. *)
Lemma fsum_foldl_add_event nx ny (ex ey : list F) evs h :
  edges_of nx ex → edges_of ny ey → bins_fit nx ny →
  Z.of_nat (length h) = nx * ny →
  fsum (foldl (add_event nx ny ex ey) h evs)
  = fadd (fsum h)
      (fsum (snd <$> filter (λ ev, event_in_range nx ny ex ey ev) evs)).
Proof.
  intros Hex Hey Hfit. revert h.
  induction evs as [|ev evs IH]; intros h Hlen.
  - cbn. by rewrite fadd_comm, fadd_0_l.
  - cbn [foldl]. rewrite filter_cons.
    destruct (decide (event_in_range nx ny ex ey ev)) as [Hin|Hout].
    + rewrite IH by (by rewrite length_add_event).
      unfold add_event.
      destruct (bin_index nx ny ex ey ev.1.1 ev.1.2) as [i|] eqn:Hi.
      * rewrite fsum_add_to_bin.
        { cbn. by rewrite fadd_assoc. }
        apply bin_index_range in Hi; auto. lia.
      * apply Is_true_true, andb_prop in Hin as [Hx Hy].
        destruct (bin_index_Some nx ny ex ey ev.1.1 ev.1.2)
          as (bx & by' & _ & _ & _ & _ & Hidx); auto.
        congruence.
    + rewrite add_event_out_of_range; [by apply IH|].
      by destruct (event_in_range nx ny ex ey ev).
Qed.
End Sum_proofs.

(** * The claims about the bin search *)

Section Boundary.
Context `{FOrder F}.

Lemma edge_in_range (n : Z) (edges : list F) (k : Z) (e : F) :
  edges_of n edges → read edges k = Some e → in_range e n edges = true.
Proof.
  intros (Hn & Hlen & Hinc) He. pose proof (read_bound _ _ _ He) as Hk.
  unfold in_range.
  destruct (read_lt edges 0) as [e0 He0]; [lia|].
  destruct (read_lt edges n) as [en Hen]; [lia|].
  rewrite He0, Hen.
  apply read_Some in He as [_ He], He0 as [_ He0], Hen as [_ Hen].
  apply andb_true_intro. split.
  - apply (strictly_increasing_le edges (Z.to_nat 0) (Z.to_nat k)); auto; lia.
  - apply (strictly_increasing_le edges (Z.to_nat k) (Z.to_nat n)); auto; lia.
Qed.

Lemma located_edge (n : Z) (edges : list F) (k : Z) (e : F) :
  edges_of n edges → 0 ≤ k < n → read edges k = Some e → located e n edges k.
Proof.
  intros Hedges Hk He. pose proof Hedges as (Hn & Hlen & Hinc).
  destruct (read_lt edges (k + 1)) as [e1 He1]; [lia|].
  exists e, e1. repeat split; auto.
  - by eapply edges_fnum.
  - left. apply read_Some in He as [_ He], He1 as [_ He1].
    apply (Hinc (Z.to_nat k)); [done|].
    by replace (S (Z.to_nat k)) with (Z.to_nat (k + 1)) by lia.
Qed.

Lemma located_last_edge (n : Z) (edges : list F) (e : F) :
  edges_of n edges → read edges n = Some e → located e n edges (n - 1).
Proof.
  intros Hedges He. pose proof Hedges as (Hn & Hlen & Hinc).
  destruct (read_lt edges (n - 1)) as [e0 He0]; [lia|].
  exists e0, e. replace (n - 1 + 1) with n by lia. repeat split; auto.
  - apply read_Some in He as [_ He], He0 as [_ He0].
    apply (strictly_increasing_le edges (Z.to_nat (n - 1)) (Z.to_nat n)); auto; lia.
  - right. split; [done|]. by eapply edges_fnum.
Qed.
End Boundary.

(** C2 — boundary law.  For strictly increasing edges of [n] bins (with
    [n] within [MAX_BINS], so that the midpoint is an [int]), a coordinate
    equal to the last edge passes the range test of the kernel and [GetBin]
    places it in bin [n - 1]; a coordinate equal to the edge [k < n] is
    placed in bin [k]; and every coordinate of the range is placed in the
    bin whose lower edge is not above it and whose upper edge is above it,
    the last bin taking its upper edge too. *)
Theorem GetBin_boundary_law `{FOrder F} (n : Z) (edges : list F) :
  edges_of n edges → n ≤ MAX_BINS →
  (∀ e, read edges n = Some e →
     in_range e n edges = true ∧ GetBin e n edges = Some (n - 1)) ∧
  (∀ k e, 0 ≤ k < n → read edges k = Some e →
     in_range e n edges = true ∧ GetBin e n edges = Some k) ∧
  (∀ x, in_range x n edges = true →
     ∃ bin, GetBin x n edges = Some bin ∧ located x n edges bin).
Proof.
  intros Hedges Hmax. split; [|split].
  - intros e He. pose proof (edge_in_range n edges n e Hedges He) as Hin.
    split; [done|].
    destruct (GetBin_in_range e n edges Hedges Hmax Hin) as (bin & -> & _ & Hloc).
    f_equal. eapply located_unique; eauto using located_last_edge.
  - intros k e Hk He. pose proof (edge_in_range n edges k e Hedges He) as Hin.
    split; [done|].
    destruct (GetBin_in_range e n edges Hedges Hmax Hin) as (bin & -> & _ & Hloc).
    f_equal. eapply located_unique; eauto using located_edge.
  - intros x Hin.
    destruct (GetBin_in_range x n edges Hedges Hmax Hin) as (bin & Hb & _ & Hloc).
    eauto.
Qed.

Lemma GetBin_boundary_law_witness :
  edges_of 3 [0; 1; 2; 3] ∧ 3 ≤ MAX_BINS ∧
  ((∀ e, read [0; 1; 2; 3] 3 = Some e →
      in_range e 3 [0; 1; 2; 3] = true ∧ GetBin e 3 [0; 1; 2; 3] = Some (3 - 1)) ∧
   (∀ k e, 0 ≤ k < 3 → read [0; 1; 2; 3] k = Some e →
      in_range e 3 [0; 1; 2; 3] = true ∧ GetBin e 3 [0; 1; 2; 3] = Some k) ∧
   (∀ x, in_range x 3 [0; 1; 2; 3] = true →
      ∃ bin, GetBin x 3 [0; 1; 2; 3] = Some bin ∧ located x 3 [0; 1; 2; 3] bin)).
Proof.
  assert (He : edges_of 3 [0; 1; 2; 3]).
  { split; [lia|]. split; [reflexivity|].
    apply strictly_increasingb_sound. reflexivity. }
  assert (Hm : 3 ≤ MAX_BINS) by (unfold MAX_BINS; lia).
  split; [exact He|]. split; [exact Hm|].
  exact (GetBin_boundary_law 3 [0; 1; 2; 3] He Hm).
Defined.

(** C4 — totality of the search, and exclusion of what is out of range.
    For strictly increasing edges of [n] bins ([1 ≤ n ≤ MAX_BINS]) and a
    coordinate within [edges[0], edges[n]], [GetBin] finishes and returns a
    bin of [0 .. n - 1].  In a launch of [Hist2D], the thread of an event
    that is out of range in a dimension (a NaN coordinate included) performs
    no write: it adds to no bin, and it does not fail. *)
Theorem GetBin_total_and_exclusion `{FOrder F}
    (n : Z) (edges : list F) (v : F)
    (mem : device F) (a : Hist2D_args) (X Y W ex ey : list F)
    (tid bdim bid : Z) (x y w : F) :
  edges_of n edges → n ≤ MAX_BINS →
  Hist2D_ok mem a X Y W ex ey →
  bins_fit (arg_n_bins_x a) (arg_n_bins_y a) →
  thread_idx tid bdim bid < arg_n_evts a →
  read X (thread_idx tid bdim bid) = Some x →
  read Y (thread_idx tid bdim bid) = Some y →
  read W (thread_idx tid bdim bid) = Some w →
  (in_range v n edges = true →
     ∃ bin, GetBin v n edges = Some bin ∧ 0 ≤ bin < n) ∧
  (in_range x (arg_n_bins_x a) ex = false ∨ in_range y (arg_n_bins_y a) ey = false →
     Hist2D mem a tid bdim bid = Some []).
Proof.
  intros Hedges Hmax Hok Hfit Hlt Hx Hy Hw. split.
  - intros Hin.
    destruct (GetBin_in_range v n edges Hedges Hmax Hin) as (bin & Hb & Hr & _).
    eauto.
  - intros Hout.
    rewrite (Hist2D_event mem a X Y W ex ey tid bdim bid x y w); auto.
    unfold bin_index. by destruct Hout as [-> | ->]; rewrite ?andb_false_r.
Qed.

Lemma demo_edges_of : edges_of 3 demo_edges.
Proof.
  split; [lia|]. split; [reflexivity|].
  apply strictly_increasingb_sound. reflexivity.
Qed.

Lemma demo_Hist2D_ok :
  Hist2D_ok demo_mem demo_args demo_X demo_Y demo_W demo_edges demo_edges.
Proof.
  split; try reflexivity; try (cbn; lia); apply demo_edges_of.
Qed.

Lemma demo_hist_ok : hist_ok demo_mem demo_args (zeros 9).
Proof. split; try reflexivity; cbn; lia. Qed.

Lemma demo_bins_fit : bins_fit 3 3.
Proof. unfold bins_fit. lia. Qed.

Lemma GetBin_total_and_exclusion_witness :
  (in_range 2 3 demo_edges = true →
     ∃ bin, GetBin 2 3 demo_edges = Some bin ∧ 0 ≤ bin < 3) ∧
  (in_range (-1) 3 demo_edges = false ∨ in_range 0 3 demo_edges = false →
     Hist2D demo_mem demo_args 0 256 0 = Some []).
Proof.
  apply (GetBin_total_and_exclusion 3 demo_edges 2 demo_mem demo_args
           demo_X demo_Y demo_W demo_edges demo_edges 0 256 0 (-1) 0 5).
  - apply demo_edges_of.
  - unfold MAX_BINS. lia.
  - apply demo_Hist2D_ok.
  - apply demo_bins_fit.
  - vm_compute. reflexivity.
  - reflexivity.
  - reflexivity.
  - reflexivity.
Defined.

(** C3 — conservation of weight.  A launch of [Hist2D] on a zeroed
    histogram, with a grid that covers the events, completes; the histogram
    it leaves is the accumulation of the in-range events alone (an event out
    of range in a dimension adds to no bin), and, in exact arithmetic, the
    sum of its bins is the sum of the weights of the in-range events. *)
Theorem Hist2D_total_mass `{!FType F, !FOrder F, !FExact F}
    (mem : device F) (a : Hist2D_args) (X Y W ex ey : list F) (bdim gdim : Z) :
  let nx := arg_n_bins_x a in
  let ny := arg_n_bins_y a in
  let in_range_events :=
    filter (λ ev, event_in_range nx ny ex ey ev) (events X Y W (arg_n_evts a)) in
  Hist2D_ok mem a X Y W ex ey →
  hist_ok mem a (zeros (Z.to_nat (nx * ny))) →
  bins_fit nx ny →
  1 ≤ bdim ≤ 1024 → 1 ≤ gdim ≤ INT_MAX →
  arg_n_evts a ≤ bdim * gdim ≤ 2 ^ 31 →
  ∃ h, launch_Hist2D a bdim gdim mem = Some (<[arg_hist a := h]> mem) ∧
       h = foldl (add_event nx ny ex ey) (zeros (Z.to_nat (nx * ny))) in_range_events ∧
       fsum h = fsum (snd <$> in_range_events).
Proof.
  intros nx ny evs Hok Hh Hfit Hb Hg Hn.
  eexists. split; [by eapply launch_Hist2D_spec|].
  split; [apply foldl_add_event_filter|].
  rewrite fsum_foldl_add_event.
  - by rewrite fsum_zeros, fadd_0_l.
  - by eapply ok_edges_x.
  - by eapply ok_edges_y.
  - done.
  - by eapply ok_hist_len.
Qed.

Lemma Hist2D_total_mass_witness :
  ∃ h, launch_Hist2D demo_args 256 1 demo_mem = Some (<[0%nat := h]> demo_mem) ∧
       h = foldl (add_event 3 3 demo_edges demo_edges) (zeros 9)
             (filter (λ ev, event_in_range 3 3 demo_edges demo_edges ev)
                (events demo_X demo_Y demo_W 4)) ∧
       fsum h = fsum (snd <$> filter (λ ev, event_in_range 3 3 demo_edges demo_edges ev)
                                (events demo_X demo_Y demo_W 4)).
Proof.
  apply (Hist2D_total_mass demo_mem demo_args demo_X demo_Y demo_W
           demo_edges demo_edges 256 1).
  - apply demo_Hist2D_ok.
  - apply demo_hist_ok.
  - apply demo_bins_fit.
  - lia.
  - unfold INT_MAX. lia.
  - cbn. lia.
Defined.

Example demo_launch :
  (λ m, m !! 0%nat) <$> launch_Hist2D demo_args 256 1 demo_mem
  = Some (Some [0; 0; 0; 0; 0; 7; 0; 13; 11]).
Proof. vm_compute. reflexivity. Qed.

(** * What a launch writes *)

Lemma foldl_mbind_None {A B} (f : A → B → option A) (l : list B) :
  foldl (λ acc x, m ← acc; f m x) None l = None.
Proof. by induction l. Qed.

Section Frame_proofs.
Context `{FType F}.

Lemma mem_shape_insert (mem : device F) (p : nat) (buf buf' : list F) :
  mem !! p = Some buf → length buf' = length buf →
  mem_shape (<[p := buf']> mem) = mem_shape mem.
Proof.
  intros Hp Hlen. unfold mem_shape. rewrite list_fmap_insert.
  apply list_insert_id. by rewrite list_lookup_fmap, Hp, Hlen.
Qed.

Lemma exec_write_frame (mem mem' : device F) (w : write F) :
  exec_write mem w = Some mem' →
  mem_shape mem' = mem_shape mem ∧ ∀ q, q ≠ write_target w → mem' !! q = mem !! q.
Proof.
  destruct w as [p i v|p src]; cbn [exec_write write_target]; intros Hw.
  - destruct (mem !! p) as [buf|] eqn:Hp; [|done]. cbn in Hw.
    destruct (read buf i) as [old|]; [|done]. cbn in Hw. simplify_eq. split.
    + apply (mem_shape_insert mem p buf); [done|]. apply length_insert.
    + intros q Hq. by rewrite list_lookup_insert_ne.
  - destruct (mem !! p) as [buf|] eqn:Hp; [|done]. cbn in Hw.
    destruct (length src <=? length buf)%nat eqn:Hlen; [|done].
    apply Nat.leb_le in Hlen. simplify_eq. split.
    + apply (mem_shape_insert mem p buf); [done|].
      rewrite length_app, length_drop. lia.
    + intros q Hq. by rewrite list_lookup_insert_ne.
Qed.

Lemma exec_writes_cons (mem : device F) (w : write F) ws :
  exec_writes mem (w :: ws) = exec_write mem w ≫= λ m, exec_writes m ws.
Proof.
  unfold exec_writes. cbn [foldl mbind option_bind].
  destruct (exec_write mem w); [done|]. apply foldl_mbind_None.
Qed.

Lemma exec_writes_frame (p : nat) (ws : list (write F)) :
  Forall (λ w, write_target w = p) ws →
  ∀ mem mem' : device F, exec_writes mem ws = Some mem' →
    mem_shape mem' = mem_shape mem ∧ ∀ q, q ≠ p → mem' !! q = mem !! q.
Proof.
  induction 1 as [|w ws Hw _ IH]; intros mem mem' Hrun.
  - cbn in Hrun. by simplify_eq.
  - rewrite exec_writes_cons in Hrun.
    destruct (exec_write mem w) as [m|] eqn:Hm; [|done]. cbn in Hrun.
    destruct (exec_write_frame _ _ _ Hm) as [Hs Hf].
    destruct (IH _ _ Hrun) as [Hs' Hf']. split; [congruence|].
    intros q Hq. rewrite Hf' by done. apply Hf. congruence.
Qed.

(** Whatever the buffers hold, a thread of [Hist2D] writes nothing, or
    performs one atomic add on the histogram buffer. *)
Lemma Hist2D_writes (mem : device F) a tid bdim bid ws :
  Hist2D mem a tid bdim bid = Some ws →
  Forall (λ w, is_atomic_add w = true ∧ write_target w = arg_hist a) ws.
Proof.
  unfold Hist2D. intros Hws.
  repeat match type of Hws with
  | (if ?c then _ else _) = Some _ => destruct c
  | (?m ≫= _) = Some _ => destruct m; cbn [mbind option_bind] in Hws
  | Some _ = Some _ => injection Hws as <-
  | None = Some _ => discriminate
  end; repeat constructor.
Qed.

Lemma run_schedule_cons a bdim (w : Z * Z) sch (mem : device F) :
  run_schedule a bdim (w :: sch) mem
  = run_thread a bdim mem w ≫= run_schedule a bdim sch.
Proof.
  unfold run_schedule. cbn [foldl mbind option_bind].
  destruct (run_thread a bdim mem w); [done|]. apply foldl_mbind_None.
Qed.

Lemma run_thread_frame a bdim (w : Z * Z) (mem mem' : device F) :
  run_thread a bdim mem w = Some mem' →
  mem_shape mem' = mem_shape mem ∧ ∀ q, q ≠ arg_hist a → mem' !! q = mem !! q.
Proof.
  unfold run_thread. intros Hrun.
  destruct (Hist2D mem a w.2 bdim w.1) as [ws|] eqn:Hws; [|done].
  cbn in Hrun. apply Hist2D_writes in Hws.
  eapply exec_writes_frame; [|done].
  eapply Forall_impl; [done|]. by intros ? [_ ?].
Qed.

Lemma run_schedule_frame a bdim sch :
  ∀ mem mem' : device F, run_schedule a bdim sch mem = Some mem' →
    mem_shape mem' = mem_shape mem ∧ ∀ q, q ≠ arg_hist a → mem' !! q = mem !! q.
Proof.
  induction sch as [|w sch IH]; intros mem mem' Hrun.
  - cbn in Hrun. by simplify_eq.
  - rewrite run_schedule_cons in Hrun.
    destruct (run_thread a bdim mem w) as [m|] eqn:Hm; [|done]. cbn in Hrun.
    destruct (run_thread_frame _ _ _ _ _ Hm) as [Hs Hf].
    destruct (IH _ _ Hrun) as [Hs' Hf']. split; [congruence|].
    intros q Hq. rewrite Hf' by done. by apply Hf.
Qed.

Lemma launch_Hist2D_frame a bdim gdim (mem mem' : device F) :
  launch_Hist2D a bdim gdim mem = Some mem' →
  mem_shape mem' = mem_shape mem ∧ ∀ q, q ≠ arg_hist a → mem' !! q = mem !! q.
Proof.
  unfold launch_Hist2D. destruct (_ && _); [|done]. apply run_schedule_frame.
Qed.

Lemma clear_frame (self self' : GPUhist F) (mem mem' : device F) :
  clear self mem = Some (self', mem') →
  mem_shape mem' = mem_shape mem ∧ (∀ q, q ≠ d_hist2d self → mem' !! q = mem !! q) ∧
  n_bins_x self' = n_bins_x self ∧ n_bins_y self' = n_bins_y self ∧
  d_hist2d self' = d_hist2d self ∧ d_bin_edges_x self' = d_bin_edges_x self ∧
  d_bin_edges_y self' = d_bin_edges_y self.
Proof.
  unfold clear. intros Hc.
  destruct (exec_writes mem (clear_writes self)) as [m|] eqn:Hm; [|done].
  cbn in Hc. simplify_eq. cbn.
  destruct (exec_writes_frame (d_hist2d self) (clear_writes self)) with mem mem'
    as [Hs Hf]; [by repeat constructor|done|]. repeat split; auto.
Qed.

Lemma mem_shape_lookup (mem mem' : device F) (p : nat) :
  mem_shape mem' = mem_shape mem → length <$> mem' !! p = length <$> mem !! p.
Proof. unfold mem_shape. intros Hs. by rewrite <- !list_lookup_fmap, Hs. Qed.
End Frame_proofs.

(** The three stages of a call of [get_hist] that returns. *)
Lemma get_hist_stages `{FType F} (self self' : GPUhist F) (n_evts : Z)
    (d_x d_y d_w : nat) (mem mem' : device F) (r : list (list F)) :
  get_hist self n_evts d_x d_y d_w mem = Some (r, self', mem') →
  ∃ self1 mem1 h,
    clear self mem = Some (self1, mem1) ∧
    launch_Hist2D (get_hist_args self1 n_evts d_x d_y d_w) get_hist_bdim
      (get_hist_gdim n_evts) mem1 = Some mem' ∧
    memcpy_dtoh (hist2d self1) mem' (d_hist2d self1) = Some h ∧
    self' = {| n_bins_x := n_bins_x self1; n_bins_y := n_bins_y self1; hist2d := h;
               d_hist2d := d_hist2d self1; d_bin_edges_x := d_bin_edges_x self1;
               d_bin_edges_y := d_bin_edges_y self1 |}.
Proof.
  unfold get_hist. intros Hg.
  destruct (clear self mem) as [[self1 mem1]|] eqn:Hc; [|done].
  cbn [mbind option_bind] in Hg.
  destruct (launch_Hist2D _ _ _ mem1) as [mem2|] eqn:Hl; [|done].
  cbn [mbind option_bind] in Hg.
  destruct (memcpy_dtoh _ mem2 _) as [h|] eqn:Hd; [|done].
  cbn in Hg. simplify_eq. by exists self1, mem1, h.
Qed.

(** C10 — frame of an accumulation pass.  When [get_hist] returns, the
    device memory has the allocations it had, and every buffer other than
    the histogram buffer of the object (the coordinate buffers, the weight
    buffer and the bin-edge buffers among them) holds what it held before
    the call; the handles and the bin counts of the object are unchanged. *)
Theorem get_hist_frame `{FType F} (self self' : GPUhist F) (n_evts : Z)
    (d_x d_y d_w : nat) (mem mem' : device F) (r : list (list F)) :
  get_hist self n_evts d_x d_y d_w mem = Some (r, self', mem') →
  length mem' = length mem ∧
  (∀ q, q ≠ d_hist2d self → mem' !! q = mem !! q) ∧
  d_hist2d self' = d_hist2d self ∧
  d_bin_edges_x self' = d_bin_edges_x self ∧
  d_bin_edges_y self' = d_bin_edges_y self ∧
  n_bins_x self' = n_bins_x self ∧ n_bins_y self' = n_bins_y self.
Proof.
  intros (self1 & mem1 & h & Hc & Hl & _ & ->)%get_hist_stages.
  destruct (clear_frame _ _ _ _ Hc) as (Hs1 & Hf1 & Hnx & Hny & Hdh & Hdx & Hdy).
  destruct (launch_Hist2D_frame _ _ _ _ _ Hl) as [Hs2 Hf2]. cbn in Hf2.
  split; [|split].
  - unfold mem_shape in *.
    by rewrite <- (length_fmap length mem'), Hs2, Hs1, length_fmap.
  - intros q Hq. rewrite Hf2 by congruence. by apply Hf1.
  - cbn. auto.
Qed.

Lemma get_hist_frame_witness :
  length demo_mem' = length demo_mem ∧
  (∀ q, q ≠ d_hist2d demo_self → demo_mem' !! q = demo_mem !! q) ∧
  d_hist2d demo_self' = d_hist2d demo_self ∧
  d_bin_edges_x demo_self' = d_bin_edges_x demo_self ∧
  d_bin_edges_y demo_self' = d_bin_edges_y demo_self ∧
  n_bins_x demo_self' = n_bins_x demo_self ∧
  n_bins_y demo_self' = n_bins_y demo_self.
Proof.
  apply (get_hist_frame demo_self demo_self' 4 3 4 5 demo_mem demo_mem'
           [[0; 0; 0]; [0; 0; 7]; [0; 13; 11]]).
  vm_compute. reflexivity.
Defined.

(** * Repeated passes *)

Section Reset_proofs.
Context `{FType F}.

(** [clear] leaves the device histogram zeroed, whatever it held. *)
Lemma clear_spec (self : GPUhist F) (mem : device F) :
  let k := Z.to_nat (n_bins_x self * n_bins_y self) in
  length <$> mem !! d_hist2d self = Some k →
  clear self mem
  = Some ({| n_bins_x := n_bins_x self; n_bins_y := n_bins_y self;
             hist2d := zeros k; d_hist2d := d_hist2d self;
             d_bin_edges_x := d_bin_edges_x self;
             d_bin_edges_y := d_bin_edges_y self |},
          <[d_hist2d self := zeros k]> mem).
Proof.
  intros k Hlen. unfold clear, clear_writes, exec_writes. fold k.
  cbn [foldl mbind option_bind exec_write].
  destruct (mem !! d_hist2d self) as [buf|] eqn:Hbuf; [|done].
  cbn in Hlen. injection Hlen as Hlen. cbn [mbind option_bind].
  assert (Hz : length (zeros k) = length buf)
    by (unfold zeros; by rewrite length_replicate).
  rewrite Hz, Nat.leb_refl. cbn [mbind option_bind].
  by rewrite drop_all, app_nil_r.
Qed.

Lemma insert_frame_eq (mem mem' : device F) (p : nat) (buf : list F) :
  length mem' = length mem → (∀ q, q ≠ p → mem' !! q = mem !! q) →
  <[p := buf]> mem' = <[p := buf]> mem.
Proof.
  intros Hlen Hf. apply list_eq. intros q.
  rewrite !list_lookup_insert, Hlen.
  case_decide as Hd; [done|].
  destruct (decide (p = q)) as [->|Hne]; [|apply Hf; congruence].
  rewrite !(proj2 (lookup_ge_None _ _)); [done|lia..].
Qed.
End Reset_proofs.

(** C6 — idempotence.  On an object whose device histogram has the size of
    its binning (as [__init__] allocates it), a call of [get_hist] that
    returns can be repeated with the same arguments on the state it leaves:
    [clear] then finds the histogram of the first pass and zeroes it, and
    the second call returns the same array and leaves the same state; the
    weights are not added a second time. *)
Theorem get_hist_idempotent `{FType F} (self self1 : GPUhist F) (n_evts : Z)
    (d_x d_y d_w : nat) (mem mem1 : device F) (r : list (list F)) :
  let k := Z.to_nat (n_bins_x self * n_bins_y self) in
  length <$> mem !! d_hist2d self = Some k →
  get_hist self n_evts d_x d_y d_w mem = Some (r, self1, mem1) →
  (∃ self_c mem_c, clear self1 mem1 = Some (self_c, mem_c) ∧
     mem_c !! d_hist2d self1 = Some (zeros k)) ∧
  get_hist self1 n_evts d_x d_y d_w mem1 = Some (r, self1, mem1).
Proof.
  intros k Hlen Hg.
  destruct (get_hist_stages _ _ _ _ _ _ _ _ _ Hg)
    as (sc & mc & hc & Hc0 & Hl0 & _ & Hself1).
  destruct (clear_frame _ _ _ _ Hc0) as (Hs1 & Hf1 & Hnx1 & Hny1 & Hdh1 & Hdx1 & Hdy1).
  destruct (launch_Hist2D_frame _ _ _ _ _ Hl0) as [Hs2 Hf2]. cbn in Hf2.
  assert (Hdh : d_hist2d self1 = d_hist2d self) by (by rewrite Hself1).
  assert (Hdx : d_bin_edges_x self1 = d_bin_edges_x self) by (by rewrite Hself1).
  assert (Hdy : d_bin_edges_y self1 = d_bin_edges_y self) by (by rewrite Hself1).
  assert (Hnx : n_bins_x self1 = n_bins_x self) by (by rewrite Hself1).
  assert (Hny : n_bins_y self1 = n_bins_y self) by (by rewrite Hself1).
  assert (Hl : length mem1 = length mem).
  { unfold mem_shape in *.
    by rewrite <- (length_fmap length mem1), Hs2, Hs1, length_fmap. }
  assert (Hf : ∀ q, q ≠ d_hist2d self → mem1 !! q = mem !! q).
  { intros q Hq. rewrite Hf2 by congruence. by apply Hf1. }
  assert (Hlen1 : length <$> mem1 !! d_hist2d self1 = Some k).
  { rewrite Hdh, <- Hlen.
    transitivity (length <$> mc !! d_hist2d self); by apply mem_shape_lookup. }
  assert (Hc : clear self1 mem1 = clear self mem).
  { rewrite (clear_spec self mem) by done.
    rewrite (clear_spec self1 mem1) by (by rewrite Hnx, Hny).
    rewrite Hnx, Hny, Hdh, Hdx, Hdy. fold k.
    by rewrite (insert_frame_eq mem mem1). }
  split.
  - rewrite (clear_spec self1 mem1) by (by rewrite Hnx, Hny).
    eexists _, _. split; [done|]. rewrite Hnx, Hny. fold k.
    apply list_lookup_insert_eq.
    destruct (mem1 !! d_hist2d self1) eqn:Hb; [|done]. by eapply lookup_lt_Some.
  - rewrite <- Hg. unfold get_hist. by rewrite Hc.
Qed.

Lemma get_hist_idempotent_witness :
  (∃ self_c mem_c, clear demo_self' demo_mem' = Some (self_c, mem_c) ∧
     mem_c !! d_hist2d demo_self' = Some (zeros 9)) ∧
  get_hist demo_self' 4 3 4 5 demo_mem'
  = Some ([[0; 0; 0]; [0; 0; 7]; [0; 13; 11]], demo_self', demo_mem').
Proof.
  apply (get_hist_idempotent demo_self demo_self' 4 3 4 5 demo_mem demo_mem'
           [[0; 0; 0]; [0; 0; 7]; [0; 13; 11]]).
  - reflexivity.
  - vm_compute. reflexivity.
Defined.

(** * The launch configuration of [get_hist] *)

Lemma get_hist_gdim_bounds (n_evts : Z) :
  0 ≤ n_evts →
  n_evts ≤ get_hist_bdim * get_hist_gdim n_evts
  ∧ get_hist_gdim n_evts ≤ n_evts + 255.
Proof.
  intros Hn. unfold get_hist_gdim, get_hist_bdim.
  pose proof (Z.div_mod n_evts 256 ltac:(lia)) as Hdm.
  pose proof (Z.mod_pos_bound n_evts 256 ltac:(lia)) as Hm.
  destruct (Z.ltb_spec 0 (n_evts `mod` 256)); lia.
Qed.

(** Up to [2^23] events the thread indices of the grid are
    [0 .. 256 * gdim - 1], each once, and they cover the events. *)
Lemma get_hist_grid_exact (n_evts : Z) :
  1 ≤ n_evts ≤ 2 ^ 23 →
  (λ w : Z * Z, thread_idx w.2 get_hist_bdim w.1)
    <$> workers get_hist_bdim (get_hist_gdim n_evts)
  = seqZ 0 (get_hist_bdim * get_hist_gdim n_evts)
  ∧ n_evts ≤ get_hist_bdim * get_hist_gdim n_evts ≤ 2 ^ 31.
Proof.
  intros Hn. pose proof (get_hist_gdim_bounds n_evts ltac:(lia)) as [Hlo Hhi].
  assert (Hg : get_hist_gdim n_evts ≤ 2 ^ 23).
  { unfold get_hist_gdim, get_hist_bdim in *.
    pose proof (Z.div_mod n_evts 256 ltac:(lia)) as Hdm.
    pose proof (Z.mod_pos_bound n_evts 256 ltac:(lia)) as Hm.
    destruct (Z.ltb_spec 0 (n_evts `mod` 256)); lia. }
  unfold get_hist_bdim in *. split; [|lia].
  rewrite <- (Z2Nat.id (get_hist_gdim n_evts)) by lia.
  apply workers_idx; lia.
Qed.

(** C9 — the launch of [get_hist] at [n_evts = 2^24 + 1].  The grid has
    [256 * ceil(n_evts / 256)] blocks of 256 threads, and the thread index is
    computed modulo [2^32]: block [2^24] starts again at index 0, so that
    event 0 belongs to two threads, not one; and the first thread of block
    [2^23], far beyond [n_evts], gets the index [-2^31], passes the
    test [idx < n_evts] and reads outside of the coordinate buffer. *)
Theorem get_hist_grid_wraps :
  let n_evts := 2 ^ 24 + 1 in
  let grid := workers get_hist_bdim (get_hist_gdim n_evts) in
  ¬ each_event_once n_evts ∧
  ((0, 0) ∈ grid ∧ (2 ^ 24, 0) ∈ grid ∧
   thread_idx 0 get_hist_bdim 0 = 0 ∧ thread_idx 0 get_hist_bdim (2 ^ 24) = 0) ∧
  ((2 ^ 23, 0) ∈ grid ∧ thread_idx 0 get_hist_bdim (2 ^ 23) = - 2 ^ 31 ∧
   ∀ (mem : device Z) a, arg_n_evts a = n_evts →
     Hist2D mem a 0 get_hist_bdim (2 ^ 23) = None).
Proof.
  intros n_evts grid.
  assert (Hg : get_hist_gdim n_evts = 16777472) by reflexivity.
  assert (H0 : (0, 0) ∈ grid).
  { apply workers_elem. rewrite Hg. unfold get_hist_bdim. lia. }
  assert (H1 : (2 ^ 24, 0) ∈ grid).
  { apply workers_elem. rewrite Hg. unfold get_hist_bdim. lia. }
  assert (H2 : (2 ^ 23, 0) ∈ grid).
  { apply workers_elem. rewrite Hg. unfold get_hist_bdim. lia. }
  split; [|split].
  - intros Honce. destruct (Honce 0) as (w & _ & _ & Huniq); [unfold n_evts; lia|].
    pose proof (Huniq (0, 0) H0 eq_refl) as Ha.
    pose proof (Huniq (2 ^ 24, 0) H1 eq_refl) as Hb.
    rewrite <- Ha in Hb. discriminate.
  - repeat split; auto.
  - split; [done|]. split; [reflexivity|].
    intros mem a Hn. unfold Hist2D.
    replace (thread_idx 0 get_hist_bdim (2 ^ 23)) with (- 2 ^ 31) by reflexivity.
    rewrite Hn. cbn [Z.ltb]. 
    replace (- 2 ^ 31 <? n_evts) with true by reflexivity.
    by destruct (mem !! arg_X a), (mem !! arg_Y a), (mem !! arg_W a),
      (mem !! arg_bin_edges_x a), (mem !! arg_bin_edges_y a).
Qed.

(** The thread 1 of block [2^24] has the index of the thread 1 of block 0:
    run after it, it adds the weight of event 1 a second time (bin 5 holds
    14, not 7). *)
Example wrapped_thread_adds_again :
  thread_idx 1 256 (2 ^ 24) = 1 ∧
  (λ m, m !! 0%nat) <$> run_schedule demo_args 256 [(0, 1)] demo_mem
  = Some (Some [0; 0; 0; 0; 0; 7; 0; 0; 0]) ∧
  (λ m, m !! 0%nat) <$> run_schedule demo_args 256 [(0, 1); (2 ^ 24, 1)] demo_mem
  = Some (Some [0; 0; 0; 0; 0; 14; 0; 0; 0]).
Proof. repeat split; vm_compute; reflexivity. Qed.

(** * Schedules *)

Lemma foldl_permutation {A B} (f : B → A → B) (l1 l2 : list A) :
  (∀ b x y, f (f b x) y = f (f b y) x) →
  l1 ≡ₚ l2 → ∀ b, foldl f b l1 = foldl f b l2.
Proof.
  intros Hcomm. induction 1 as [|x l1 l2 _ IH|x y l|l1 l2 l3 _ IH1 _ IH2]; intros b.
  - done.
  - cbn. apply IH.
  - cbn. by rewrite Hcomm.
  - by rewrite IH1, IH2.
Qed.

Section Schedule_proofs.
Context `{!FType F, !FOrder F, !FExact F}.

Lemma add_to_bin_comm (h : list F) (i j : Z) (v w : F) :
  add_to_bin (add_to_bin h i v) j w = add_to_bin (add_to_bin h j w) i v.
Proof.
  unfold add_to_bin.
  destruct (decide (Z.to_nat j = Z.to_nat i)) as [->|Hne].
  - rewrite !list_alter_alter_eq. apply list_alter_ext; [|done].
    intros old _. cbn.
    by rewrite <- !fadd_assoc, (fadd_comm v w).
  - by apply list_alter_alter_ne.
Qed.

Lemma add_event_comm nx ny (ex ey h : list F) e1 e2 :
  add_event nx ny ex ey (add_event nx ny ex ey h e1) e2
  = add_event nx ny ex ey (add_event nx ny ex ey h e2) e1.
Proof.
  unfold add_event.
  destruct (bin_index nx ny ex ey e1.1.1 e1.1.2),
    (bin_index nx ny ex ey e2.1.1 e2.1.2); try done.
  apply add_to_bin_comm.
Qed.

Lemma thread_effect_comm a (X Y W ex ey h : list F) (i j : Z) :
  thread_effect a X Y W ex ey (thread_effect a X Y W ex ey h i) j
  = thread_effect a X Y W ex ey (thread_effect a X Y W ex ey h j) i.
Proof.
  unfold thread_effect.
  destruct (events X Y W (arg_n_evts a) !! Z.to_nat i),
    (events X Y W (arg_n_evts a) !! Z.to_nat j); cbn; try done.
  apply add_event_comm.
Qed.
End Schedule_proofs.

(** With the threads run one after the other, the order does not matter. *)
Lemma run_schedule_permutation `{!FType F, !FOrder F, !FExact F}
    (mem : device F) (a : Hist2D_args) (X Y W ex ey h : list F) (bdim : Z)
    (sch sch' : list (Z * Z)) :
  Hist2D_ok mem a X Y W ex ey → hist_ok mem a h →
  bins_fit (arg_n_bins_x a) (arg_n_bins_y a) →
  Forall (λ w, 0 ≤ thread_idx w.2 bdim w.1) sch →
  sch ≡ₚ sch' →
  run_schedule a bdim sch' mem = run_schedule a bdim sch mem.
Proof.
  intros Hok Hh Hfit Hidx Hperm.
  assert (Hidx' : Forall (λ w, 0 ≤ thread_idx w.2 bdim w.1) sch')
    by (by rewrite <- Hperm).
  rewrite (run_schedule_spec a X Y W ex ey bdim sch Hfit Hidx mem h) by done.
  rewrite (run_schedule_spec a X Y W ex ey bdim sch' Hfit Hidx' mem h) by done.
  do 2 f_equal. apply foldl_permutation.
  - intros. apply thread_effect_comm.
  - by rewrite Hperm.
Qed.

Example demo_schedules :
  run_schedule demo_args 256 [(0, 1); (0, 2); (0, 3)] demo_mem = Some demo_mem'
  ∧ run_schedule demo_args 256 [(0, 2); (0, 1); (0, 3)] demo_mem = Some demo_mem'.
Proof. split; vm_compute; reflexivity. Qed.

(** * The stage: setup *)

Lemma names_disjoint_size (l1 l2 : list string) :
  size (list_to_set l1 ∩ list_to_set l2 : gset string) = 0%nat
  ↔ ∀ name, name ∈ l1 → name ∉ l2.
Proof.
  rewrite size_empty_iff. split.
  - intros Hempty name H1 H2.
    apply (not_elem_of_empty (C:=gset string) name). rewrite <- Hempty.
    apply elem_of_intersection. by rewrite !elem_of_list_to_set.
  - intros Hdis name. split; [|by intros ?%not_elem_of_empty].
    rewrite elem_of_intersection, !elem_of_list_to_set.
    intros [H1 H2]. by destruct (Hdis name H1).
Qed.

Lemma names_binning_add {F} (b1 b2 : MultiDimBinning F) :
  names (binning_add b1 b2) = names b1 ++ names b2.
Proof. unfold names, binning_add. apply fmap_app. Qed.

(** C7 — the assertion of [setup_function].  With a calculation binning
    and an apply binning, [setup_function] raises [AssertionError] as soon
    as the two share a dimension name, whatever the containers hold and
    before anything is computed: no code that follows it (an apply call, for
    one) is run.  When no name is shared the assertion passes and the
    transforms are built for the concatenation of the two binnings; a call
    that returns has disjoint names and has set [transform_binning] to that
    concatenation. *)
Theorem setup_function_exclusive `{EqDecision F}
    (histogram : list (ndarray F) → option (ndarray F) → MultiDimBinning F
                 → res (ndarray F))
    (self : hist F) (calc_b apply_b : MultiDimBinning F) :
  calc_mode self = mode_binning calc_b →
  apply_mode self = mode_binning apply_b →
  ((∃ name, name ∈ names calc_b ∧ name ∈ names apply_b) →
     setup_function histogram self = Raise AssertionError ∧
     ∀ (B : Type) (k : hist F → res B),
       setup_function histogram self ≫= k = Raise AssertionError) ∧
  ((∀ name, name ∈ names calc_b → name ∉ names apply_b) →
     setup_function histogram self
     = cs ← for_containers (setup_container histogram (binning_add calc_b apply_b))
              (data self);
       Ok {| calc_mode := calc_mode self; apply_mode := apply_mode self;
             error_method := error_method self;
             transform_binning := Some (binning_add calc_b apply_b);
             data := cs |}) ∧
  (∀ self', setup_function histogram self = Ok self' →
     (∀ name, name ∈ names calc_b → name ∉ names apply_b) ∧
     transform_binning self' = Some (binning_add calc_b apply_b) ∧
     names (binning_add calc_b apply_b) = names calc_b ++ names apply_b).
Proof.
  intros Hcalc Happly. unfold setup_function. rewrite Hcalc, Happly.
  destruct (names_disjoint_size (names calc_b) (names apply_b)) as [Hs1 Hs2].
  split; [|split].
  - intros (name & H1 & H2).
    rewrite decide_False; [by split|].
    intros Hz. by destruct (Hs1 Hz name H1).
  - intros Hdis. rewrite decide_True; [done|]. by apply Hs2.
  - intros self' Hok. case_decide as Hd; [|done].
    split; [by apply Hs1|]. split; [|apply names_binning_add].
    destruct (for_containers _ _) as [cs|]; [|done].
    cbn in Hok. by simplify_eq.
Qed.

Lemma setup_function_exclusive_witness :
  setup_function demo_histogram (demo_stage "true_energy" "true_energy")
    = Raise AssertionError ∧
  (∀ k : hist Z → res (hist Z),
     setup_function demo_histogram (demo_stage "true_energy" "true_energy") ≫= k
     = Raise AssertionError) ∧
  ∀ self', setup_function demo_histogram (demo_stage "true_energy" "reco_energy")
           = Ok self' →
    transform_binning self'
    = Some (binning_add (demo_binning "true_energy") (demo_binning "reco_energy")).
Proof.
  pose proof (setup_function_exclusive demo_histogram
                (demo_stage "true_energy" "true_energy")
                (demo_binning "true_energy") (demo_binning "true_energy")
                eq_refl eq_refl) as (Hshared & _ & _).
  pose proof (setup_function_exclusive demo_histogram
                (demo_stage "true_energy" "reco_energy")
                (demo_binning "true_energy") (demo_binning "reco_energy")
                eq_refl eq_refl) as (_ & _ & Hok).
  assert (Hex : ∃ name, name ∈ names (demo_binning "true_energy")
                        ∧ name ∈ names (demo_binning "true_energy")).
  { exists "true_energy". split; cbn; apply list_elem_of_here. }
  destruct (Hshared Hex) as [Hraise Hk].
  split; [exact Hraise|]. split; [exact (Hk (hist Z))|].
  intros self' Hself. exact (proj1 (proj2 (Hok self' Hself))).
Defined.

Example demo_setup_disjoint :
  setup_function demo_histogram (demo_stage "true_energy" "reco_energy")
  = Ok {| calc_mode := mode_binning (demo_binning "true_energy");
          apply_mode := mode_binning (demo_binning "reco_energy");
          error_method := Some "sumw2";
          transform_binning :=
            Some (demo_binning "true_energy" ++ demo_binning "reco_energy");
          data := [] |}.
Proof. vm_compute. reflexivity. Qed.

(** * The stage: apply *)

Lemma foldl_res_Raise {A B} (f : A → B → res A) (e : exn) (l : list B) :
  foldl (λ acc x, a ← acc; f a x) (Raise e) l = Raise e.
Proof. by induction l. Qed.

Section Apply_proofs.
Context `{FType F} `{EqDecision F}.
Variable fsqrt : F → F.

Lemma length_reshape {A} (rows cols : nat) (l : list A) :
  length (reshape rows cols l) = rows.
Proof. revert l. induction rows as [|rows IH]; intros l; cbn; [done|]. by rewrite IH. Qed.

Lemma store_set_all (r : Mode F) (cs : list (Container F)) :
  store <$> set_all_representation r cs = store <$> cs.
Proof.
  unfold set_all_representation. rewrite <- list_fmap_compose.
  by apply list_fmap_ext.
Qed.

Lemma nth_container_Ok (i : nat) (cs : list (Container F)) c :
  nth_container i cs = Ok c ↔ cs !! i = Some c.
Proof.
  unfold nth_container. destruct (cs !! i); split; intros; by simplify_eq.
Qed.

Lemma apply_container_binned_spec (self : hist F) (i : nat)
    (cs cs' : list (Container F)) :
  apply_container_binned fsqrt self i cs = Ok cs' →
  ∃ c st', cs !! i = Some c ∧ processed fsqrt self (store c) = Ok st' ∧
           store <$> cs' = <[i := st']> (store <$> cs).
Proof.
  unfold apply_container_binned. intros Hb.
  destruct (cs !! i) as [c|] eqn:Hc;
    [|by unfold nth_container in Hb; rewrite Hc in Hb].
  rewrite (proj2 (nth_container_Ok i cs c) Hc) in Hb. cbn [mbind res_bind] in Hb.
  assert (Hi : (i < length cs)%nat) by (by eapply lookup_lt_Some).
  rewrite (proj2 (nth_container_Ok i _ (set_representation (calc_mode self) c))) in Hb
    by (by apply list_lookup_insert_eq).
  cbn [mbind res_bind] in Hb.
  exists c. unfold processed. unfold getitem in Hb.
  cbn [representation store set_representation] in Hb.
  destruct (assoc (calc_mode self, "weights") (store c)) as [weights|]; [|done].
  cbn [mbind res_bind] in Hb |- *.
  destruct (transform_binning self) as [tb|]; [|done].
  cbn [mbind res_bind] in Hb |- *.
  rewrite (proj2 (nth_container_Ok i _
             (set_representation (mode_binning tb)
                (set_representation (calc_mode self) c)))) in Hb.
  2:{ unfold set_all_representation. rewrite list_lookup_fmap.
      by rewrite list_lookup_insert_eq. }
  cbn [mbind res_bind representation store set_representation] in Hb.
  destruct (assoc (mode_binning tb, "hist_transform") (store c)) as [transform|];
    [|done].
  cbn [mbind res_bind] in Hb |- *.
  destruct (apply_transform (error_method self) weights transform) as [[h sumw2]|];
    [|done].
  cbn [mbind res_bind] in Hb |- *. injection Hb as <-.
  eexists. split; [done|]. split; [done|].
  rewrite list_fmap_insert, store_set_all, list_fmap_insert.
  rewrite list_insert_insert_eq. f_equal. by destruct sumw2.
Qed.

Lemma for_containers_binned (self : hist F) (idxs : list nat) :
  NoDup idxs →
  ∀ cs cs' : list (Container F),
    foldl (λ acc i, cs ← acc; apply_container_binned fsqrt self i cs) (Ok cs) idxs
    = Ok cs' →
    ∀ i c, cs !! i = Some c →
      ∃ c', cs' !! i = Some c' ∧
            (i ∈ idxs → processed fsqrt self (store c) = Ok (store c')) ∧
            (i ∉ idxs → store c' = store c).
Proof.
  induction 1 as [|k idxs Hk Hnd IH]; intros cs cs' Hrun i c Hc.
  - cbn in Hrun. simplify_eq. exists c. split; [done|]. split; [|done].
    by intros ?%elem_of_nil.
  - cbn [foldl mbind res_bind] in Hrun.
    destruct (apply_container_binned fsqrt self k cs) as [cs1|e] eqn:Hbody;
      [|by rewrite foldl_res_Raise in Hrun].
    destruct (apply_container_binned_spec _ _ _ _ Hbody) as (ck & st' & Hck & Hst & Hstores).
    assert (Hc1 : ∃ c1, cs1 !! i = Some c1 ∧
                        store c1 = if decide (i = k) then st' else store c).
    { assert (Hl : (store <$> cs1) !! i
                   = (<[k := st']> (store <$> cs)) !! i) by (by rewrite Hstores).
      rewrite list_lookup_fmap in Hl.
      destruct (cs1 !! i) as [c1|] eqn:Hc1.
      - exists c1. split; [done|]. cbn in Hl.
        destruct (decide (i = k)) as [->|Hne].
        + rewrite list_lookup_insert_eq in Hl; [by simplify_eq|].
          rewrite length_fmap. by eapply lookup_lt_Some.
        + rewrite list_lookup_insert_ne, list_lookup_fmap, Hc in Hl by done.
          cbn in Hl. by simplify_eq.
      - exfalso. cbn in Hl. symmetry in Hl. apply lookup_ge_None in Hl.
        rewrite length_insert, length_fmap in Hl.
        apply lookup_lt_Some in Hc. lia. }
    destruct Hc1 as (c1 & Hc1 & Hs1).
    destruct (IH cs1 cs' Hrun i c1 Hc1) as (c' & Hc' & Hin & Hout).
    exists c'. split; [done|]. split.
    + intros [->|Hrest]%elem_of_cons.
      * rewrite decide_True in Hs1 by done.
        rewrite (Hout Hk), Hs1. congruence.
      * destruct (decide (i = k)) as [->|Hne]; [done|].
        rewrite <- Hs1. by apply Hin.
    + intros Hni. rewrite not_elem_of_cons in Hni. destruct Hni as [Hne Hni].
      rewrite decide_False in Hs1 by done. rewrite Hout by done. done.
Qed.

Lemma nd_reshape_Ok (t : ndarray F) (n : nat) rows :
  nd_reshape t n = Ok rows →
  rows = reshape n (length (flat t) / n) (flat t) ∧ length rows = n ∧ n ≠ 0%nat.
Proof.
  unfold nd_reshape. destruct (Nat.eqb_spec n 0); [done|].
  destruct (_ =? 0)%nat; [|done]. intros [= <-].
  by rewrite length_reshape.
Qed.

Lemma n_columns_reshape (n m : nat) (l : list F) :
  n ≠ 0%nat → (m ≤ length l)%nat → n_columns (reshape n m l) = m.
Proof.
  destruct n as [|n]; [done|]. intros _ Hl. cbn. rewrite length_take. lia.
Qed.

Lemma matmul_Ok (weights : ndarray F) rows h :
  matmul weights rows = Ok h →
  shape weights = [length rows] ∧
  h = vector (vecmat (flat weights) rows (n_columns rows)).
Proof.
  unfold matmul. destruct (shape weights) as [|n [|]]; try done.
  destruct (Nat.eqb_spec n (length rows)) as [->|]; [|done].
  by intros [= <-].
Qed.

Lemma apply_transform_Ok (em : option string) (weights transform : ndarray F) h sumw2 :
  apply_transform em weights transform = Ok (h, sumw2) →
  ∃ n rows, shape weights = [n] ∧ nd_reshape transform n = Ok rows ∧
    h = vector (vecmat (flat weights) rows (n_columns rows)) ∧
    sumw2 = if decide (em = Some "sumw2")
            then Some (vector (vecmat ((λ v, fmul v v) <$> flat weights) rows
                                 (n_columns rows)))
            else None.
Proof.
  unfold apply_transform. intros Ha.
  destruct (shape weights) as [|n sh] eqn:Hsh; [done|]. cbn [mbind res_bind] in Ha.
  destruct (nd_reshape transform n) as [rows|] eqn:Hr; [|done].
  cbn [mbind res_bind] in Ha.
  destruct (matmul weights rows) as [h'|] eqn:Hm; [|done].
  cbn [mbind res_bind] in Ha.
  apply matmul_Ok in Hm as [Hshape ->].
  apply nd_reshape_Ok in Hr as Hr'. destruct Hr' as (_ & Hlen & _).
  exists n, rows. rewrite Hsh in Hshape. rewrite Hshape, Hlen. split; [done|].
  split; [done|].
  destruct (decide (em = Some "sumw2")).
  - destruct (matmul (square weights) rows) as [s|] eqn:Hs; [|done].
    cbn in Ha. apply matmul_Ok in Hs as [_ ->]. by simplify_eq.
  - by simplify_eq.
Qed.

Lemma vecmat_lookup (w : list F) rows (m j : nat) :
  (j < m)%nat → vecmat w rows m !! j = Some (dot w (column j rows)).
Proof.
  intros Hj. unfold vecmat. rewrite list_lookup_fmap, lookup_seq_lt by done.
  done.
Qed.
End Apply_proofs.

(** C8 — what [apply_function] computes.  With a binning as [calc_mode],
    a call that returns has, for every container, read the weights stored
    under [calc_mode] and the transform stored under [transform_binning],
    reshaped the transform to one row per weight, and stored under
    [apply_mode], as ['weights'], the vector-matrix product: entry [j] is the
    sum over [i] of [weights[i] * transform[i][j]].  When the error method is
    ['sumw2'] it has also formed the product of the squared weights with the
    transform, and stored its square root as ['errors']. *)
Theorem apply_function_product `{FType F} `{EqDecision F}
    (histogram : list (ndarray F) → option (ndarray F) → MultiDimBinning F
                 → res (ndarray F))
    (fsqrt : F → F) (self self' : hist F) (calc_b : MultiDimBinning F)
    (i : nat) (c : Container F) :
  calc_mode self = mode_binning calc_b →
  apply_function histogram fsqrt self = Ok self' →
  data self !! i = Some c →
  ∃ c' tb weights transform n rows,
    data self' !! i = Some c' ∧
    transform_binning self = Some tb ∧
    assoc (mode_binning calc_b, "weights") (store c) = Some weights ∧
    assoc (mode_binning tb, "hist_transform") (store c) = Some transform ∧
    shape weights = [n] ∧ nd_reshape transform n = Ok rows ∧
    let m := n_columns rows in
    let h := vecmat (flat weights) rows m in
    let sumw2 := vecmat ((λ w, fmul w w) <$> flat weights) rows m in
    assoc (apply_mode self, "weights") (store c') = Some (vector h) ∧
    (∀ j, (j < m)%nat → h !! j = Some (dot (flat weights) (column j rows))) ∧
    (error_method self = Some "sumw2" →
       assoc (apply_mode self, "errors") (store c')
       = Some (sqrt_array fsqrt (vector sumw2)) ∧
       ∀ j, (j < m)%nat →
         sumw2 !! j = Some (dot ((λ w, fmul w w) <$> flat weights) (column j rows))).
Proof.
  intros Hcalc Happly Hc. unfold apply_function in Happly. rewrite Hcalc in Happly.
  destruct (for_containers _ (data self)) as [cs|] eqn:Hloop; [|done].
  cbn in Happly. injection Happly as <-. cbn [data with_data].
  unfold for_containers in Hloop.
  destruct (for_containers_binned fsqrt self (seq 0 (length (data self)))
              (NoDup_seq 0 _) (data self) cs Hloop i c Hc) as (c' & Hc' & Hin & _).
  assert (Hi : i ∈ seq 0 (length (data self))).
  { apply elem_of_seq. apply lookup_lt_Some in Hc. lia. }
  specialize (Hin Hi). unfold processed in Hin. rewrite Hcalc in Hin.
  destruct (assoc (mode_binning calc_b, "weights") (store c)) as [weights|] eqn:Hw;
    [|done].
  cbn [mbind res_bind] in Hin.
  destruct (transform_binning self) as [tb|] eqn:Htb; [|done].
  cbn [mbind res_bind] in Hin.
  destruct (assoc (mode_binning tb, "hist_transform") (store c)) as [transform|] eqn:Ht;
    [|done].
  cbn [mbind res_bind] in Hin.
  destruct (apply_transform (error_method self) weights transform) as [[h s]|] eqn:Ha;
    [|done].
  cbn [mbind res_bind fst snd] in Hin. injection Hin as Hstore.
  destruct (apply_transform_Ok _ _ _ _ _ Ha) as (n & rows & Hsh & Hr & -> & ->).
  exists c', tb, weights, transform, n, rows.
  repeat (split; [done|]). cbn zeta. rewrite <- Hstore. split; [|split].
  - destruct (decide (error_method self = Some "sumw2")); cbn [app assoc].
    + rewrite decide_False by (intros [=]). by rewrite decide_True.
    + by rewrite decide_True.
  - intros j Hj. by apply vecmat_lookup.
  - intros Hem. rewrite decide_True by done. cbn [app assoc].
    rewrite decide_True by done. split; [done|].
    intros j Hj. by apply vecmat_lookup.
Qed.

Example demo_apply_function :
  (λ s, (λ c, (assoc (mode_binning demo_apply, "weights") (store c),
               assoc (mode_binning demo_apply, "errors") (store c))) <$> data s)
    <$> Some demo_applied
  = Some [(Some (vector [4; 3; 3]), Some (vector [2; 3; 3]))].
Proof. vm_compute. reflexivity. Qed.

Lemma apply_function_product_witness :
  ∃ c' tb weights transform n rows,
    data demo_applied !! 0%nat = Some c' ∧
    transform_binning demo_hist_stage = Some tb ∧
    assoc (mode_binning demo_calc, "weights") (store demo_container) = Some weights ∧
    assoc (mode_binning tb, "hist_transform") (store demo_container) = Some transform ∧
    shape weights = [n] ∧ nd_reshape transform n = Ok rows ∧
    let m := n_columns rows in
    let h := vecmat (flat weights) rows m in
    let sumw2 := vecmat ((λ w, fmul w w) <$> flat weights) rows m in
    assoc (apply_mode demo_hist_stage, "weights") (store c') = Some (vector h) ∧
    (∀ j, (j < m)%nat → h !! j = Some (dot (flat weights) (column j rows))) ∧
    (error_method demo_hist_stage = Some "sumw2" →
       assoc (apply_mode demo_hist_stage, "errors") (store c')
       = Some (sqrt_array Z.sqrt (vector sumw2)) ∧
       ∀ j, (j < m)%nat →
         sumw2 !! j = Some (dot ((λ w, fmul w w) <$> flat weights) (column j rows))).
Proof.
  apply (apply_function_product demo_histogram Z.sqrt demo_hist_stage demo_applied
           demo_calc 0 demo_container).
  - reflexivity.
  - vm_compute. reflexivity.
  - reflexivity.
Defined.

(** * Histograms add up *)

Section Transform_proofs.
Context `{!FType F, !FOrder F, !FExact F}.

Lemma dot_cons (a b : F) (u v : list F) :
  dot (a :: u) (b :: v) = fadd (fmul a b) (dot u v).
Proof. done. Qed.

Lemma alter_zip_with (w : F) (i : nat) (g h : list F) :
  alter (λ old, fadd old w) i (zip_with fadd g h)
  = zip_with fadd (alter (λ old, fadd old w) i g) h.
Proof.
  revert i h. induction g as [|a g IH]; intros [|i] [|b h]; cbn; try done.
  - f_equal. by rewrite <- !fadd_assoc, (fadd_comm b w).
  - by rewrite IH.
Qed.

Lemma add_event_zip_with nx ny (ex ey g h : list F) ev :
  add_event nx ny ex ey (zip_with fadd g h) ev
  = zip_with fadd (add_event nx ny ex ey g ev) h.
Proof.
  unfold add_event, add_to_bin. destruct (bin_index _ _ _ _ _ _); [|done].
  apply alter_zip_with.
Qed.

Lemma foldl_add_event_zip_with nx ny (ex ey : list F) evs (g h : list F) :
  foldl (add_event nx ny ex ey) (zip_with fadd g h) evs
  = zip_with fadd (foldl (add_event nx ny ex ey) g evs) h.
Proof.
  revert g. induction evs as [|ev evs IH]; intros g; [done|].
  cbn [foldl]. by rewrite add_event_zip_with, IH.
Qed.

Lemma zip_with_fadd_zeros (h : list F) :
  zip_with fadd (zeros (length h)) h = h.
Proof.
  unfold zeros. induction h as [|a h IH]; [done|].
  cbn. by rewrite fadd_0_l, IH.
Qed.

Lemma zip_with_fadd_comm (g h : list F) : zip_with fadd g h = zip_with fadd h g.
Proof.
  revert h. induction g as [|a g IH]; intros [|b h]; cbn; try done.
  by rewrite fadd_comm, IH.
Qed.

End Transform_proofs.

(** * The loop of [GetBin] never runs out of fuel *)

Lemma quot2_between (first last : Z) :
  first ≤ last → first ≤ (first + last) `quot` 2 ≤ last.
Proof.
  intros Hfl.
  pose proof (Z.quot_rem' (first + last) 2) as Hqr.
  destruct (Z.le_gt_cases 0 (first + last)) as [Hs|Hs].
  - pose proof (Z.rem_bound_pos (first + last) 2 Hs ltac:(lia)). lia.
  - pose proof (Z.rem_bound_pos_neg (first + last) 2 ltac:(lia) ltac:(lia)). lia.
Qed.

Lemma cint_inv (z v : Z) : cint z = Some v → v = z.
Proof. unfold cint. destruct (_ && _); by intros [=]. Qed.

(** Whatever the inputs, a run with [last - first + 1] units of fuel is a
    run with any larger amount: the fuel that [GetBin] provides is never
    what ends the loop. *)
Lemma GetBin_loop_fuel `{FType F} (x : F) (n_bins : Z) (bin_edges : list F) :
  ∀ (fuel fuel' : nat) (first last : Z) (bin : option Z),
    last - first + 1 ≤ Z.of_nat fuel → last - first + 1 ≤ Z.of_nat fuel' →
    GetBin_loop fuel x n_bins bin_edges first last bin
    = GetBin_loop fuel' x n_bins bin_edges first last bin.
Proof.
  induction fuel as [|fuel IH]; intros fuel' first last bin Hf Hf'.
  - destruct fuel'; cbn [GetBin_loop]; destruct (Z.leb_spec first last); try done; lia.
  - destruct fuel' as [|fuel'].
    { cbn [GetBin_loop]. destruct (Z.leb_spec first last); [lia|done]. }
    cbn [GetBin_loop]. destruct (Z.leb_spec first last) as [Hfl|]; [|reflexivity].
    destruct (cint (first + last)) as [s|] eqn:Hs; [|reflexivity].
    apply cint_inv in Hs as ->. cbn [mbind option_bind].
    pose proof (quot2_between first last Hfl) as Hq.
    destruct (read bin_edges ((first + last) `quot` 2)) as [e|]; [|reflexivity].
    cbn [mbind option_bind].
    destruct (fle e x).
    + destruct (cint (_ + 1)) as [b1|] eqn:Hb1; [|reflexivity].
      apply cint_inv in Hb1 as ->. cbn [mbind option_bind].
      destruct (read bin_edges ((first + last) `quot` 2 + 1)) as [e1|]; [|reflexivity].
      cbn [mbind option_bind].
      destruct (flt x e1); [reflexivity|].
      destruct (read bin_edges n_bins) as [en|]; [|reflexivity]. cbn [mbind option_bind].
      destruct (_ && _); [reflexivity|]. apply IH; lia.
    + destruct (cint (_ - 1)) as [b1|] eqn:Hb1; [|reflexivity].
      apply cint_inv in Hb1 as ->. cbn [mbind option_bind].
      apply IH; lia.
Qed.

(** * [get_hist] up to [2^23] events *)

Lemma get_hist_gdim_range (n_evts : Z) :
  1 ≤ n_evts ≤ 2 ^ 23 →
  1 ≤ get_hist_gdim n_evts ≤ INT_MAX ∧
  n_evts ≤ get_hist_bdim * get_hist_gdim n_evts ≤ 2 ^ 31.
Proof.
  intros Hn. destruct (get_hist_grid_exact n_evts Hn) as [_ Hcover].
  split; [|done]. unfold INT_MAX, get_hist_bdim in *. lia.
Qed.

Lemma foldl_add_event_length `{FType F} nx ny (ex ey : list F) evs h :
  length (foldl (add_event nx ny ex ey) h evs) = length h.
Proof.
  revert h. induction evs as [|ev evs IH]; intros h; [done|].
  cbn [foldl]. rewrite IH. unfold add_event, add_to_bin.
  destruct (bin_index _ _ _ _ _ _); [apply length_alter|done].
Qed.

(** On well-formed buffers, and up to [2^23] events, [get_hist] returns the
    accumulation of the events from zeros, whatever the device histogram
    held, and keeps it as its host array. *)
Lemma get_hist_spec `{FOrder F} (self : GPUhist F) (n_evts : Z) (d_x d_y d_w : nat)
    (mem : device F) (X Y W ex ey h0 : list F) :
  let a := get_hist_args self n_evts d_x d_y d_w in
  let k := Z.to_nat (n_bins_x self * n_bins_y self) in
  let h := foldl (add_event (n_bins_x self) (n_bins_y self) ex ey) (zeros k)
             (events X Y W n_evts) in
  Hist2D_ok mem a X Y W ex ey → hist_ok mem a h0 →
  bins_fit (n_bins_x self) (n_bins_y self) →
  1 ≤ n_evts ≤ 2 ^ 23 →
  get_hist self n_evts d_x d_y d_w mem
  = Some (reshape (Z.to_nat (n_bins_x self)) (Z.to_nat (n_bins_y self)) h,
          {| n_bins_x := n_bins_x self; n_bins_y := n_bins_y self; hist2d := h;
             d_hist2d := d_hist2d self; d_bin_edges_x := d_bin_edges_x self;
             d_bin_edges_y := d_bin_edges_y self |},
          <[d_hist2d self := h]> mem).
Proof.
  intros a k h Hok Hh Hfit Hn.
  destruct (get_hist_gdim_range n_evts Hn) as [Hg Hcover].
  assert (Hlen0 : length h0 = k).
  { pose proof (ok_hist_len _ _ _ Hh) as Hl. cbn in Hl. unfold k. lia. }
  unfold get_hist. rewrite clear_spec.
  2:{ pose proof (ok_hist _ _ _ Hh) as Hl. cbn in Hl. rewrite Hl. cbn. by rewrite Hlen0. }
  cbn [mbind option_bind]. fold k.
  change (get_hist_args _ n_evts d_x d_y d_w) with a.
  assert (Hzk : length (zeros (F:=F) k) = length h0)
    by (unfold zeros; by rewrite length_replicate).
  pose proof (Hist2D_ok_insert mem a X Y W ex ey h0 (zeros k) Hok Hh) as Hok1.
  pose proof (hist_ok_insert mem a h0 (zeros k) Hh Hzk) as Hh1.
  change (d_hist2d self) with (arg_hist a).
  assert (Hbd : 1 ≤ get_hist_bdim ≤ 1024) by (unfold get_hist_bdim; lia).
  rewrite (launch_Hist2D_spec _ a X Y W ex ey (zeros k) get_hist_bdim
             (get_hist_gdim n_evts) Hok1 Hh1 Hfit Hbd Hg Hcover).
  cbn [mbind option_bind]. rewrite list_insert_insert_eq.
  change (arg_n_bins_x a) with (n_bins_x self).
  change (arg_n_bins_y a) with (n_bins_y self).
  change (arg_n_evts a) with n_evts. fold h.
  assert (Hlh : length h = k).
  { unfold h. rewrite foldl_add_event_length. unfold zeros. apply length_replicate. }
  unfold memcpy_dtoh. cbn [hist2d].
  rewrite list_lookup_insert_eq
    by (eapply lookup_lt_Some, (ok_hist _ _ _ Hh)).
  cbn [mbind option_bind].
  assert (Hzl : length (zeros (F:=F) k) = k)
    by (unfold zeros; apply length_replicate).
  rewrite Hzl, Hlh, Nat.leb_refl.
  by rewrite take_ge by lia.
Qed.

Example demo_get_hist_spec :
  get_hist demo_self 4 3 4 5 demo_mem
  = Some (reshape 3 3 (foldl (add_event 3 3 demo_edges demo_edges) (zeros 9)
                         (events demo_X demo_Y demo_W 4)),
          demo_self', demo_mem').
Proof.
  rewrite (get_hist_spec demo_self 4 3 4 5 demo_mem demo_X demo_Y demo_W
             demo_edges demo_edges (zeros 9)).
  - reflexivity.
  - apply demo_Hist2D_ok.
  - apply demo_hist_ok.
  - apply demo_bins_fit.
  - lia.
Qed.

(** X15 — each event once, up to [2^23] events.  Up to [2^23] events every
    event index belongs to exactly one thread of the grid of [get_hist],
    and the threads whose index is not below [n_evts] write nothing. *)
Lemma each_event_once_small (n_evts : Z) :
  1 ≤ n_evts ≤ 2 ^ 23 →
  each_event_once n_evts ∧
  ∀ (mem : device Z) a bid tid,
    arg_n_evts a = n_evts →
    (bid, tid) ∈ workers get_hist_bdim (get_hist_gdim n_evts) →
    n_evts ≤ tid + get_hist_bdim * bid →
    Hist2D mem a tid get_hist_bdim bid = Some [].
Proof.
  intros Hn. destruct (get_hist_gdim_range n_evts Hn) as [Hg Hcover].
  unfold get_hist_bdim in *.
  assert (Hidx : ∀ bid tid, (bid, tid) ∈ workers 256 (get_hist_gdim n_evts) →
                   thread_idx tid 256 bid = tid + 256 * bid).
  { intros bid tid [Hb Ht]%workers_elem. apply thread_idx_small. lia. }
  split.
  - unfold each_event_once, get_hist_bdim. intros idx Hi.
    pose proof (Z.div_mod idx 256 ltac:(lia)) as Hdm.
    pose proof (Z.mod_pos_bound idx 256 ltac:(lia)) as Hm.
    assert (Hw : (idx `div` 256, idx `mod` 256) ∈ workers 256 (get_hist_gdim n_evts)).
    { apply workers_elem. lia. }
    exists (idx `div` 256, idx `mod` 256). split; [done|]. split.
    + cbn [fst snd]. rewrite (Hidx _ _ Hw). lia.
    + intros [bid tid] Hw' Hsame. cbn [fst snd] in Hsame.
      rewrite (Hidx _ _ Hw') in Hsame.
      apply workers_elem in Hw' as [Hb Ht].
      f_equal; lia.
  - intros mem a bid tid Ha Hw Hge. apply Hist2D_idle.
    rewrite (Hidx _ _ Hw), Ha. done.
Qed.

Lemma each_event_once_small_witness :
  each_event_once 4 ∧
  ∀ (mem : device Z) a bid tid,
    arg_n_evts a = 4 →
    (bid, tid) ∈ workers get_hist_bdim (get_hist_gdim 4) →
    4 ≤ tid + get_hist_bdim * bid →
    Hist2D mem a tid get_hist_bdim bid = Some [].
Proof.
  apply (each_event_once_small 4). lia.
Defined.

(** * Interleavings *)

Lemma filter_insert_out {A} (P : A → Prop) `{∀ x, Decision (P x)}
    (l : list A) (i : nat) (t t' : A) :
  l !! i = Some t → P t → ¬ P t' →
  filter P l ≡ₚ t :: filter P (<[i := t']> l).
Proof.
  revert i. induction l as [|x l IH]; intros [|i] Hi Ht Ht'; try done.
  - cbn in Hi. simplify_eq. cbn [insert list_insert].
    rewrite !filter_cons. by rewrite decide_True, decide_False.
  - cbn in Hi. cbn [insert list_insert]. rewrite !filter_cons.
    destruct (decide (P x)).
    + rewrite (IH i Hi Ht Ht'). apply perm_swap.
    + by apply IH.
Qed.

Lemma filter_insert_in {A B} (P : A → Prop) `{∀ x, Decision (P x)} (f : A → B)
    (l : list A) (i : nat) (t t' : A) :
  l !! i = Some t → P t → P t' → f t = f t' →
  f <$> filter P (<[i := t']> l) = f <$> filter P l.
Proof.
  revert i. induction l as [|x l IH]; intros [|i] Hi Ht Ht' Hf; try done.
  - cbn in Hi. simplify_eq. cbn [insert list_insert].
    rewrite !filter_cons. rewrite !decide_True by done.
    rewrite !fmap_cons. by rewrite Hf.
  - cbn in Hi. cbn [insert list_insert]. rewrite !filter_cons.
    destruct (decide (P x)); [rewrite !fmap_cons; f_equal|]; by apply IH.
Qed.

Section Interleaving_proofs.
Context `{!FType F, !FOrder F, !FExact F}.
Variables (a : Hist2D_args) (bdim : Z) (mem : device F) (X Y W ex ey h : list F).
Hypothesis Hok : Hist2D_ok mem a X Y W ex ey.
Hypothesis Hh : hist_ok mem a h.
Hypothesis Hfit : bins_fit (arg_n_bins_x a) (arg_n_bins_y a).

Definition pool_idx (t : Z * Z * option (list (write F))) : Z :=
  thread_idx t.1.2 bdim t.1.1.

(** The threads that still have to contribute. *)
Definition todo (p : pool F) : list Z :=
  pool_idx <$> filter (λ t, is_done t = false) p.

(** What a thread holds once it has read: nothing, or the atomic add that
    is its effect on the histogram. *)
Definition holds (t : Z * Z * option (list (write F))) : Prop :=
  0 ≤ pool_idx t ∧
  match t.2 with
  | None | Some [] => True
  | Some [op] =>
      ∃ j v, op = AtomicAdd (arg_hist a) j v ∧ 0 ≤ j < Z.of_nat (length h) ∧
             ∀ g, thread_effect a X Y W ex ey g (pool_idx t) = add_to_bin g j v
  | Some _ => False
  end.

(** The invariant of a launch in flight: only the histogram has changed,
    and the contributions still to come lead to the final histogram. *)
Definition in_flight (final : list F) (s : pool F * device F) : Prop :=
  ∃ hc, s.2 = <[arg_hist a := hc]> mem ∧ length hc = length h ∧
        Forall holds s.1 ∧
        foldl (thread_effect a X Y W ex ey) hc (todo s.1) = final.

Lemma Hist2D_reads (hc : list F) (w : Z * Z) ws :
  length hc = length h → 0 ≤ thread_idx w.2 bdim w.1 →
  Hist2D (<[arg_hist a := hc]> mem) a w.2 bdim w.1 = Some ws →
  (ws = [] ∧ ∀ g, thread_effect a X Y W ex ey g (thread_idx w.2 bdim w.1) = g) ∨
  (∃ j v, ws = [AtomicAdd (arg_hist a) j v] ∧ 0 ≤ j < Z.of_nat (length h) ∧
          ∀ g, thread_effect a X Y W ex ey g (thread_idx w.2 bdim w.1)
               = add_to_bin g j v).
Proof.
  intros Hlen Hidx Hws.
  pose proof (Hist2D_ok_insert mem a X Y W ex ey h hc Hok Hh) as Hok'.
  set (idx := thread_idx w.2 bdim w.1) in *.
  destruct (decide (idx < arg_n_evts a)) as [Hlt|Hge].
  - destruct (read_lt X idx) as [x Hx]; [pose proof (ok_len_X _ _ _ _ _ _ _ Hok); lia|].
    destruct (read_lt Y idx) as [y Hy]; [pose proof (ok_len_Y _ _ _ _ _ _ _ Hok); lia|].
    destruct (read_lt W idx) as [v Hv]; [pose proof (ok_len_W _ _ _ _ _ _ _ Hok); lia|].
    rewrite (Hist2D_event _ a X Y W ex ey w.2 bdim w.1 x y v Hok' Hfit) in Hws by done.
    assert (Hev : events X Y W (arg_n_evts a) !! Z.to_nat idx = Some (x, y, v))
      by (by apply events_lookup).
    unfold thread_effect. rewrite Hev. cbn [from_option]. unfold add_event.
    cbn [fst snd].
    destruct (bin_index _ _ _ _ x y) as [j|] eqn:Hj; simplify_eq.
    + right. exists j, v. split; [done|]. split; [|done].
      apply bin_index_range in Hj;
        [|by eapply ok_edges_x|by eapply ok_edges_y|done].
      pose proof (ok_hist_len _ _ _ Hh). lia.
    + by left.
  - rewrite Hist2D_idle in Hws by lia. simplify_eq. left. split; [done|].
    intros g. unfold thread_effect. by rewrite events_lookup_ge by lia.
Qed.

Lemma in_flight_step (final : list F) s s' :
  in_flight final s → step a bdim s s' → in_flight final s'.
Proof.
  intros (hc & Hmem & Hlen & Hholds & Hfinal) Hstep.
  destruct Hstep as [p m i w ws Hi Hws|p m i w op ws m' Hi Hop]; cbn [fst snd] in *.
  - pose proof (Forall_lookup_1 _ _ _ _ Hholds Hi) as [Hidx _].
    unfold pool_idx in Hidx. cbn [fst snd] in Hidx.
    rewrite Hmem in Hws.
    destruct (Hist2D_reads hc w ws Hlen Hidx Hws) as [[-> Hid]|(j & v & -> & Hj & Heff)].
    + exists hc. split; [done|]. split; [done|]. split.
      { apply Forall_insert; [done|]. by split. }
      rewrite <- Hfinal. unfold todo.
      rewrite (foldl_permutation _ _ _ (thread_effect_comm a X Y W ex ey)
                 (fmap_Permutation pool_idx _ _
                    (filter_insert_out (λ t, is_done t = false) p i
                       (w, None) (w, Some []) Hi eq_refl ltac:(done)))).
      cbn [fmap list_fmap foldl]. unfold pool_idx at 2. cbn [fst snd].
      by rewrite Hid.
    + exists hc. split; [done|]. split; [done|]. split.
      { apply Forall_insert; [done|]. split; [done|]. cbn [snd].
        exists j, v. split; [done|]. split; [done|]. exact Heff. }
      rewrite <- Hfinal. unfold todo. f_equal.
      by apply (filter_insert_in (λ t, is_done t = false) pool_idx p i
                  (w, None) (w, Some [AtomicAdd (arg_hist a) j v])).
  - pose proof (Forall_lookup_1 _ _ _ _ Hholds Hi) as [Hidx Hop'].
    cbn [snd] in Hop'. destruct ws as [|? ?]; [|done].
    destruct Hop' as (j & v & -> & Hj & Heff).
    assert (Hm' : m' = <[arg_hist a := add_to_bin hc j v]> mem).
    { rewrite Hmem in Hop. cbn [exec_write] in Hop.
      rewrite list_lookup_insert_eq in Hop
        by (eapply lookup_lt_Some, (ok_hist _ _ _ Hh)).
      cbn [mbind option_bind] in Hop.
      destruct (read_lt hc j) as [old Hold]; [lia|]. rewrite Hold in Hop.
      cbn [mbind option_bind] in Hop. injection Hop as <-.
      by rewrite list_insert_insert_eq, (add_to_bin_insert hc j old v). }
    exists (add_to_bin hc j v). split; [done|]. split.
    { unfold add_to_bin. by rewrite length_alter. }
    split.
    { apply Forall_insert; [done|]. by split. }
    rewrite <- Hfinal. unfold todo.
    rewrite (foldl_permutation _ _ _ (thread_effect_comm a X Y W ex ey)
               (fmap_Permutation pool_idx _ _
                  (filter_insert_out (λ t, is_done t = false) p i
                     (w, Some [AtomicAdd (arg_hist a) j v]) (w, Some [])
                     Hi eq_refl ltac:(done))) hc).
    cbn [fmap list_fmap foldl]. by rewrite Heff.
Qed.

Lemma in_flight_started (schedule : list (Z * Z)) :
  Forall (λ w, 0 ≤ thread_idx w.2 bdim w.1) schedule →
  in_flight
    (foldl (thread_effect a X Y W ex ey) h ((λ w, thread_idx w.2 bdim w.1) <$> schedule))
    (started schedule, mem).
Proof.
  intros Hidx. exists h. cbn [fst snd]. split.
  { symmetry. apply list_insert_id, (ok_hist _ _ _ Hh). }
  split; [done|]. split.
  - unfold started. apply Forall_fmap. eapply Forall_impl; [done|].
    intros w Hw. by split.
  - f_equal. unfold todo, started.
    induction schedule as [|w sch IH]; [done|].
    rewrite !fmap_cons, filter_cons, decide_True by done.
    rewrite fmap_cons. f_equal. apply IH. by eapply Forall_inv_tail.
Qed.

Lemma in_flight_finished (final : list F) p m :
  in_flight final (p, m) → finished p → m = <[arg_hist a := final]> mem.
Proof.
  intros (hc & Hmem & _ & _ & Hfinal) Hfin. cbn [fst snd] in *.
  assert (Htodo : todo p = []).
  { unfold todo. clear -Hfin. induction Hfin as [|t p Ht _ IH]; [done|].
    rewrite filter_cons, decide_False by (by rewrite Ht). done. }
  rewrite Htodo in Hfinal. cbn in Hfinal. by rewrite <- Hfinal.
Qed.

Lemma in_flight_steps (final : list F) s s' :
  in_flight final s → rtc (step a bdim) s s' → in_flight final s'.
Proof.
  intros Hs Hsteps. induction Hsteps as [|s s' s'' Hstep _ IH]; [done|].
  apply IH. by eapply in_flight_step.
Qed.

(** A launch in flight is never stuck: a thread that has not finished can
    do its reads, or its atomic add. *)
Lemma in_flight_progress (final : list F) p m :
  in_flight final (p, m) → ¬ finished p → ∃ s', step a bdim (p, m) s'.
Proof.
  intros (hc & Hmem & Hlen & Hholds & _) Hnot. cbn [fst snd] in *.
  apply not_Forall_Exists in Hnot; [|intros t; apply _].
  apply Exists_exists in Hnot as (t & Ht & Hdone).
  apply list_elem_of_lookup in Ht as [i Hi].
  pose proof (Forall_lookup_1 _ _ _ _ Hholds Hi) as [Hidx Hop].
  destruct t as [w [ws|]]; cbn [snd] in *.
  - destruct ws as [|op [|? ?]]; [by destruct Hdone| |by cbn in Hop].
    destruct Hop as (j & v & -> & Hj & _).
    destruct (read_lt hc j) as [old Hold]; [lia|].
    eexists. eapply (step_write a bdim p m i w); [done|].
    rewrite Hmem. cbn [exec_write].
    rewrite list_lookup_insert_eq
      by (eapply lookup_lt_Some, (ok_hist _ _ _ Hh)).
    cbn [mbind option_bind]. by rewrite Hold.
  - unfold pool_idx in Hidx. cbn [fst snd] in Hidx.
    pose proof (Hist2D_ok_insert mem a X Y W ex ey h hc Hok Hh) as Hok'.
    assert (Hws : ∃ ws, Hist2D m a w.2 bdim w.1 = Some ws).
    { rewrite Hmem.
      destruct (decide (thread_idx w.2 bdim w.1 < arg_n_evts a)) as [Hlt|Hge].
      - destruct (read_lt X (thread_idx w.2 bdim w.1)) as [x Hx];
          [pose proof (ok_len_X _ _ _ _ _ _ _ Hok); lia|].
        destruct (read_lt Y (thread_idx w.2 bdim w.1)) as [y Hy];
          [pose proof (ok_len_Y _ _ _ _ _ _ _ Hok); lia|].
        destruct (read_lt W (thread_idx w.2 bdim w.1)) as [v Hv];
          [pose proof (ok_len_W _ _ _ _ _ _ _ Hok); lia|].
        eexists. by apply (Hist2D_event _ a X Y W ex ey w.2 bdim w.1 x y v).
      - eexists. apply Hist2D_idle. lia. }
    destruct Hws as [ws Hws]. eexists. by eapply (step_reads a bdim p m i w).
Qed.

(** Every complete interleaving of the reads and the atomic adds of the
    threads leaves the histogram of the sequential accumulation. *)
Lemma interleaving_result (schedule : list (Z * Z)) p m :
  Forall (λ w, 0 ≤ thread_idx w.2 bdim w.1) schedule →
  rtc (step a bdim) (started schedule, mem) (p, m) → finished p →
  m = <[arg_hist a :=
         foldl (thread_effect a X Y W ex ey) h
           ((λ w, thread_idx w.2 bdim w.1) <$> schedule)]> mem.
Proof.
  intros Hidx Hsteps Hfin.
  apply (in_flight_finished _ p); [|done].
  eapply in_flight_steps; [|done]. by apply in_flight_started.
Qed.
End Interleaving_proofs.

(** C5 — writes of an accumulation pass.  Whatever device memory holds,
    every write of every thread of [Hist2D] is an atomic add and its target
    is the histogram buffer: no other buffer is written and no plain store
    is made.  With the atomic add as one indivisible step, a launch is run
    as any interleaving of the reads and of the atomic adds of its threads:
    it is never stuck, and, in exact arithmetic, every complete interleaving
    leaves the memory that running the threads one after the other leaves;
    no addition is lost, and only the histogram buffer differs from the
    initial memory. *)
Theorem Hist2D_atomic_accumulation `{!FType F, !FOrder F, !FExact F}
    (mem : device F) (a : Hist2D_args) (X Y W ex ey h : list F) (bdim : Z)
    (schedule : list (Z * Z)) :
  Hist2D_ok mem a X Y W ex ey → hist_ok mem a h →
  bins_fit (arg_n_bins_x a) (arg_n_bins_y a) →
  Forall (λ w, 0 ≤ thread_idx w.2 bdim w.1) schedule →
  (∀ (m : device F) tid bid ws,
      Hist2D m a tid bdim bid = Some ws →
      Forall (λ w, is_atomic_add w = true ∧ write_target w = arg_hist a) ws) ∧
  ∃ final,
    run_schedule a bdim schedule mem = Some (<[arg_hist a := final]> mem) ∧
    ∀ p m, rtc (step a bdim) (started schedule, mem) (p, m) →
      (finished p → m = <[arg_hist a := final]> mem) ∧
      (¬ finished p → ∃ s', step a bdim (p, m) s').
Proof.
  intros Hok Hh Hfit Hidx. split.
  - intros m tid bid ws. apply Hist2D_writes.
  - eexists. split; [by apply (run_schedule_spec a X Y W ex ey)|].
    intros p m Hsteps. split.
    + intros Hfin. by eapply interleaving_result.
    + apply (in_flight_progress a bdim mem X Y W ex ey h Hok Hh Hfit
               (foldl (thread_effect a X Y W ex ey) h
                  ((λ w, thread_idx w.2 bdim w.1) <$> schedule)) p m).
      eapply in_flight_steps; [done..| |done]. by apply in_flight_started.
Qed.

Lemma Hist2D_atomic_accumulation_witness :
  (∀ (m : device Z) tid bid ws,
      Hist2D m demo_args tid 256 bid = Some ws →
      Forall (λ w, is_atomic_add w = true ∧ write_target w = arg_hist demo_args) ws) ∧
  ∃ final,
    run_schedule demo_args 256 [(0, 1); (0, 2); (0, 3)] demo_mem
    = Some (<[arg_hist demo_args := final]> demo_mem) ∧
    ∀ p m, rtc (step demo_args 256) (started [(0, 1); (0, 2); (0, 3)], demo_mem) (p, m) →
      (finished p → m = <[arg_hist demo_args := final]> demo_mem) ∧
      (¬ finished p → ∃ s', step demo_args 256 (p, m) s').
Proof.
  apply (Hist2D_atomic_accumulation demo_mem demo_args demo_X demo_Y demo_W
           demo_edges demo_edges (zeros 9) 256 [(0, 1); (0, 2); (0, 3)]).
  - apply demo_Hist2D_ok.
  - apply demo_hist_ok.
  - apply demo_bins_fit.
  - repeat constructor; vm_compute; discriminate.
Defined.

(** An interleaving of the small launch: thread 2 reads, thread 1 reads,
    thread 1 adds, thread 3 reads and adds, thread 2 adds last. *)
Example demo_interleaving :
  ∃ p, rtc (step demo_args 256) (started [(0, 1); (0, 2); (0, 3)], demo_mem)
         (p, demo_mem') ∧ finished p.
Proof.
  eexists. split.
  - eapply rtc_l; [apply (step_reads _ _ _ _ 1%nat (0, 2)); reflexivity|].
    eapply rtc_l; [apply (step_reads _ _ _ _ 0%nat (0, 1)); reflexivity|].
    eapply rtc_l; [eapply (step_write _ _ _ _ 0%nat (0, 1)); reflexivity|].
    eapply rtc_l; [apply (step_reads _ _ _ _ 2%nat (0, 3)); reflexivity|].
    eapply rtc_l; [eapply (step_write _ _ _ _ 2%nat (0, 3)); reflexivity|].
    eapply rtc_l; [eapply (step_write _ _ _ _ 1%nat (0, 2)); reflexivity|].
    apply rtc_refl.
  - repeat constructor.
Qed.

(** * Further properties of the bin search *)

Section GetBin_outside.
Context `{FOrder F}.

(** Below every edge the search walks left, and ends on bin 0. *)
Lemma GetBin_loop_left (x : F) (n : Z) (edges : list F) :
  edges_of n edges → n ≤ MAX_BINS →
  (∀ k e, read edges k = Some e → fle e x = false) →
  ∀ (fuel : nat) (last : Z) (b0 : option Z),
    0 ≤ last ≤ n - 1 → last < Z.of_nat fuel →
    GetBin_loop fuel x n edges 0 last b0 = Some 0.
Proof.
  intros (Hn & Hlen & _) Hmax Hbelow. unfold MAX_BINS in Hmax.
  induction fuel as [|fuel IH]; intros last b0 Hlast Hfuel; [lia|].
  cbn [GetBin_loop]. rewrite (proj2 (Z.leb_le 0 last)) by lia.
  rewrite cint_Some by (unfold INT_MIN, INT_MAX; lia). cbn [mbind option_bind].
  pose proof (quot2_between 0 last ltac:(lia)) as Hq.
  set (bin := (0 + last) `quot` 2) in *.
  destruct (read_lt edges bin) as [e He]; [lia|]. rewrite He. cbn [mbind option_bind].
  rewrite (Hbelow bin e He).
  rewrite cint_Some by (unfold INT_MIN, INT_MAX; lia). cbn [mbind option_bind].
  destruct (decide (bin = 0)) as [Hb|Hb].
  - rewrite Hb. destruct fuel; cbn [GetBin_loop];
      by rewrite (proj2 (Z.leb_gt 0 (0 - 1))) by lia.
  - apply IH; lia.
Qed.

(** Above every edge the search walks right, and ends on the last bin. *)
Lemma GetBin_loop_right (x : F) (n : Z) (edges : list F) :
  edges_of n edges → n ≤ MAX_BINS →
  (∀ k e, read edges k = Some e → fle e x = true ∧ flt x e = false ∧ fle x e = false) →
  ∀ (fuel : nat) (first : Z) (b0 : option Z),
    0 ≤ first ≤ n - 1 → n - 1 - first < Z.of_nat fuel →
    GetBin_loop fuel x n edges first (n - 1) b0 = Some (n - 1).
Proof.
  intros (Hn & Hlen & _) Hmax Habove. unfold MAX_BINS in Hmax.
  induction fuel as [|fuel IH]; intros first b0 Hfirst Hfuel; [lia|].
  cbn [GetBin_loop]. rewrite (proj2 (Z.leb_le first (n - 1))) by lia.
  rewrite cint_Some by (unfold INT_MIN, INT_MAX; lia). cbn [mbind option_bind].
  pose proof (quot2_between first (n - 1) ltac:(lia)) as Hq.
  set (bin := (first + (n - 1)) `quot` 2) in *.
  destruct (read_lt edges bin) as [e He]; [lia|]. rewrite He. cbn [mbind option_bind].
  destruct (Habove bin e He) as (-> & _ & _).
  rewrite cint_Some by (unfold INT_MIN, INT_MAX; lia). cbn [mbind option_bind].
  destruct (read_lt edges (bin + 1)) as [e1 He1]; [lia|]. rewrite He1.
  cbn [mbind option_bind].
  destruct (Habove (bin + 1) e1 He1) as (_ & -> & _).
  destruct (read_lt edges n) as [en Hen]; [lia|]. rewrite Hen.
  cbn [mbind option_bind].
  destruct (Habove n en Hen) as (_ & _ & ->). cbn [andb].
  destruct (decide (bin = n - 1)) as [Hb|Hb].
  - rewrite Hb. destruct fuel; cbn [GetBin_loop];
      by rewrite (proj2 (Z.leb_gt (n - 1 + 1) (n - 1))) by lia.
  - apply IH; lia.
Qed.
End GetBin_outside.

(** X1 — [GetBin] outside of the range.  [GetBin] has no out-of-range
    result of its own.  For strictly increasing edges, a coordinate that is
    not at or above the first edge (below the range, or a NaN) is given
    bin 0, and a coordinate above the last edge is given the last bin: only
    the range test of [Hist2D] keeps such events out of the histogram. *)
Theorem GetBin_outside_range `{FOrder F} (n : Z) (edges : list F) (x e0 en : F) :
  edges_of n edges → n ≤ MAX_BINS →
  read edges 0 = Some e0 → read edges n = Some en →
  (fle e0 x = false → GetBin x n edges = Some 0) ∧
  (fle e0 x = true → fle x en = false → GetBin x n edges = Some (n - 1)) ∧
  (fle e0 x = false ∨ fle x en = false → in_range x n edges = false).
Proof.
  intros Hedges Hmax He0 Hen. pose proof Hedges as (Hn & Hlen & Hinc).
  assert (Hcint : cint (n - 1) = Some (n - 1)).
  { apply cint_Some. unfold INT_MIN, INT_MAX, MAX_BINS in *. lia. }
  split; [|split].
  - intros Hbelow. unfold GetBin. rewrite Hcint. cbn [mbind option_bind].
    apply GetBin_loop_left; [done|done| |lia|lia].
    intros k e He. destruct (fle e x) eqn:Hex; [|done].
    rewrite <- Hbelow. symmetry. apply (fle_trans e0 e x); [|done].
    pose proof (read_bound _ _ _ He).
    apply read_Some in He as [_ He], He0 as [_ He0].
    apply (strictly_increasing_le edges (Z.to_nat 0) (Z.to_nat k)); auto; lia.
  - intros Hlow Habove. unfold GetBin. rewrite Hcint. cbn [mbind option_bind].
    assert (Hx : fnum x) by (by eapply fle_num_r).
    assert (Hnx : flt en x = true).
    { apply fnum_fle_false; [done| |done]. by eapply edges_fnum. }
    assert (Hle : ∀ k e, read edges k = Some e → fle e en = true).
    { intros k e He. pose proof (read_bound _ _ _ He).
      apply read_Some in He as [_ He]. apply read_Some in Hen as [_ Hen'].
      apply (strictly_increasing_le edges (Z.to_nat k) (Z.to_nat n)); auto; lia. }
    apply GetBin_loop_right; [done|done| |lia|lia].
    intros k e He. pose proof (Hle k e He) as Hke.
    assert (Hex : fle e x = true).
    { apply (fle_trans e en x); [done|]. by apply flt_fle. }
    assert (Hxe : fle x e = false).
    { destruct (fle x e) eqn:Hxe; [|done].
      rewrite <- Habove. symmetry. by apply (fle_trans x e en). }
    split; [done|]. split; [|done].
    destruct (flt x e) eqn:Hlt; [|done].
    apply flt_fle in Hlt. congruence.
  - intros Hout. unfold in_range. rewrite He0, Hen.
    destruct Hout as [-> | ->]; [done|]. apply andb_false_r.
Qed.

Lemma GetBin_outside_range_witness :
  (fle 0 (-7) = false → GetBin (-7) 3 demo_edges = Some 0) ∧
  (fle 0 (-7) = true → fle (-7) 3 = false → GetBin (-7) 3 demo_edges = Some (3 - 1)) ∧
  (fle 0 (-7) = false ∨ fle (-7) 3 = false → in_range (-7) 3 demo_edges = false).
Proof.
  apply (GetBin_outside_range 3 demo_edges (-7) 0 3).
  - apply demo_edges_of.
  - unfold MAX_BINS. lia.
  - reflexivity.
  - reflexivity.
Defined.

(** X2 — [GetBin] is monotone.  For strictly increasing edges and two
    coordinates of the range, the bin of the smaller one is not above the
    bin of the larger one. *)
Theorem GetBin_monotone `{FOrder F} (n : Z) (edges : list F) (x y : F) (bx by' : Z) :
  edges_of n edges → n ≤ MAX_BINS →
  in_range x n edges = true → in_range y n edges = true →
  fle x y = true →
  GetBin x n edges = Some bx → GetBin y n edges = Some by' →
  bx ≤ by'.
Proof.
  intros Hedges Hmax Hx Hy Hxy Hbx Hby. pose proof Hedges as (Hn & Hlen & Hinc).
  destruct (GetBin_in_range x n edges Hedges Hmax Hx) as (bx' & Hbx' & Hrx & Hlx).
  destruct (GetBin_in_range y n edges Hedges Hmax Hy) as (by'' & Hby' & Hry & Hly).
  simplify_eq.
  destruct Hlx as (ex & _ & Hex & _ & Hexx & _).
  destruct Hly as (_ & ey1 & _ & Hey1 & _ & Hyup).
  destruct (decide (bx ≤ by')) as [|Hgt]; [done|]. exfalso.
  destruct Hyup as [Hlt|[Hlast _]]; [|lia].
  apply flt_not_fle in Hlt.
  assert (Hle : fle ey1 ex = true).
  { apply read_Some in Hex as [_ Hex], Hey1 as [_ Hey1].
    apply (strictly_increasing_le edges (Z.to_nat (by' + 1)) (Z.to_nat bx));
      auto; lia. }
  rewrite (fle_trans ey1 x y) in Hlt; [done| |done].
  by apply (fle_trans ey1 ex x).
Qed.

Lemma GetBin_monotone_witness : 1 ≤ 2.
Proof.
  apply (GetBin_monotone 3 demo_edges 1 3 1 2).
  - apply demo_edges_of.
  - unfold MAX_BINS. lia.
  - reflexivity.
  - reflexivity.
  - reflexivity.
  - reflexivity.
  - reflexivity.
Defined.

(** X3 — the loop of [GetBin] ends.  Whatever the coordinate and the edges
    (sorted or not, of any length) and from any state of the loop, the
    [while] loop is left within [last - first + 1] iterations, with the
    result [GetBin_loop] gives: it never uses up that many iterations with
    its condition still true.  For [GetBin] itself, which starts from
    [first = 0] and [last = n_bins - 1], these are [n_bins] iterations. *)
Theorem GetBin_terminates `{FType F} (x : F) (n_bins : Z) (bin_edges : list F)
    (fuel : nat) (first last : Z) (bin : option Z) :
  last - first + 1 ≤ Z.of_nat fuel →
  (∃ r, GetBin_run fuel x n_bins bin_edges first last bin = Ends r ∧
        GetBin_loop fuel x n_bins bin_edges first last bin = r) ∧
  (cint (n_bins - 1) = Some last →
   ∃ r, GetBin_run (Z.to_nat n_bins) x n_bins bin_edges 0 last None = Ends r ∧
        GetBin x n_bins bin_edges = r).
Proof.
  assert (Hrun : ∀ (fuel : nat) (first last : Z) (bin : option Z),
    last - first + 1 ≤ Z.of_nat fuel →
    ∃ r, GetBin_run fuel x n_bins bin_edges first last bin = Ends r ∧
         GetBin_loop fuel x n_bins bin_edges first last bin = r).
  { clear. induction fuel as [|fuel IH]; intros first last bin Hf.
    - cbn [GetBin_run GetBin_loop].
      destruct (Z.leb_spec first last); [lia|]. by eexists.
    - cbn [GetBin_run GetBin_loop].
      destruct (Z.leb_spec first last) as [Hfl|]; [|by eexists].
      destruct (cint (first + last)) as [s|] eqn:Hs; [|by eexists].
      apply cint_inv in Hs as ->. cbn [mbind option_bind].
      pose proof (quot2_between first last Hfl) as Hq.
      destruct (read bin_edges ((first + last) `quot` 2)) as [e|]; [|by eexists].
      cbn [mbind option_bind].
      destruct (fle e x).
      + destruct (cint (_ + 1)) as [b1|] eqn:Hb1; [|by eexists].
        apply cint_inv in Hb1 as ->. cbn [mbind option_bind].
        destruct (read bin_edges ((first + last) `quot` 2 + 1)) as [e1|];
          [|by eexists].
        cbn [mbind option_bind].
        destruct (flt x e1); [by eexists|].
        destruct (read bin_edges n_bins) as [en|]; [|by eexists].
        cbn [mbind option_bind].
        destruct (_ && _); [by eexists|]. apply IH. lia.
      + destruct (cint (_ - 1)) as [b1|] eqn:Hb1; [|by eexists].
        apply cint_inv in Hb1 as ->. cbn [mbind option_bind].
        apply IH. lia. }
  intros Hfuel. split; [by apply Hrun|].
  intros Hlast. unfold GetBin. rewrite Hlast. cbn [mbind option_bind].
  apply cint_inv in Hlast as ->. apply Hrun. lia.
Qed.

Lemma GetBin_terminates_witness :
  (∃ r, GetBin_run 3 5 3 [3; 1; 2; 0] 0 2 None = Ends r ∧
        GetBin_loop 3 5 3 [3; 1; 2; 0] 0 2 None = r) ∧
  (cint (3 - 1) = Some 2 →
   ∃ r, GetBin_run (Z.to_nat 3) 5 3 [3; 1; 2; 0] 0 2 None = Ends r ∧
        GetBin 5 3 [3; 1; 2; 0] = r).
Proof.
  apply (GetBin_terminates 5 3 [3; 1; 2; 0] 3 0 2 None). lia.
Defined.

(** * Further properties of the kernel and of its launches *)

Lemma reshape_lookup {A} (rows cols : nat) (l : list A) (r c : nat) :
  (r < rows)%nat → (c < cols)%nat →
  reshape rows cols l !! r ≫= (.!! c) = l !! (c + r * cols)%nat.
Proof.
  revert l r. induction rows as [|rows IH]; intros l r Hr Hc; [lia|].
  destruct r as [|r]; cbn [reshape lookup list_lookup mbind option_bind].
  - rewrite Nat.mul_0_l, Nat.add_0_r. rewrite lookup_take. by case_decide; [|lia].
  - change (reshape rows cols (drop cols l) !! r ≫= (.!! c) = l !! (c + S r * cols)%nat).
    rewrite IH by lia. rewrite lookup_drop. f_equal. lia.
Qed.

Lemma entry_reshape `{FType F} (nx ny bx by' : Z) (h : list F) :
  0 ≤ bx < nx → 0 ≤ by' < ny →
  entry (reshape (Z.to_nat nx) (Z.to_nat ny) h) bx by'
  = h !! Z.to_nat (by' + bx * ny).
Proof.
  intros Hx Hy. unfold entry, read.
  rewrite (proj2 (Z.leb_le 0 bx)) by lia.
  replace (Z.to_nat (by' + bx * ny)) with (Z.to_nat by' + Z.to_nat bx * Z.to_nat ny)%nat
    by nia.
  rewrite <- (reshape_lookup (Z.to_nat nx) (Z.to_nat ny) h (Z.to_nat bx) (Z.to_nat by'))
    by lia.
  destruct (reshape _ _ _ !! Z.to_nat bx) as [row|]; cbn; [|done].
  by rewrite (proj2 (Z.leb_le 0 by')) by lia.
Qed.

Section Cell_proofs.
Context `{!FType F, !FOrder F, !FExact F}.

Lemma in_cell_bin_index nx ny (ex ey : list F) (bx by' : Z) (ev : F * F * F) :
  edges_of nx ex → edges_of ny ey → bins_fit nx ny →
  0 ≤ bx < nx → 0 ≤ by' < ny →
  in_cell nx ny ex ey bx by' ev = true
  ↔ bin_index nx ny ex ey ev.1.1 ev.1.2 = Some (by' + bx * ny).
Proof.
  intros Hex Hey Hfit Hbx Hby. unfold in_cell, event_in_range, bin_index.
  destruct (in_range ev.1.1 nx ex) eqn:Hx; [|by cbn].
  destruct (in_range ev.1.2 ny ey) eqn:Hy; [|by cbn].
  destruct (bin_index_Some nx ny ex ey ev.1.1 ev.1.2 Hex Hey Hfit Hx Hy)
    as (bx' & by'' & Hgx & Hgy & Hrx & Hry & _).
  rewrite Hgx, Hgy. cbn [andb mbind option_bind].
  rewrite andb_true_iff, !bool_decide_eq_true. split.
  - intros [??]. by simplify_eq.
  - intros Heq. injection Heq as Heq.
    assert (bx' = bx) as -> by nia.
    split; f_equal. lia.
Qed.

Lemma cell_content_cons nx ny (ex ey : list F) ev evs bx by' :
  cell_content nx ny ex ey (ev :: evs) bx by'
  = if in_cell nx ny ex ey bx by' ev
    then fadd ev.2 (cell_content nx ny ex ey evs bx by')
    else cell_content nx ny ex ey evs bx by'.
Proof.
  unfold cell_content. destruct (in_cell nx ny ex ey bx by' ev) eqn:Hc.
  - by rewrite filter_cons_True.
  - rewrite filter_cons_False; [done|]. by rewrite Hc.
Qed.

(** Accumulating events from zeros leaves in every cell the sum of the
    weights of its events. *)
Lemma accumulate_cell nx ny (ex ey : list F) (evs : list (F * F * F)) (bx by' : Z) :
  edges_of nx ex → edges_of ny ey → bins_fit nx ny →
  0 ≤ bx < nx → 0 ≤ by' < ny →
  foldl (add_event nx ny ex ey) (zeros (Z.to_nat (nx * ny))) evs
    !! Z.to_nat (by' + bx * ny)
  = Some (cell_content nx ny ex ey evs bx by').
Proof.
  intros Hex Hey Hfit Hbx Hby.
  set (k := Z.to_nat (nx * ny)). set (i := by' + bx * ny).
  assert (Hi : 0 ≤ i < nx * ny) by (unfold i; nia).
  induction evs as [|ev evs IH].
  - cbn. unfold zeros. rewrite lookup_replicate_2 by lia. done.
  - cbn [foldl].
    pose proof (zip_with_fadd_zeros (add_event nx ny ex ey (zeros k) ev)) as Hz.
    rewrite length_add_event in Hz.
    replace (length (zeros k)) with k in Hz by (symmetry; apply length_replicate).
    rewrite <- Hz. clear Hz.
    rewrite foldl_add_event_zip_with, lookup_zip_with, IH.
    cbn [mbind option_bind]. rewrite cell_content_cons.
    pose proof (in_cell_bin_index nx ny ex ey bx by' ev Hex Hey Hfit Hbx Hby) as Hiff.
    fold i in Hiff. unfold add_event.
    destruct (in_cell nx ny ex ey bx by' ev).
    + rewrite (proj1 Hiff eq_refl). unfold add_to_bin.
      rewrite list_lookup_alter. unfold zeros.
      rewrite lookup_replicate_2 by lia. cbn.
      case_decide; [|done]. cbn.
      by rewrite fadd_0_l, fadd_comm.
    + destruct (bin_index nx ny ex ey ev.1.1 ev.1.2) as [j|] eqn:Hj.
      * pose proof (bin_index_range _ _ _ _ _ _ _ Hex Hey Hfit Hj).
        unfold add_to_bin. rewrite list_lookup_alter_ne.
        2:{ intros Heq. assert (j = i) as -> by lia. by destruct Hiff as [_ Hf]; discriminate Hf. }
        unfold zeros. rewrite lookup_replicate_2 by lia. cbn.
        by rewrite fadd_comm, fadd_0_l.
      * unfold zeros. rewrite lookup_replicate_2 by lia. cbn.
        by rewrite fadd_comm, fadd_0_l.
Qed.
End Cell_proofs.

(** X4 — the flat index of an event.  The thread of an event that is in
    range performs exactly one atomic add, of the weight of the event, at
    the flat index [bin_y + bin_x * n_bins_y] of the bins [GetBin] gives in
    the two dimensions.  This index determines the two bins, and it is the
    position of entry [[bin_x][bin_y]] of the array [get_hist] returns: the
    indexing of the kernel and the [reshape] of the host agree. *)
Theorem Hist2D_writes_cell `{FOrder F} (mem : device F) a X Y W ex ey
    (tid bdim bid : Z) (x y w : F) :
  Hist2D_ok mem a X Y W ex ey →
  bins_fit (arg_n_bins_x a) (arg_n_bins_y a) →
  thread_idx tid bdim bid < arg_n_evts a →
  read X (thread_idx tid bdim bid) = Some x →
  read Y (thread_idx tid bdim bid) = Some y →
  read W (thread_idx tid bdim bid) = Some w →
  in_range x (arg_n_bins_x a) ex = true →
  in_range y (arg_n_bins_y a) ey = true →
  ∃ bin_x bin_y i,
    GetBin x (arg_n_bins_x a) ex = Some bin_x ∧
    GetBin y (arg_n_bins_y a) ey = Some bin_y ∧
    i = bin_y + bin_x * arg_n_bins_y a ∧
    Hist2D mem a tid bdim bid = Some [AtomicAdd (arg_hist a) i w] ∧
    i `div` arg_n_bins_y a = bin_x ∧ i `mod` arg_n_bins_y a = bin_y ∧
    ∀ h : list F,
      entry (reshape (Z.to_nat (arg_n_bins_x a)) (Z.to_nat (arg_n_bins_y a)) h)
        bin_x bin_y = read h i.
Proof.
  intros Hok Hfit Hidx HX HY HW Hx Hy.
  destruct (bin_index_Some _ _ ex ey x y (ok_edges_x _ _ _ _ _ _ _ Hok)
              (ok_edges_y _ _ _ _ _ _ _ Hok) Hfit Hx Hy)
    as (bx & by' & Hgx & Hgy & Hrx & Hry & Hbi).
  exists bx, by', (by' + bx * arg_n_bins_y a). repeat split; try done.
  - rewrite (Hist2D_event mem a X Y W ex ey tid bdim bid x y w) by done.
    by rewrite Hbi.
  - rewrite Z.div_add by lia. rewrite Z.div_small by lia. lia.
  - rewrite Z.mod_add by lia. apply Z.mod_small. lia.
  - intros h. rewrite entry_reshape by lia. unfold read.
    by rewrite (proj2 (Z.leb_le 0 _)) by nia.
Qed.

Lemma Hist2D_writes_cell_witness :
  ∃ bin_x bin_y i,
    GetBin 1 (arg_n_bins_x demo_args) demo_edges = Some bin_x ∧
    GetBin 3 (arg_n_bins_y demo_args) demo_edges = Some bin_y ∧
    i = bin_y + bin_x * arg_n_bins_y demo_args ∧
    Hist2D demo_mem demo_args 1 256 0 = Some [AtomicAdd (arg_hist demo_args) i 7] ∧
    i `div` arg_n_bins_y demo_args = bin_x ∧ i `mod` arg_n_bins_y demo_args = bin_y ∧
    ∀ h : list Z,
      entry (reshape (Z.to_nat (arg_n_bins_x demo_args))
               (Z.to_nat (arg_n_bins_y demo_args)) h) bin_x bin_y = read h i.
Proof.
  apply (Hist2D_writes_cell demo_mem demo_args demo_X demo_Y demo_W
           demo_edges demo_edges 1 256 0 1 3 7).
  - apply demo_Hist2D_ok.
  - apply demo_bins_fit.
  - vm_compute. reflexivity.
  - reflexivity.
  - reflexivity.
  - reflexivity.
  - reflexivity.
  - reflexivity.
Defined.

(** X5 — the cells of the array [get_hist] returns.  On well-formed buffers,
    up to [2^23] events and for exact sums, entry [[bin_x][bin_y]] of the
    returned array is the sum of the weights of the events that are in range
    and that [GetBin] places in bin [bin_x] of the first dimension and
    [bin_y] of the second, whatever the device histogram held before. *)
Theorem get_hist_cell_content `{!FType F, !FOrder F, !FExact F}
    (self : GPUhist F) (n_evts : Z) (d_x d_y d_w : nat)
    (mem : device F) (X Y W ex ey h0 : list F) :
  Hist2D_ok mem (get_hist_args self n_evts d_x d_y d_w) X Y W ex ey →
  hist_ok mem (get_hist_args self n_evts d_x d_y d_w) h0 →
  bins_fit (n_bins_x self) (n_bins_y self) →
  1 ≤ n_evts ≤ 2 ^ 23 →
  ∃ r self' mem',
    get_hist self n_evts d_x d_y d_w mem = Some (r, self', mem') ∧
    ∀ bin_x bin_y, 0 ≤ bin_x < n_bins_x self → 0 ≤ bin_y < n_bins_y self →
      entry r bin_x bin_y
      = Some (cell_content (n_bins_x self) (n_bins_y self) ex ey
                (events X Y W n_evts) bin_x bin_y).
Proof.
  intros Hok Hh Hfit Hn.
  pose proof (get_hist_spec self n_evts d_x d_y d_w mem X Y W ex ey h0 Hok Hh Hfit Hn)
    as Hspec. cbv zeta in Hspec.
  eexists _, _, _. split; [exact Hspec|].
  intros bx by' Hbx Hby. rewrite entry_reshape by done.
  apply accumulate_cell; try done.
  - apply (ok_edges_x _ _ _ _ _ _ _ Hok).
  - apply (ok_edges_y _ _ _ _ _ _ _ Hok).
Qed.

Lemma get_hist_cell_content_witness :
  ∃ r self' mem',
    get_hist demo_self 4 3 4 5 demo_mem = Some (r, self', mem') ∧
    ∀ bin_x bin_y, 0 ≤ bin_x < 3 → 0 ≤ bin_y < 3 →
      entry r bin_x bin_y
      = Some (cell_content 3 3 demo_edges demo_edges
                (events demo_X demo_Y demo_W 4) bin_x bin_y).
Proof.
  apply (get_hist_cell_content demo_self 4 3 4 5 demo_mem demo_X demo_Y demo_W
           demo_edges demo_edges (zeros 9)).
  - apply demo_Hist2D_ok.
  - apply demo_hist_ok.
  - apply demo_bins_fit.
  - lia.
Defined.

(** X6 — the [__main__] block end to end.  For strictly increasing edges
    (at least one bin per axis, index arithmetic within [int]), two
    coordinate arrays of the same length with at most [2^23] events and
    exact sums, building the histogrammer and calling [get_hist] returns an
    array of [n_bins_x] rows whose entry [[bin_x][bin_y]] is the sum of the
    unit weights of the events of that cell: no condition on the device
    memory is left to the caller. *)
Theorem main_counts `{!FType F, !FOrder F, !FExact F}
    (e cz bin_edges_e bin_edges_cz : list F) (nx ny : Z) :
  edges_of nx bin_edges_e → edges_of ny bin_edges_cz → bins_fit nx ny →
  length cz = length e → 1 ≤ Z.of_nat (length e) ≤ 2 ^ 23 →
  ∃ r, main e cz bin_edges_e bin_edges_cz = Some r ∧
    Z.of_nat (length r) = nx ∧
    ∀ bin_x bin_y, 0 ≤ bin_x < nx → 0 ≤ bin_y < ny →
      entry r bin_x bin_y
      = Some (cell_content nx ny bin_edges_e bin_edges_cz
                (zip (zip e cz) (replicate (length e) fone)) bin_x bin_y).
Proof.
  intros Hex Hey Hfit Hlen Hn.
  pose proof Hex as (Hnx & Hlx & _). pose proof Hey as (Hny & Hly & _).
  pose proof Hfit as (Hfx & Hfy & _).
  unfold main. rewrite cint_Some by (unfold INT_MIN, INT_MAX; lia).
  cbn [mbind option_bind]. rewrite (proj2 (Z.leb_le 1 _)) by lia.
  rewrite Nat2Z.id. unfold GPUhist_init.
  replace (Z.of_nat (length bin_edges_e) - 1) with nx by lia.
  replace (Z.of_nat (length bin_edges_cz) - 1) with ny by lia.
  rewrite !cint_Some by (unfold INT_MIN, INT_MAX; lia).
  cbn [mbind option_bind mem_alloc app length].
  rewrite (proj2 (Z.leb_le 1 nx)), (proj2 (Z.leb_le 1 ny)) by lia.
  cbn [andb mbind option_bind].
  set (w := replicate (length e) fone).
  set (k := Z.to_nat (nx * ny)).
  set (self := {| n_bins_x := nx; n_bins_y := ny; hist2d := zeros k;
                  d_hist2d := 3; d_bin_edges_x := 4; d_bin_edges_y := 5 |}).
  set (mem := [e; cz; w; zeros k; bin_edges_e; bin_edges_cz]).
  assert (Hok : Hist2D_ok mem (get_hist_args self (Z.of_nat (length e)) 0 1 2)
                  e cz w bin_edges_e bin_edges_cz).
  { split; try done; cbn; try lia. unfold w. rewrite length_replicate. lia. }
  assert (Hh : hist_ok mem (get_hist_args self (Z.of_nat (length e)) 0 1 2) (zeros k)).
  { split; try done. cbn. unfold zeros, k. rewrite length_replicate. lia. }
  pose proof (get_hist_spec self _ 0%nat 1%nat 2%nat mem e cz w _ _ (zeros k) Hok Hh Hfit Hn)
    as Hspec. cbv zeta in Hspec.
  eexists. split; [|split].
  - rewrite Hspec. reflexivity.
  - cbn. rewrite length_reshape. lia.
  - intros bx by' Hbx Hby. cbn [fst n_bins_x n_bins_y self].
    rewrite entry_reshape by done.
    unfold self, k. cbn [n_bins_x n_bins_y].
    rewrite accumulate_cell by done. do 2 f_equal.
    unfold events. rewrite Nat2Z.id. apply take_ge.
    rewrite !length_zip. unfold w. rewrite length_replicate. lia.
Qed.

Lemma main_counts_witness :
  ∃ r, main [1; 3; 2] [3; 3; 1] demo_edges demo_edges = Some r ∧
    Z.of_nat (length r) = 3 ∧
    ∀ bin_x bin_y, 0 ≤ bin_x < 3 → 0 ≤ bin_y < 3 →
      entry r bin_x bin_y
      = Some (cell_content 3 3 demo_edges demo_edges
                (zip (zip [1; 3; 2] [3; 3; 1]) (replicate (length [1; 3; 2]) fone))
                bin_x bin_y).
Proof.
  apply (main_counts [1; 3; 2] [3; 3; 1] demo_edges demo_edges 3 3).
  - apply demo_edges_of.
  - apply demo_edges_of.
  - apply demo_bins_fit.
  - reflexivity.
  - cbn. lia.
Defined.

(** X7 — a launch adds to what the buffer holds.  On well-formed buffers,
    for any launch configuration that covers the events without index
    overflow and for exact sums, the kernel leaves in the histogram buffer
    the sum, entry by entry, of its previous content and of the histogram
    of the events: without the [clear] of [get_hist], a second launch would
    count the events twice. *)
Theorem launch_Hist2D_accumulates `{!FType F, !FOrder F, !FExact F}
    (mem : device F) a (X Y W ex ey h : list F) (bdim gdim : Z) :
  Hist2D_ok mem a X Y W ex ey → hist_ok mem a h →
  bins_fit (arg_n_bins_x a) (arg_n_bins_y a) →
  1 ≤ bdim ≤ 1024 → 1 ≤ gdim ≤ INT_MAX →
  arg_n_evts a ≤ bdim * gdim ≤ 2 ^ 31 →
  launch_Hist2D a bdim gdim mem
  = Some (<[arg_hist a :=
             zip_with fadd h
               (foldl (add_event (arg_n_bins_x a) (arg_n_bins_y a) ex ey)
                  (zeros (length h)) (events X Y W (arg_n_evts a)))]> mem).
Proof.
  intros Hok Hh Hfit Hb Hg Hcover.
  rewrite (launch_Hist2D_spec mem a X Y W ex ey h bdim gdim) by done.
  do 2 f_equal.
  rewrite <- (zip_with_fadd_zeros h) at 1.
  rewrite foldl_add_event_zip_with. apply zip_with_fadd_comm.
Qed.

Lemma launch_Hist2D_accumulates_witness :
  launch_Hist2D demo_args 256 1 demo_mem
  = Some (<[arg_hist demo_args :=
             zip_with fadd (zeros 9)
               (foldl (add_event (arg_n_bins_x demo_args) (arg_n_bins_y demo_args)
                         demo_edges demo_edges)
                  (zeros (length (zeros 9 : list Z)))
                  (events demo_X demo_Y demo_W (arg_n_evts demo_args)))]> demo_mem).
Proof.
  apply (launch_Hist2D_accumulates demo_mem demo_args demo_X demo_Y demo_W
           demo_edges demo_edges (zeros 9) 256 1).
  - apply demo_Hist2D_ok.
  - apply demo_hist_ok.
  - apply demo_bins_fit.
  - lia.
  - unfold INT_MAX. lia.
  - cbn. lia.
Defined.

(** X8 — the launch configuration does not matter.  On well-formed buffers,
    two launches of the kernel on the same memory with different block and
    grid sizes leave the same memory, as long as each grid covers the events
    and stays below [2^31] threads. *)
Theorem launch_Hist2D_any_config `{FOrder F}
    (mem : device F) a (X Y W ex ey h : list F) (bdim gdim bdim' gdim' : Z) :
  Hist2D_ok mem a X Y W ex ey → hist_ok mem a h →
  bins_fit (arg_n_bins_x a) (arg_n_bins_y a) →
  1 ≤ bdim ≤ 1024 → 1 ≤ gdim ≤ INT_MAX → arg_n_evts a ≤ bdim * gdim ≤ 2 ^ 31 →
  1 ≤ bdim' ≤ 1024 → 1 ≤ gdim' ≤ INT_MAX → arg_n_evts a ≤ bdim' * gdim' ≤ 2 ^ 31 →
  launch_Hist2D a bdim gdim mem = launch_Hist2D a bdim' gdim' mem
  ∧ is_Some (launch_Hist2D a bdim gdim mem).
Proof.
  intros Hok Hh Hfit Hb Hg Hcover Hb' Hg' Hcover'.
  rewrite (launch_Hist2D_spec mem a X Y W ex ey h bdim gdim) by done.
  rewrite (launch_Hist2D_spec mem a X Y W ex ey h bdim' gdim') by done.
  split; [done|]. by eexists.
Qed.

Lemma launch_Hist2D_any_config_witness :
  launch_Hist2D demo_args 256 1 demo_mem = launch_Hist2D demo_args 2 2 demo_mem
  ∧ is_Some (launch_Hist2D demo_args 256 1 demo_mem).
Proof.
  apply (launch_Hist2D_any_config demo_mem demo_args demo_X demo_Y demo_W
           demo_edges demo_edges (zeros 9) 256 1 2 2).
  - apply demo_Hist2D_ok.
  - apply demo_hist_ok.
  - apply demo_bins_fit.
  - lia.
  - unfold INT_MAX. lia.
  - cbn. lia.
  - lia.
  - unfold INT_MAX. lia.
  - cbn. lia.
Defined.

(** X9 — the order of the events does not matter.  For exact sums, two
    samples that hold the same events (coordinates with their weight) in a
    different order give the same histogram: launched with the same edges
    on the same previous content, the kernel leaves the same buffer. *)
Theorem launch_Hist2D_event_order `{!FType F, !FOrder F, !FExact F}
    (mem mem' : device F) a (X Y W X' Y' W' ex ey h : list F) (bdim gdim : Z) :
  Hist2D_ok mem a X Y W ex ey → hist_ok mem a h →
  Hist2D_ok mem' a X' Y' W' ex ey → hist_ok mem' a h →
  bins_fit (arg_n_bins_x a) (arg_n_bins_y a) →
  1 ≤ bdim ≤ 1024 → 1 ≤ gdim ≤ INT_MAX → arg_n_evts a ≤ bdim * gdim ≤ 2 ^ 31 →
  events X Y W (arg_n_evts a) ≡ₚ events X' Y' W' (arg_n_evts a) →
  ∃ m m' h',
    launch_Hist2D a bdim gdim mem = Some m ∧
    launch_Hist2D a bdim gdim mem' = Some m' ∧
    m !! arg_hist a = Some h' ∧ m' !! arg_hist a = Some h'.
Proof.
  intros Hok Hh Hok' Hh' Hfit Hb Hg Hcover Hperm.
  rewrite (launch_Hist2D_spec mem a X Y W ex ey h bdim gdim) by done.
  rewrite (launch_Hist2D_spec mem' a X' Y' W' ex ey h bdim gdim) by done.
  eexists _, _, _. split; [done|]. split; [done|].
  pose proof (lookup_lt_Some _ _ _ (ok_hist _ _ _ Hh)).
  pose proof (lookup_lt_Some _ _ _ (ok_hist _ _ _ Hh')).
  rewrite !list_lookup_insert_eq by done. split; [done|]. f_equal.
  symmetry. apply foldl_permutation; [|done].
  intros b e1 e2. apply add_event_comm.
Qed.

Lemma launch_Hist2D_event_order_witness :
  ∃ m m' h',
    launch_Hist2D demo_args 256 1 demo_mem = Some m ∧
    launch_Hist2D demo_args 256 1
      [zeros 9; demo_edges; demo_edges; reverse demo_X; reverse demo_Y; reverse demo_W]
      = Some m' ∧
    m !! arg_hist demo_args = Some h' ∧ m' !! arg_hist demo_args = Some h'.
Proof.
  apply (launch_Hist2D_event_order demo_mem
           [zeros 9; demo_edges; demo_edges; reverse demo_X; reverse demo_Y; reverse demo_W]
           demo_args demo_X demo_Y demo_W (reverse demo_X) (reverse demo_Y) (reverse demo_W)
           demo_edges demo_edges (zeros 9) 256 1).
  - apply demo_Hist2D_ok.
  - apply demo_hist_ok.
  - split; try reflexivity; try (cbn; lia); apply demo_edges_of.
  - split; try reflexivity; cbn; lia.
  - apply demo_bins_fit.
  - lia.
  - unfold INT_MAX. lia.
  - cbn. lia.
  - vm_compute. symmetry. apply (reverse_Permutation [(-1, 0, 5); (1, 3, 7); (3, 3, 11); (2, 1, 13)]).
Defined.

Lemma length_workers (block grid : Z) :
  Z.of_nat (length (workers block grid)) = Z.max 0 grid * Z.max 0 block.
Proof.
  unfold workers.
  assert (Hl : ∀ l : list Z,
    length (l ≫= λ b, (λ t, (b, t)) <$> seqZ 0 block)
    = (length l * Z.to_nat block)%nat).
  { induction l as [|b l IH]; [done|]. cbn [mbind list_bind].
    change (length (((λ t, (b, t)) <$> seqZ 0 block) ++
                    (l ≫= λ b, (λ t, (b, t)) <$> seqZ 0 block))
            = (S (length l) * Z.to_nat block)%nat).
    rewrite length_app, length_fmap, length_seqZ, IH. lia. }
  rewrite Hl, length_seqZ. lia.
Qed.

(** X10 — the grid of [get_hist] is oversized.  [get_hist] passes as the
    number of blocks the number of events rounded up to a multiple of the
    block size, not the number of blocks that would cover the events: the
    launch has at least 256 threads per event (it does cover the events,
    and at most 255 blocks are added by the rounding). *)
Theorem get_hist_grid_oversized (n_evts : Z) :
  0 ≤ n_evts →
  n_evts ≤ get_hist_gdim n_evts ≤ n_evts + 255 ∧
  get_hist_gdim n_evts `mod` get_hist_bdim = 0 ∧
  Z.of_nat (length (workers get_hist_bdim (get_hist_gdim n_evts)))
  = get_hist_bdim * get_hist_gdim n_evts ∧
  get_hist_bdim * n_evts
  ≤ Z.of_nat (length (workers get_hist_bdim (get_hist_gdim n_evts))).
Proof.
  intros Hn. rewrite length_workers. unfold get_hist_gdim, get_hist_bdim.
  pose proof (Z.div_mod n_evts 256 ltac:(lia)) as Hdm.
  pose proof (Z.mod_pos_bound n_evts 256 ltac:(lia)) as Hm.
  cbv zeta. rewrite Z.mod_mul by lia.
  destruct (Z.ltb_spec 0 (n_evts `mod` 256)); lia.
Qed.

Lemma get_hist_grid_oversized_witness :
  1000 ≤ get_hist_gdim 1000 ≤ 1000 + 255 ∧
  get_hist_gdim 1000 `mod` get_hist_bdim = 0 ∧
  Z.of_nat (length (workers get_hist_bdim (get_hist_gdim 1000)))
  = get_hist_bdim * get_hist_gdim 1000 ∧
  get_hist_bdim * 1000
  ≤ Z.of_nat (length (workers get_hist_bdim (get_hist_gdim 1000))).
Proof.
  apply (get_hist_grid_oversized 1000). lia.
Defined.

(** * The number of events [get_hist] accepts *)

Section Domain_proofs.
Context `{FType F}.

(** A thread whose index is negative passes the test [idx < n_evts] and
    reads its coordinate before the start of [X]. *)
Lemma Hist2D_negative_index (mem : device F) a (tid bdim bid : Z) :
  thread_idx tid bdim bid < 0 → 0 ≤ arg_n_evts a →
  Hist2D mem a tid bdim bid = None.
Proof.
  intros Hneg Hn. unfold Hist2D.
  rewrite (proj2 (Z.ltb_lt _ _)) by lia.
  destruct (mem !! arg_X a) as [X|]; [|reflexivity].
  destruct (mem !! arg_Y a) as [Y|]; [|reflexivity].
  destruct (mem !! arg_W a) as [W|]; [|reflexivity].
  destruct (mem !! arg_bin_edges_x a) as [ex|]; [|reflexivity].
  destruct (mem !! arg_bin_edges_y a) as [ey|]; [|reflexivity].
  cbn [mbind option_bind].
  assert (HX : read X (thread_idx tid bdim bid) = None).
  { unfold read. by rewrite (proj2 (Z.leb_gt 0 _)) by lia. }
  by rewrite HX.
Qed.

Lemma run_schedule_None a (bdim : Z) (schedule : list (Z * Z)) (mem : device F) w :
  w ∈ schedule → (∀ m, run_thread a bdim m w = None) →
  run_schedule a bdim schedule mem = None.
Proof.
  intros (l1 & l2 & ->)%list_elem_of_split Hw. unfold run_schedule.
  rewrite foldl_app. cbn [foldl].
  destruct (foldl _ (Some mem) l1) as [m|]; cbn [mbind option_bind].
  - rewrite Hw. apply foldl_mbind_None.
  - apply foldl_mbind_None.
Qed.
End Domain_proofs.

(** X14 — the number of events [get_hist] accepts.  A call of [get_hist]
    returns only for [1 ≤ n_evts ≤ 2^23], whatever the object and the
    device memory.  Without events the grid is empty and the launch is
    refused; beyond [2^23] events the grid has more than [2^23] blocks of
    256 threads, so that the index of some thread is negative as an [int],
    passes the test [idx < n_evts] and is used to read [X] out of bounds. *)
Theorem get_hist_domain `{FType F} (self : GPUhist F) (n_evts : Z)
    (d_x d_y d_w : nat) (mem : device F) :
  is_Some (get_hist self n_evts d_x d_y d_w mem) → 1 ≤ n_evts ≤ 2 ^ 23.
Proof.
  intros [r Hr]. unfold get_hist in Hr.
  destruct (clear self mem) as [[self1 mem1]|]; [|done].
  cbn [mbind option_bind] in Hr.
  destruct (launch_Hist2D _ _ _ mem1) as [mem2|] eqn:Hl; [|done]. clear Hr.
  unfold launch_Hist2D in Hl.
  destruct (_ && _) eqn:Hg; [|done].
  apply andb_prop in Hg as [Hg Hmax]. apply andb_prop in Hg as [_ Hmin].
  apply Z.leb_le in Hmin, Hmax.
  assert (Hpos : 1 ≤ n_evts).
  { destruct (Z.le_gt_cases 1 n_evts) as [|Hle]; [done|]. exfalso.
    unfold get_hist_gdim, get_hist_bdim in Hmin.
    pose proof (Z.div_mod n_evts 256 ltac:(lia)).
    pose proof (Z.mod_pos_bound n_evts 256 ltac:(lia)).
    destruct (Z.ltb_spec 0 (n_evts `mod` 256)); lia. }
  split; [done|].
  destruct (Z.le_gt_cases n_evts (2 ^ 23)) as [|Hbig]; [done|]. exfalso.
  assert (Hgrid : 2 ^ 23 < get_hist_gdim n_evts).
  { unfold get_hist_gdim, get_hist_bdim.
    pose proof (Z.div_mod n_evts 256 ltac:(lia)).
    pose proof (Z.mod_pos_bound n_evts 256 ltac:(lia)).
    destruct (Z.ltb_spec 0 (n_evts `mod` 256)); lia. }
  rewrite (run_schedule_None _ _ _ _ (2 ^ 23, 0)) in Hl; [done| |].
  - apply workers_elem. unfold get_hist_bdim. lia.
  - intros m. unfold run_thread. cbn [fst snd].
    rewrite Hist2D_negative_index; [done| |cbn; lia].
    vm_compute. reflexivity.
Qed.

Lemma get_hist_domain_witness : 1 ≤ 4 ≤ 2 ^ 23.
Proof.
  apply (get_hist_domain demo_self 4 3 4 5 demo_mem).
  vm_compute. eexists. reflexivity.
Defined.

(** * Further properties of the stage *)

Section Loop_proofs.
Context `{FType F} `{EqDecision F}.

(** A loop over the containers whose body replaces the store of the
    container it visits, and no other store. *)
Lemma foldl_containers
    (body : nat → list (Container F) → res (list (Container F)))
    (R : list (Mode F * string * ndarray F) → list (Mode F * string * ndarray F) → Prop) :
  (∀ i cs cs', body i cs = Ok cs' →
     ∃ c st', cs !! i = Some c ∧ R (store c) st' ∧
              store <$> cs' = <[i := st']> (store <$> cs)) →
  ∀ idxs, NoDup idxs →
  ∀ cs cs' : list (Container F),
    foldl (λ acc i, cs ← acc; body i cs) (Ok cs) idxs = Ok cs' →
    ∀ i c, cs !! i = Some c →
      ∃ c', cs' !! i = Some c' ∧
            (i ∈ idxs → R (store c) (store c')) ∧
            (i ∉ idxs → store c' = store c).
Proof.
  intros Hbody_spec idxs.
  induction 1 as [|k idxs Hk Hnd IH]; intros cs cs' Hrun i c Hc.
  - cbn in Hrun. simplify_eq. exists c. split; [done|]. split; [|done].
    by intros ?%elem_of_nil.
  - cbn [foldl mbind res_bind] in Hrun.
    destruct (body k cs) as [cs1|e] eqn:Hbody;
      [|by rewrite foldl_res_Raise in Hrun].
    destruct (Hbody_spec _ _ _ Hbody) as (ck & st' & Hck & Hst & Hstores).
    assert (Hc1 : ∃ c1, cs1 !! i = Some c1 ∧
                        store c1 = if decide (i = k) then st' else store c).
    { assert (Hl : (store <$> cs1) !! i
                   = (<[k := st']> (store <$> cs)) !! i) by (by rewrite Hstores).
      rewrite list_lookup_fmap in Hl.
      destruct (cs1 !! i) as [c1|] eqn:Hc1.
      - exists c1. split; [done|]. cbn in Hl.
        destruct (decide (i = k)) as [->|Hne].
        + rewrite list_lookup_insert_eq in Hl; [by simplify_eq|].
          rewrite length_fmap. by eapply lookup_lt_Some.
        + rewrite list_lookup_insert_ne, list_lookup_fmap, Hc in Hl by done.
          cbn in Hl. by simplify_eq.
      - exfalso. cbn in Hl. symmetry in Hl. apply lookup_ge_None in Hl.
        rewrite length_insert, length_fmap in Hl.
        apply lookup_lt_Some in Hc. lia. }
    destruct Hc1 as (c1 & Hc1 & Hs1).
    destruct (IH cs1 cs' Hrun i c1 Hc1) as (c' & Hc' & Hin & Hout).
    exists c'. split; [done|]. split.
    + intros [->|Hrest]%elem_of_cons.
      * rewrite decide_True in Hs1 by done.
        rewrite (Hout Hk), Hs1. congruence.
      * destruct (decide (i = k)) as [->|Hne]; [done|].
        rewrite <- Hs1. by apply Hin.
    + intros Hni. rewrite not_elem_of_cons in Hni. destruct Hni as [Hne Hni].
      rewrite decide_False in Hs1 by done. rewrite Hout by done. done.
Qed.

Lemma for_containers_stores
    (body : nat → list (Container F) → res (list (Container F)))
    (R : list (Mode F * string * ndarray F) → list (Mode F * string * ndarray F) → Prop) :
  (∀ i cs cs', body i cs = Ok cs' →
     ∃ c st', cs !! i = Some c ∧ R (store c) st' ∧
              store <$> cs' = <[i := st']> (store <$> cs)) →
  ∀ cs cs', for_containers body cs = Ok cs' →
    ∀ i c, cs !! i = Some c → ∃ c', cs' !! i = Some c' ∧ R (store c) (store c').
Proof.
  intros Hbody cs cs' Hrun i c Hc. unfold for_containers in Hrun.
  destruct (foldl_containers body R Hbody (seq 0 (length cs)) (NoDup_seq 0 _)
              cs cs' Hrun i c Hc) as (c' & Hc' & Hin & _).
  exists c'. split; [done|]. apply Hin.
  apply elem_of_seq. apply lookup_lt_Some in Hc. lia.
Qed.

Variable histogram :
  list (ndarray F) → option (ndarray F) → MultiDimBinning F → res (ndarray F).
Variable fsqrt : F → F.

(** What the body of the loop of [setup_function] adds to a store. *)
Definition with_transform (tb : MultiDimBinning F)
    (st st' : list (Mode F * string * ndarray F)) : Prop :=
  ∃ sample h,
    mapM (getitem {| representation := mode_events; store := st |}) (names tb)
      = Ok sample ∧
    histogram sample None tb = Ok h ∧
    st' = ((mode_binning tb, "hist_transform"), h) :: st.

Lemma setup_container_spec (tb : MultiDimBinning F) (i : nat)
    (cs cs' : list (Container F)) :
  setup_container histogram tb i cs = Ok cs' →
  ∃ c st', cs !! i = Some c ∧ with_transform tb (store c) st' ∧
           store <$> cs' = <[i := st']> (store <$> cs).
Proof.
  unfold setup_container. intros Hb. cbv zeta in Hb.
  destruct (cs !! i) as [c|] eqn:Hc.
  2:{ assert (Hn : nth_container i (set_all_representation mode_events cs)
                   = Raise IndexError).
      { unfold nth_container, set_all_representation.
        by rewrite list_lookup_fmap, Hc. }
      by rewrite Hn in Hb. }
  rewrite (proj2 (nth_container_Ok i (set_all_representation mode_events cs)
                    (set_representation mode_events c))) in Hb.
  2:{ unfold set_all_representation. by rewrite list_lookup_fmap, Hc. }
  cbn [mbind res_bind] in Hb.
  destruct (mapM _ (names tb)) as [sample|] eqn:Hs; [|done].
  cbn [mbind res_bind] in Hb.
  destruct (histogram sample None tb) as [h|] eqn:Hh; [|done].
  cbn [mbind res_bind] in Hb.
  rewrite (proj2 (nth_container_Ok i _
             (set_representation (mode_binning tb)
                (set_representation mode_events c)))) in Hb.
  2:{ unfold set_all_representation. by rewrite !list_lookup_fmap, Hc. }
  cbn [mbind res_bind] in Hb. injection Hb as <-.
  exists c. eexists. split; [done|]. split.
  - exists sample, h. split; [exact Hs|]. split; [exact Hh|]. reflexivity.
  - rewrite list_fmap_insert, !store_set_all. done.
Qed.

(** What the body of the loop of [apply_function] adds to a store when
    [calc_mode] is ['events']. *)
Definition with_histogram (self : hist F)
    (st st' : list (Mode F * string * ndarray F)) : Prop :=
  ∃ apply_b sample weights h,
    apply_mode self = mode_binning apply_b ∧
    mapM (getitem {| representation := calc_mode self; store := st |}) (names apply_b)
      = Ok sample ∧
    assoc (calc_mode self, "weights") st = Some weights ∧
    histogram sample (Some weights) apply_b = Ok h ∧
    if decide (error_method self = Some "sumw2") then
      ∃ sumw2, histogram sample (Some (square weights)) apply_b = Ok sumw2 ∧
        st' = ((apply_mode self, "errors"), sqrt_array fsqrt sumw2)
              :: ((apply_mode self, "weights"), h) :: st
    else st' = ((apply_mode self, "weights"), h) :: st.

Lemma apply_container_events_spec (self : hist F) (i : nat)
    (cs cs' : list (Container F)) :
  apply_container_events histogram fsqrt self i cs = Ok cs' →
  ∃ c st', cs !! i = Some c ∧ with_histogram self (store c) st' ∧
           store <$> cs' = <[i := st']> (store <$> cs).
Proof.
  unfold apply_container_events. intros Hb.
  destruct (cs !! i) as [c|] eqn:Hc;
    [|by unfold nth_container in Hb; rewrite Hc in Hb].
  rewrite (proj2 (nth_container_Ok i cs c) Hc) in Hb. cbn [mbind res_bind] in Hb.
  destruct (apply_mode self) as [| |apply_b] eqn:Ham; try done.
  cbn [mbind res_bind] in Hb.
  destruct (mapM _ (names apply_b)) as [sample|] eqn:Hs; [|done].
  cbn [mbind res_bind] in Hb.
  unfold getitem at 1 in Hb. cbn [representation store set_representation] in Hb.
  destruct (assoc (calc_mode self, "weights") (store c)) as [weights|] eqn:Hw; [|done].
  cbn [mbind res_bind] in Hb.
  destruct (histogram sample (Some weights) apply_b) as [h|] eqn:Hh; [|done].
  cbn [mbind res_bind] in Hb.
  exists c. unfold with_histogram. rewrite Ham.
  destruct (decide (error_method self = Some "sumw2")) as [Hem|Hem].
  - destruct (histogram sample (Some (square weights)) apply_b) as [s|] eqn:Hs2; [|done].
    cbn [mbind res_bind] in Hb. injection Hb as <-.
    eexists. split; [done|]. split.
    + exists apply_b, sample, weights, h.
      repeat (split; [done|]). exists s. split; [done|]. reflexivity.
    + by rewrite list_fmap_insert.
  - cbn [mbind res_bind] in Hb. injection Hb as <-.
    eexists. split; [done|]. split.
    + exists apply_b, sample, weights, h.
      repeat (split; [done|]). reflexivity.
    + by rewrite list_fmap_insert.
Qed.
End Loop_proofs.

(** X11 — the transforms [setup_function] builds.  With binnings as
    [calc_mode] and [apply_mode], a call that returns has, for every
    container, read under ['events'] the arrays named by the dimensions of
    the transform binning (those of [calc_mode], then those of
    [apply_mode]), passed them without weights to [histogram], and added the
    result to the container as ['hist_transform'] under the transform
    binning, where it is read back; nothing else of the container changes. *)
Theorem setup_function_transforms `{FType F} `{EqDecision F}
    (histogram : list (ndarray F) → option (ndarray F) → MultiDimBinning F
                 → res (ndarray F))
    (self self' : hist F) (calc_b apply_b : MultiDimBinning F)
    (i : nat) (c : Container F) :
  calc_mode self = mode_binning calc_b →
  apply_mode self = mode_binning apply_b →
  setup_function histogram self = Ok self' →
  data self !! i = Some c →
  ∃ c' sample h,
    data self' !! i = Some c' ∧
    mapM (getitem (set_representation mode_events c))
      (names calc_b ++ names apply_b) = Ok sample ∧
    histogram sample None (binning_add calc_b apply_b) = Ok h ∧
    store c'
    = ((mode_binning (binning_add calc_b apply_b), "hist_transform"), h) :: store c ∧
    getitem (set_representation (mode_binning (binning_add calc_b apply_b)) c')
      "hist_transform" = Ok h.
Proof.
  intros Hcalc Happly Hsetup Hc. unfold setup_function in Hsetup.
  rewrite Hcalc, Happly in Hsetup. case_decide; [|done].
  destruct (for_containers _ (data self)) as [cs|] eqn:Hloop; [|done].
  cbn in Hsetup. injection Hsetup as <-. cbn [data].
  destruct (for_containers_stores _ _
              (setup_container_spec histogram (binning_add calc_b apply_b))
              _ _ Hloop i c Hc) as (c' & Hc' & sample & h & Hs & Hh & Hst).
  exists c', sample, h. split; [done|].
  rewrite <- names_binning_add. split; [exact Hs|]. split; [done|]. split; [done|].
  unfold getitem. cbn [representation store set_representation]. rewrite Hst.
  cbn [assoc]. by rewrite decide_True.
Qed.

Lemma setup_function_transforms_witness :
  ∃ c' sample h,
    data demo_setup_done !! 0%nat = Some c' ∧
    mapM (getitem (set_representation mode_events demo_events_container))
      (names demo_calc ++ names demo_apply) = Ok sample ∧
    demo_histogram_ok sample None (binning_add demo_calc demo_apply) = Ok h ∧
    store c'
    = ((mode_binning (binning_add demo_calc demo_apply), "hist_transform"), h)
      :: store demo_events_container ∧
    getitem (set_representation (mode_binning (binning_add demo_calc demo_apply)) c')
      "hist_transform" = Ok h.
Proof.
  apply (setup_function_transforms demo_histogram_ok demo_setup_stage demo_setup_done
           demo_calc demo_apply 0 demo_events_container).
  - reflexivity.
  - reflexivity.
  - vm_compute. reflexivity.
  - reflexivity.
Defined.

(** X12 — [apply_function] on events.  With ['events'] as [calc_mode], a
    call that returns has, for every container, read under ['events'] the
    arrays named by the dimensions of [apply_mode] and the weights, and
    stored under [apply_mode], as ['weights'], the result of [histogram] on
    them.  With the error method ['sumw2'] it has stored as ['errors'] the
    square root of the histogram of the squared weights; with any other
    error method the errors of the container are left as they were. *)
Theorem apply_function_events `{FType F} `{EqDecision F}
    (histogram : list (ndarray F) → option (ndarray F) → MultiDimBinning F
                 → res (ndarray F))
    (fsqrt : F → F) (self self' : hist F) (i : nat) (c : Container F) :
  calc_mode self = mode_events →
  apply_function histogram fsqrt self = Ok self' →
  data self !! i = Some c →
  ∃ c' apply_b sample weights h,
    data self' !! i = Some c' ∧
    apply_mode self = mode_binning apply_b ∧
    mapM (getitem (set_representation mode_events c)) (names apply_b) = Ok sample ∧
    getitem (set_representation mode_events c) "weights" = Ok weights ∧
    histogram sample (Some weights) apply_b = Ok h ∧
    assoc (apply_mode self, "weights") (store c') = Some h ∧
    (error_method self = Some "sumw2" →
       ∃ sumw2, histogram sample (Some (square weights)) apply_b = Ok sumw2 ∧
         assoc (apply_mode self, "errors") (store c')
         = Some (sqrt_array fsqrt sumw2)) ∧
    (error_method self ≠ Some "sumw2" →
       assoc (apply_mode self, "errors") (store c')
       = assoc (apply_mode self, "errors") (store c)).
Proof.
  intros Hcalc Happly Hc. unfold apply_function in Happly. rewrite Hcalc in Happly.
  destruct (for_containers _ (data self)) as [cs|] eqn:Hloop; [|done].
  cbn in Happly. injection Happly as <-. cbn [data with_data].
  destruct (for_containers_stores _ _
              (apply_container_events_spec histogram fsqrt self)
              _ _ Hloop i c Hc)
    as (c' & Hc' & apply_b & sample & weights & h & Ham & Hs & Hw & Hh & Hst).
  rewrite Hcalc in Hs, Hw.
  exists c', apply_b, sample, weights, h. split; [done|]. split; [done|].
  split; [exact Hs|]. split.
  { unfold getitem. cbn [representation store set_representation]. by rewrite Hw. }
  split; [done|].
  assert (Hne : (apply_mode self, "errors") ≠ (apply_mode self, "weights"))
    by (intros [=]).
  assert (Hne' : (apply_mode self, "weights") ≠ (apply_mode self, "errors"))
    by (intros [=]).
  destruct (decide (error_method self = Some "sumw2")) as [Hem|Hem].
  - destruct Hst as (sumw2 & Hs2 & ->). cbn [assoc].
    rewrite (decide_False _ _ Hne), !decide_True by done.
    split; [done|]. split; [|done]. intros _. by exists sumw2.
  - rewrite Hst. cbn [assoc]. rewrite decide_True, (decide_False _ _ Hne') by done.
    done.
Qed.

Lemma apply_function_events_witness :
  ∃ c' apply_b sample weights h,
    data demo_events_applied !! 0%nat = Some c' ∧
    apply_mode demo_events_stage = mode_binning apply_b ∧
    mapM (getitem (set_representation mode_events demo_events_container))
      (names apply_b) = Ok sample ∧
    getitem (set_representation mode_events demo_events_container) "weights"
      = Ok weights ∧
    demo_histogram_ok sample (Some weights) apply_b = Ok h ∧
    assoc (apply_mode demo_events_stage, "weights") (store c') = Some h ∧
    (error_method demo_events_stage = Some "sumw2" →
       ∃ sumw2, demo_histogram_ok sample (Some (square weights)) apply_b = Ok sumw2 ∧
         assoc (apply_mode demo_events_stage, "errors") (store c')
         = Some (sqrt_array Z.sqrt sumw2)) ∧
    (error_method demo_events_stage ≠ Some "sumw2" →
       assoc (apply_mode demo_events_stage, "errors") (store c')
       = assoc (apply_mode demo_events_stage, "errors") (store demo_events_container)).
Proof.
  apply (apply_function_events demo_histogram_ok Z.sqrt demo_events_stage
           demo_events_applied 0 demo_events_container).
  - reflexivity.
  - vm_compute. reflexivity.
  - reflexivity.
Defined.

(** The transform that [apply_function] multiplies is the one that
    [setup_function] stored. *)
Lemma setup_apply_stores `{FType F} `{EqDecision F}
    (histogram : list (ndarray F) → option (ndarray F) → MultiDimBinning F
                 → res (ndarray F))
    (fsqrt : F → F) (self self1 self2 : hist F) (calc_b apply_b : MultiDimBinning F)
    (i : nat) (c : Container F) :
  calc_mode self = mode_binning calc_b →
  apply_mode self = mode_binning apply_b →
  setup_function histogram self = Ok self1 →
  apply_function histogram fsqrt self1 = Ok self2 →
  data self !! i = Some c →
  ∃ c2 sample transform weights n rows,
    data self2 !! i = Some c2 ∧
    mapM (getitem (set_representation mode_events c))
      (names calc_b ++ names apply_b) = Ok sample ∧
    histogram sample None (binning_add calc_b apply_b) = Ok transform ∧
    getitem (set_representation (mode_binning calc_b) c) "weights" = Ok weights ∧
    shape weights = [n] ∧ nd_reshape transform n = Ok rows ∧
    getitem (set_representation (mode_binning apply_b) c2) "weights"
    = Ok (vector (vecmat (flat weights) rows (n_columns rows))).
Proof.
  intros Hcalc Happly Hsetup Hrun Hc. unfold setup_function in Hsetup.
  rewrite Hcalc, Happly in Hsetup. case_decide; [|done].
  destruct (for_containers _ (data self)) as [cs1|] eqn:Hloop1; [|done].
  cbn in Hsetup. injection Hsetup as <-.
  destruct (for_containers_stores _ _
              (setup_container_spec histogram (binning_add calc_b apply_b))
              _ _ Hloop1 i c Hc) as (c1 & Hc1 & sample & transform & Hs & Hh & Hst).
  unfold apply_function in Hrun. cbn [calc_mode data] in Hrun.
  destruct (for_containers _ cs1) as [cs2|] eqn:Hloop2; [|done].
  cbn in Hrun. injection Hrun as <-. cbn [data with_data].
  unfold for_containers in Hloop2.
  destruct (for_containers_binned fsqrt _ (seq 0 (length cs1)) (NoDup_seq 0 _)
              cs1 cs2 Hloop2 i c1 Hc1) as (c2 & Hc2 & Hin & _).
  assert (Hi : i ∈ seq 0 (length cs1)).
  { apply elem_of_seq. apply lookup_lt_Some in Hc1. lia. }
  specialize (Hin Hi). unfold processed in Hin.
  cbn [calc_mode apply_mode error_method transform_binning] in Hin.
  rewrite Hst in Hin. cbn [assoc] in Hin.
  rewrite decide_False in Hin by (intros [=]).
  destruct (assoc (mode_binning calc_b, "weights") (store c)) as [weights|] eqn:Hw;
    [|done].
  cbn [mbind res_bind] in Hin. rewrite decide_True in Hin by done.
  cbn [mbind res_bind] in Hin.
  destruct (apply_transform (error_method self) weights transform)
    as [[h sumw2]|] eqn:Ha; [|done].
  cbn [mbind res_bind fst snd] in Hin. injection Hin as Hst2.
  destruct (apply_transform_Ok _ _ _ _ _ Ha) as (n & rows & Hshape & Hrows & -> & _).
  exists c2, sample, transform, weights, n, rows. split; [done|].
  rewrite <- names_binning_add. split; [exact Hs|]. split; [done|]. split.
  { unfold getitem. cbn [representation store set_representation]. by rewrite Hw. }
  split; [done|]. split; [done|].
  unfold getitem. cbn [representation store set_representation]. rewrite <- Hst2.
  destruct sumw2; cbn [app assoc].
  - rewrite decide_False by (intros [=]). by rewrite decide_True.
  - by rewrite decide_True.
Qed.

(** X13 — [setup_function] followed by [apply_function].  With binnings as
    [calc_mode] and [apply_mode], when both calls return, the weights stored
    for a container under [apply_mode] are the product of the weights it
    held under [calc_mode] with the transform that [setup_function]
    obtained from [histogram] for the sample of the container, reshaped to
    one row per weight: the transform [apply_function] reads is the one
    [setup_function] wrote. *)
Theorem setup_then_apply `{FType F} `{EqDecision F}
    (histogram : list (ndarray F) → option (ndarray F) → MultiDimBinning F
                 → res (ndarray F))
    (fsqrt : F → F) (self self1 self2 : hist F) (calc_b apply_b : MultiDimBinning F)
    (i : nat) (c : Container F) :
  calc_mode self = mode_binning calc_b →
  apply_mode self = mode_binning apply_b →
  setup_function histogram self = Ok self1 →
  apply_function histogram fsqrt self1 = Ok self2 →
  data self !! i = Some c →
  ∃ c2 sample transform weights n rows,
    data self2 !! i = Some c2 ∧
    mapM (getitem (set_representation mode_events c))
      (names calc_b ++ names apply_b) = Ok sample ∧
    histogram sample None (binning_add calc_b apply_b) = Ok transform ∧
    getitem (set_representation (mode_binning calc_b) c) "weights" = Ok weights ∧
    shape weights = [n] ∧ nd_reshape transform n = Ok rows ∧
    getitem (set_representation (mode_binning apply_b) c2) "weights"
    = Ok (vector (vecmat (flat weights) rows (n_columns rows))).
Proof. apply setup_apply_stores. Qed.

Lemma setup_then_apply_witness :
  ∃ c2 sample transform weights n rows,
    data demo_setup_applied !! 0%nat = Some c2 ∧
    mapM (getitem (set_representation mode_events demo_events_container))
      (names demo_calc ++ names demo_apply) = Ok sample ∧
    demo_histogram_ok sample None (binning_add demo_calc demo_apply) = Ok transform ∧
    getitem (set_representation (mode_binning demo_calc) demo_events_container)
      "weights" = Ok weights ∧
    shape weights = [n] ∧ nd_reshape transform n = Ok rows ∧
    getitem (set_representation (mode_binning demo_apply) c2) "weights"
    = Ok (vector (vecmat (flat weights) rows (n_columns rows))).
Proof.
  apply (setup_then_apply demo_histogram_ok Z.sqrt demo_setup_stage demo_setup_done
           demo_setup_applied demo_calc demo_apply 0 demo_events_container).
  - reflexivity.
  - reflexivity.
  - vm_compute. reflexivity.
  - vm_compute. reflexivity.
  - reflexivity.
Defined.

(** * The transform of the stage against the histogram of the events *)

Section Product_proofs.
Context `{!FType F, !FFinite F}.

Lemma dot_zeros (w : list F) (k : nat) :
  Forall (λ v, ffinite v = true) w → dot w (replicate k fzero) = fzero.
Proof.
  intros Hw. revert k. induction Hw as [|a w Ha _ IH]; intros [|k]; try done.
  cbn [replicate]. rewrite dot_cons, IH, fprod_0_r by done. apply fsum_0_l.
Qed.

Lemma dot_alter (w col : list F) (i : nat) (wi : F) :
  length col = length w → w !! i = Some wi → ffinite wi = true →
  dot w (alter (λ c, fadd c fone) i col) = fadd (dot w col) wi.
Proof.
  revert col i. induction w as [|a w IH]; intros [|c col] i Hlen Hi Hfin; try done.
  destruct i as [|i]; cbn [alter list_alter]; rewrite !dot_cons.
  - cbn in Hi. injection Hi as ->.
    rewrite fprod_add_r, fprod_1_r by done.
    rewrite <- !fsum_assoc. f_equal. apply fsum_comm.
  - cbn in Hi, Hlen. change (list_alter ?f i col) with (alter f i col).
    rewrite (IH col i) by (done || lia). apply fsum_assoc.
Qed.

Lemma column_lookup (K M : nat) (T : list F) (i j : nat) :
  (i < K)%nat → (j < M)%nat →
  column j (reshape K M T) !! i = Some (default fzero (T !! (j + i * M)%nat)).
Proof.
  intros Hi Hj. unfold column. rewrite list_lookup_fmap.
  pose proof (reshape_lookup K M T i j Hi Hj) as Hr.
  destruct (reshape K M T !! i) as [row|] eqn:Hrow.
  - cbn in Hr |- *. by rewrite Hr.
  - apply lookup_ge_None in Hrow. rewrite length_reshape in Hrow. lia.
Qed.

Lemma length_column (K M : nat) (T : list F) (j : nat) :
  length (column j (reshape K M T)) = K.
Proof. unfold column. by rewrite length_fmap, length_reshape. Qed.

(** Adding to an entry of the flat transform changes one column, in one
    row. *)
Lemma column_alter (f : F → F) (K M : nat) (T : list F) (i j j' : nat) :
  length T = (K * M)%nat → (i < K)%nat → (j < M)%nat → (j' < M)%nat →
  column j' (reshape K M (alter f (j + i * M)%nat T))
  = if decide (j' = j) then alter f i (column j' (reshape K M T))
    else column j' (reshape K M T).
Proof.
  intros HT Hi Hj Hj'. apply list_eq. intros i'.
  destruct (decide (i' < K)%nat) as [Hi'|Hi'].
  2:{ rewrite (proj2 (lookup_ge_None _ _)) by (rewrite length_column; lia).
      symmetry. apply lookup_ge_None.
      case_decide; rewrite ?length_alter, length_column; lia. }
  rewrite column_lookup by done.
  destruct (decide (j' = j)) as [->|Hne].
  - destruct (decide (i' = i)) as [->|Hni].
    + rewrite !list_lookup_alter_eq, column_lookup by done.
      destruct (T !! (j + i * M)%nat) eqn:Hk; [done|].
      apply lookup_ge_None in Hk. nia.
    + rewrite list_lookup_alter_ne by nia.
      rewrite list_lookup_alter_ne by done. by rewrite column_lookup.
  - rewrite column_lookup by done.
    rewrite list_lookup_alter_ne; [done|].
    intros Heq. apply Hne.
    assert (Hm : ((j + i * M) mod M = (j' + i' * M) mod M)%nat) by (by rewrite Heq).
    rewrite !Nat.Div0.mod_add, !Nat.mod_small in Hm by done. done.
Qed.

(** The product of the weights with the rows of a flat transform. *)
Definition product (w : list F) (K M : nat) (T : list F) : list F :=
  vecmat w (reshape K M T) M.

Lemma length_product (w : list F) (K M : nat) (T : list F) :
  length (product w K M T) = M.
Proof. unfold product, vecmat. by rewrite length_fmap, length_seq. Qed.

Lemma product_lookup (w : list F) (K M : nat) (T : list F) (j : nat) :
  (j < M)%nat →
  product w K M T !! j = Some (dot w (column j (reshape K M T))).
Proof.
  intros Hj. unfold product, vecmat.
  by rewrite list_lookup_fmap, lookup_seq_lt.
Qed.

Lemma product_zeros (w : list F) (K M : nat) :
  Forall (λ v, ffinite v = true) w →
  product w K M (zeros (K * M)) = zeros M.
Proof.
  intros Hw. apply list_eq. intros j. unfold zeros at 2.
  destruct (decide (j < M)%nat) as [Hj|Hj].
  - rewrite product_lookup, lookup_replicate_2 by done. f_equal.
    assert (Hcol : column j (reshape K M (zeros (K * M))) = replicate K fzero).
    { apply list_eq. intros i. destruct (decide (i < K)%nat).
      - rewrite column_lookup, lookup_replicate_2 by done. unfold zeros.
        by rewrite lookup_replicate_2 by nia.
      - rewrite !(proj2 (lookup_ge_None _ _));
          rewrite ?length_column, ?length_replicate; (done || lia). }
    rewrite Hcol. by apply dot_zeros.
  - rewrite !(proj2 (lookup_ge_None _ _));
      rewrite ?length_product, ?length_replicate; (done || lia).
Qed.

(** One more event in the cell [(i, j)] of the transform adds the weight of
    row [i] to entry [j] of the product. *)
Lemma product_add (w : list F) (K M : nat) (T : list F) (i j : nat) (wi : F) :
  length w = K → length T = (K * M)%nat → (j < M)%nat →
  w !! i = Some wi → ffinite wi = true →
  product w K M (alter (λ c, fadd c fone) (j + i * M)%nat T)
  = alter (λ old, fadd old wi) j (product w K M T).
Proof.
  intros Hw HT Hj Hi Hfin.
  assert (HiK : (i < K)%nat) by (rewrite <- Hw; by eapply lookup_lt_Some).
  apply list_eq. intros j'.
  destruct (decide (j' < M)%nat) as [Hj'|Hj'].
  2:{ rewrite !(proj2 (lookup_ge_None _ _));
        rewrite ?length_alter, ?length_product; (done || lia). }
  rewrite product_lookup by done.
  rewrite column_alter by done.
  destruct (decide (j' = j)) as [->|Hne].
  - rewrite list_lookup_alter_eq, product_lookup by done. cbn. f_equal.
    apply dot_alter; [|done|done]. by rewrite length_column.
  - rewrite list_lookup_alter_ne by done. by rewrite product_lookup.
Qed.

Lemma add_to_bin_zero (h : list F) (i : Z) : add_to_bin h i fzero = h.
Proof.
  unfold add_to_bin. apply list_eq. intros k.
  destruct (decide (k = Z.to_nat i)) as [->|Hne].
  - rewrite list_lookup_alter_eq. destruct (h !! Z.to_nat i); [|done]. cbn.
    by rewrite fsum_comm, fsum_0_l.
  - by rewrite list_lookup_alter_ne.
Qed.
End Product_proofs.

Section Index_proofs.
Context `{FOrder F}.

Lemma tot_num_bins_app (b1 b2 : MultiDimBinning F) :
  translation.tot_num_bins (b1 ++ b2)
  = translation.tot_num_bins b1 * translation.tot_num_bins b2.
Proof.
  induction b1 as [|d b1 IH]; cbn [app translation.tot_num_bins foldr].
  - fold (translation.tot_num_bins b2). lia.
  - fold (translation.tot_num_bins (b1 ++ b2)) (translation.tot_num_bins b1).
    rewrite IH. lia.
Qed.

Lemma tot_num_bins_pos (b : MultiDimBinning F) :
  Forall (λ d, edges_of (translation.num_bins d) (dim_edges d) ∧
               translation.num_bins d ≤ MAX_BINS) b →
  1 ≤ translation.tot_num_bins b.
Proof.
  induction 1 as [|d b [(Hn & _) _] _ IH]; cbn [translation.tot_num_bins foldr]; [lia|].
  fold (translation.tot_num_bins b). nia.
Qed.

Lemma flat_index_range (b : MultiDimBinning F) (coords : list F) (k : Z) :
  Forall (λ d, edges_of (translation.num_bins d) (dim_edges d) ∧
               translation.num_bins d ≤ MAX_BINS) b →
  translation.flat_index b coords = Some k →
  0 ≤ k < translation.tot_num_bins b.
Proof.
  intros Hb. revert coords k.
  induction Hb as [|d b [Hd Hmax] Hb IH]; intros [|x coords] k Hk; try done.
  - cbn in Hk. injection Hk as <-. cbn. lia.
  - cbn [translation.flat_index] in Hk.
    destruct (in_range x _ _) eqn:Hin; [|done].
    destruct (GetBin_in_range x _ _ Hd Hmax Hin) as (i & Hi & Hr & _).
    rewrite Hi in Hk. cbn [mbind option_bind] in Hk.
    destruct (translation.flat_index b coords) as [rest|] eqn:Hrest; [|done].
    cbn in Hk. injection Hk as <-.
    specialize (IH coords rest Hrest).
    cbn [translation.tot_num_bins foldr]. fold (translation.tot_num_bins b). nia.
Qed.

Lemma flat_index_app (b1 b2 : MultiDimBinning F) (c1 c2 : list F) :
  length c1 = length b1 →
  translation.flat_index (b1 ++ b2) (c1 ++ c2)
  = i ← translation.flat_index b1 c1;
    j ← translation.flat_index b2 c2;
    Some (i * translation.tot_num_bins b2 + j).
Proof.
  revert c1. induction b1 as [|d b1 IH]; intros [|x c1] Hlen; try done.
  - cbn [app translation.flat_index mbind option_bind].
    destruct (translation.flat_index b2 c2); cbn; [f_equal; lia|done].
  - cbn [app translation.flat_index].
    destruct (in_range x _ _); [|done].
    destruct (GetBin x _ _) as [i|]; [|done]. cbn [mbind option_bind].
    rewrite IH by (cbn in Hlen; lia).
    destruct (translation.flat_index b1 c1) as [i'|]; [|done].
    cbn [mbind option_bind].
    destruct (translation.flat_index b2 c2) as [j|]; [|done].
    cbn [mbind option_bind]. rewrite tot_num_bins_app. f_equal. lia.
Qed.

Lemma event_coords_app (s1 s2 : list (ndarray F)) (e : nat) :
  translation.event_coords (s1 ++ s2) e
  = c1 ← translation.event_coords s1 e;
    c2 ← translation.event_coords s2 e;
    Some (c1 ++ c2).
Proof.
  unfold translation.event_coords.
  induction s1 as [|a s1 IH]; cbn [app mapM].
  - by destruct (mapM _ s2).
  - destruct (flat a !! e); [|done]. cbn [mbind option_bind].
    rewrite IH. destruct (mapM _ s1); [|done]. cbn [mbind option_bind].
    by destruct (mapM _ s2).
Qed.

Lemma length_event_coords (s : list (ndarray F)) (e : nat) c :
  translation.event_coords s e = Some c → length c = length s.
Proof.
  unfold translation.event_coords. intros Hc%mapM_Some.
  symmetry. by eapply Forall2_length.
Qed.

(** The flat index over the calculation binning followed by the apply
    binning: row [i] of the calculation bins, column [j] of the apply
    bins. *)
Lemma joint_index (b1 b2 : MultiDimBinning F) (s1 s2 : list (ndarray F)) (e : nat) :
  length s1 = length b1 →
  translation.event_coords (s1 ++ s2) e ≫= translation.flat_index (b1 ++ b2)
  = i ← translation.event_coords s1 e ≫= translation.flat_index b1;
    j ← translation.event_coords s2 e ≫= translation.flat_index b2;
    Some (i * translation.tot_num_bins b2 + j).
Proof.
  intros Hlen. rewrite event_coords_app.
  destruct (translation.event_coords s1 e) as [c1|] eqn:Hc1; [|done].
  cbn [mbind option_bind].
  destruct (translation.event_coords s2 e) as [c2|] eqn:Hc2.
  - cbn [mbind option_bind]. apply flat_index_app.
    rewrite <- Hlen. by eapply length_event_coords.
  - cbn [mbind option_bind]. by destruct (translation.flat_index b1 c1).
Qed.
End Index_proofs.

Section Transform_product.
Context `{!FType F, !FOrder F, !FFinite F}.

Lemma length_translation_add_event (sample : list (ndarray F)) weights binning
    (h : list F) (e : nat) :
  length (translation.add_event sample weights binning h e) = length h.
Proof.
  unfold translation.add_event, add_to_bin.
  destruct (_ ≫= _); [apply length_alter|done].
Qed.

Lemma length_translation_fold (sample : list (ndarray F)) weights binning
    (h : list F) (es : list nat) :
  length (foldl (translation.add_event sample weights binning) h es) = length h.
Proof.
  revert h. induction es as [|e es IH]; intros h; [done|].
  cbn [foldl]. by rewrite IH, length_translation_add_event.
Qed.

Lemma event_weight_binned (cb : MultiDimBinning F) (sc : list (ndarray F))
    (w : list F) (n e : nat) :
  (e < n)%nat →
  translation.event_weight (Some (vector (binned_weights cb sc w n))) e
  = binned_weight cb sc w e.
Proof.
  intros He. unfold translation.event_weight, binned_weights. cbn [flat vector].
  by rewrite list_lookup_fmap, lookup_seq_lt.
Qed.

(** The product of per-bin weights with the histogram of the events over
    the two binnings is the histogram over the second binning of the
    events, each with the weight of its bin of the first. *)
Lemma transform_product (cb ab : MultiDimBinning F) (sc sa : list (ndarray F))
    (w : list F) (n' : nat) :
  let K := Z.to_nat (translation.tot_num_bins cb) in
  let M := Z.to_nat (translation.tot_num_bins ab) in
  Forall (λ d, edges_of (translation.num_bins d) (dim_edges d) ∧
               translation.num_bins d ≤ MAX_BINS) cb →
  Forall (λ d, edges_of (translation.num_bins d) (dim_edges d) ∧
               translation.num_bins d ≤ MAX_BINS) ab →
  length sc = length cb →
  length w = K → Forall (λ v, ffinite v = true) w →
  ∀ n, (n ≤ n')%nat →
    product w K M
      (foldl (translation.add_event (sc ++ sa) None (cb ++ ab)) (zeros (K * M))
         (seq 0 n))
    = foldl (translation.add_event sa (Some (vector (binned_weights cb sc w n'))) ab)
        (zeros M) (seq 0 n).
Proof.
  intros K M Hcb Hab Hlen Hw Hfin.
  pose proof (tot_num_bins_pos cb Hcb) as HK.
  pose proof (tot_num_bins_pos ab Hab) as HM.
  induction n as [|n IH]; intros Hn.
  - cbn [seq foldl]. by apply product_zeros.
  - rewrite seq_S, !foldl_app. cbn [foldl plus].
    specialize (IH ltac:(lia)).
    set (T := foldl (translation.add_event (sc ++ sa) None (cb ++ ab)) _ _) in *.
    set (D := foldl (translation.add_event sa _ ab) _ _) in *.
    assert (HT : length T = (K * M)%nat).
    { unfold T. rewrite length_translation_fold. apply length_replicate. }
    unfold translation.add_event.
    rewrite joint_index by done.
    rewrite event_weight_binned by lia. unfold binned_weight.
    destruct (translation.event_coords sc n ≫= translation.flat_index cb)
      as [i|] eqn:Hi; cbn [mbind option_bind].
    + apply bind_Some in Hi as (cc & _ & Hi).
      pose proof (flat_index_range cb cc i Hcb Hi) as Hri.
      destruct (translation.event_coords sa n ≫= translation.flat_index ab)
        as [j|] eqn:Hj; cbn [mbind option_bind]; [|done].
      apply bind_Some in Hj as (ca & _ & Hj).
      pose proof (flat_index_range ab ca j Hab Hj) as Hrj.
      destruct (w !! Z.to_nat i) as [wi|] eqn:Hwi.
      2:{ apply lookup_ge_None in Hwi. lia. }
      cbn [default from_option]. unfold add_to_bin, translation.event_weight.
      replace (Z.to_nat (i * translation.tot_num_bins ab + j))
        with (Z.to_nat j + Z.to_nat i * M)%nat by (unfold M; nia).
      assert (Hfi : ffinite wi = true).
      { rewrite Forall_forall in Hfin. apply Hfin. by eapply list_elem_of_lookup_2. }
      rewrite (product_add w K M T (Z.to_nat i) (Z.to_nat j) wi)
        by (done || (unfold M; lia)).
      by rewrite IH.
    + destruct (translation.event_coords sa n ≫= translation.flat_index ab)
        as [j|]; [|done].
      by rewrite add_to_bin_zero.
Qed.
End Transform_product.

Section Stage_transform.
Context `{!FType F, !FOrder F, !FFinite F} `{EqDecision F}.

Lemma mapM_res_app {A B} (f : A → res B) (l1 l2 : list A) k1 k2 :
  mapM f l1 = Ok k1 → mapM f l2 = Ok k2 → mapM f (l1 ++ l2) = Ok (k1 ++ k2).
Proof.
  revert k1. induction l1 as [|x l1 IH]; intros k1 H1 H2.
  - injection H1 as <-. done.
  - cbn [app mapM] in H1 |- *. destruct (f x) as [y|]; [|done].
    cbn [mbind res_bind] in H1 |- *.
    destruct (mapM f l1) as [k|] eqn:Hk; [|done].
    injection H1 as <-.
    by rewrite (IH k eq_refl H2).
Qed.

Lemma mapM_res_length {A B} (f : A → res B) (l : list A) k :
  mapM f l = Ok k → length k = length l.
Proof.
  revert k. induction l as [|x l IH]; intros k Hk.
  - injection Hk as <-. done.
  - cbn [mapM] in Hk. destruct (f x) as [y|]; [|done].
    cbn [mbind res_bind] in Hk.
    destruct (mapM f l) as [k'|] eqn:Hk'; [|done].
    injection Hk as <-. cbn. by rewrite (IH k' eq_refl).
Qed.

(** What a call of [translation.histogram] that returns has checked, and
    its result. *)
Lemma histogram_Ok (sample : list (ndarray F)) weights binning (h : ndarray F) :
  translation.histogram sample weights binning = Ok h →
  length sample = length binning ∧
  Forall (λ a, length (flat a) = translation.n_events sample) sample ∧
  flat h = foldl (translation.add_event sample weights binning)
             (zeros (Z.to_nat (translation.tot_num_bins binning)))
             (seq 0 (translation.n_events sample)).
Proof.
  unfold translation.histogram. intros Hh.
  destruct (_ && _) eqn:Hchk; [|done]. injection Hh as <-.
  apply andb_prop in Hchk as [Hchk _]. apply andb_prop in Hchk as [Hlen Hall].
  apply Nat.eqb_eq in Hlen. split; [done|]. split; [|done].
  apply Forall_forall. intros a Ha.
  rewrite forallb_forall in Hall. apply Nat.eqb_eq, Hall.
  by apply list_elem_of_In.
Qed.

Lemma histogram_returns (sample : list (ndarray F)) (w : list F) binning :
  length sample = length binning →
  Forall (λ a, length (flat a) = translation.n_events sample) sample →
  length w = translation.n_events sample →
  translation.histogram sample (Some (vector w)) binning
  = Ok {| shape := (λ d, Z.to_nat (translation.num_bins d)) <$> binning;
          flat := foldl (translation.add_event sample (Some (vector w)) binning)
                    (zeros (Z.to_nat (translation.tot_num_bins binning)))
                    (seq 0 (translation.n_events sample)) |}.
Proof.
  intros Hlen Hall Hw. unfold translation.histogram.
  rewrite (proj2 (Nat.eqb_eq _ _) Hlen). cbn [flat vector].
  rewrite (proj2 (Nat.eqb_eq _ _) Hw), andb_true_r.
  assert (Hb : forallb (λ a : ndarray F,
                          (length (flat a) =? translation.n_events sample)%nat) sample
               = true).
  { apply forallb_forall. intros a Ha%list_elem_of_In. apply Nat.eqb_eq.
    rewrite Forall_forall in Hall. by apply Hall. }
  by rewrite Hb.
Qed.
End Stage_transform.

(** On two dimensions the histogram of the events is the accumulation of
    the kernel: the fold of [add_event] that a launch of [Hist2D] leaves in
    a zeroed buffer ([launch_Hist2D_spec]). *)
Lemma flat_index_2d `{FType F} (dx dy : OneDimBinning F) (x y : F) :
  translation.flat_index [dx; dy] [x; y]
  = bin_index (translation.num_bins dx) (translation.num_bins dy)
      (dim_edges dx) (dim_edges dy) x y.
Proof.
  unfold bin_index. cbn [translation.flat_index translation.tot_num_bins foldr].
  destruct (in_range x _ _); [|done].
  destruct (GetBin x _ _) as [i|]; cbn [mbind option_bind andb].
  - destruct (in_range y _ _); [|done].
    destruct (GetBin y _ _) as [j|]; cbn [mbind option_bind]; [|done].
    f_equal. lia.
  - by destruct (in_range y _ _).
Qed.

Lemma histogram_2d_kernel `{FType F} (dx dy : OneDimBinning F)
    (X Y W : list F) (h : ndarray F) :
  translation.histogram [vector X; vector Y] (Some (vector W)) [dx; dy] = Ok h →
  flat h
  = foldl (add_event (translation.num_bins dx) (translation.num_bins dy)
             (dim_edges dx) (dim_edges dy))
      (zeros (Z.to_nat (translation.num_bins dx * translation.num_bins dy)))
      (zip (zip X Y) W).
Proof.
  unfold translation.histogram. cbn [translation.n_events flat vector forallb length].
  intros Hh. destruct (_ && _) eqn:Hchk; [|done]. injection Hh as <-.
  apply andb_prop in Hchk as [Hchk HW]. apply andb_prop in Hchk as [_ HY].
  rewrite Nat.eqb_refl, andb_true_r in HY. cbn in HY.
  apply Nat.eqb_eq in HY, HW. cbn [flat].
  set (f := add_event (translation.num_bins dx) (translation.num_bins dy)
              (dim_edges dx) (dim_edges dy)).
  replace (zip (zip X Y) W)
    with (take (length X) (drop 0 (zip (zip X Y) W)))
    by (cbn [drop]; apply take_ge; rewrite !length_zip; lia).
  rewrite <- (foldl_lookup_seq f).
  cbn [translation.tot_num_bins foldr]. rewrite Z.mul_1_r.
  apply foldl_pointwise. intros acc e.
  unfold translation.add_event, translation.event_coords, translation.event_weight.
  cbn [mapM flat vector].
  destruct (X !! e) as [x|] eqn:Hx.
  - destruct (lookup_lt_is_Some_2 Y e) as [y Hy];
      [apply lookup_lt_Some in Hx; lia|].
    destruct (lookup_lt_is_Some_2 W e) as [w Hw];
      [apply lookup_lt_Some in Hx; lia|].
    rewrite Hy, Hw.
    assert (Hz : zip (zip X Y) W !! e = Some (x, y, w)).
    { apply lookup_zip_with_Some. exists (x, y), w. split; [done|]. split; [|done].
      apply lookup_zip_with_Some. by exists x, y. }
    rewrite Hz. cbn [mbind option_bind mret option_ret from_option default].
    rewrite flat_index_2d. done.
  - assert (Hz : zip (zip X Y) W !! e = None).
    { apply lookup_ge_None. apply lookup_ge_None in Hx.
      rewrite !length_zip. lia. }
    by rewrite Hz.
Qed.

(** C1 — transform equivalence, as the stage has it.  The transform that
    [setup_function] caches for a container is the histogram, without
    weights, of its sample over the calculation binning followed by the
    apply binning, and [apply_function] multiplies it with the weights the
    container holds per calculation bin.  For finite weights, one per
    calculation bin, and exact sums and products, what it stores under
    [apply_mode] is the direct histogram over the apply binning of the
    sample in which every event carries the weight of its calculation bin,
    and no weight outside of the range of the calculation binning. *)
Theorem transform_equivalence `{!FType F, !FOrder F, !FFinite F} `{EqDecision F}
    (fsqrt : F → F) (self self1 self2 : hist F)
    (calc_b apply_b : MultiDimBinning F) (i : nat) (c : Container F)
    (sample_c sample_a : list (ndarray F)) (w : list F) :
  calc_mode self = mode_binning calc_b →
  apply_mode self = mode_binning apply_b →
  binning_ok calc_b → binning_ok apply_b →
  setup_function translation.histogram self = Ok self1 →
  apply_function translation.histogram fsqrt self1 = Ok self2 →
  data self !! i = Some c →
  mapM (getitem (set_representation mode_events c)) (names calc_b) = Ok sample_c →
  mapM (getitem (set_representation mode_events c)) (names apply_b) = Ok sample_a →
  getitem (set_representation (mode_binning calc_b) c) "weights" = Ok (vector w) →
  Z.of_nat (length w) = translation.tot_num_bins calc_b →
  Forall (λ v, ffinite v = true) w →
  ∃ c2 h direct,
    data self2 !! i = Some c2 ∧
    getitem (set_representation (mode_binning apply_b) c2) "weights"
      = Ok (vector h) ∧
    translation.histogram sample_a
      (Some (vector (binned_weights calc_b sample_c w (translation.n_events sample_a))))
      apply_b = Ok direct ∧
    flat direct = h.
Proof.
  intros Hcalc Happly [_ Hcb] [Hne Hab] Hsetup Hrun Hc Hsc Hsa Hw Hlw Hfin.
  destruct (setup_apply_stores translation.histogram fsqrt self self1 self2
              calc_b apply_b i c Hcalc Happly Hsetup Hrun Hc)
    as (c2 & sample & T & weights & n & rows & Hc2 & Hs & HT & Hw' & Hshape & Hrows & Hh).
  unfold binning_add in HT.
  rewrite Hw in Hw'. injection Hw' as <-. cbn [shape vector] in Hshape.
  injection Hshape as <-.
  rewrite (mapM_res_app _ _ _ _ _ Hsc Hsa) in Hs. injection Hs as <-.
  pose proof (mapM_res_length _ _ _ Hsc) as Hlc.
  pose proof (mapM_res_length _ _ _ Hsa) as Hla.
  unfold names in Hlc, Hla. rewrite length_fmap in Hlc, Hla.
  destruct (histogram_Ok _ _ _ _ HT) as (_ & Hall & HflatT).
  pose proof (tot_num_bins_pos calc_b Hcb) as HK.
  pose proof (tot_num_bins_pos apply_b Hab) as HM.
  set (K := Z.to_nat (translation.tot_num_bins calc_b)) in *.
  set (M := Z.to_nat (translation.tot_num_bins apply_b)) in *.
  assert (HlK : length w = K) by (unfold K; lia).
  (* every array of the sample has the length of the first array of [sample_a] *)
  assert (Hn : translation.n_events (sample_c ++ sample_a)
               = translation.n_events sample_a).
  { destruct sample_a as [|a sa]; [by destruct apply_b|].
    rewrite Forall_app in Hall. destruct Hall as [_ Ha].
    apply Forall_cons in Ha as [Ha _]. symmetry. exact Ha. }
  assert (Halla : Forall (λ a, length (flat a) = translation.n_events sample_a)
                    sample_a).
  { rewrite Forall_app in Hall. destruct Hall as [_ Ha]. by rewrite Hn in Ha. }
  (* the product that [apply_function] stores *)
  assert (HlT : length (flat T) = (K * M)%nat).
  { rewrite HflatT, length_translation_fold. unfold zeros.
    rewrite length_replicate, tot_num_bins_app. unfold K, M. nia. }
  apply nd_reshape_Ok in Hrows as (-> & _ & HnK). rewrite HlK in *.
  rewrite HlT in Hh.
  replace ((K * M) / K)%nat with M in Hh
    by (rewrite Nat.mul_comm; symmetry; apply Nat.div_mul; lia).
  rewrite n_columns_reshape in Hh by (done || nia).
  cbn [flat vector] in Hh.
  eexists c2, _, _. split; [done|]. split; [exact Hh|]. split.
  { apply histogram_returns; [lia|done|].
    unfold binned_weights. by rewrite length_fmap, length_seq. }
  cbn [flat]. fold M.
  rewrite <- (transform_product calc_b apply_b sample_c sample_a w
                (translation.n_events sample_a)) by (done || lia).
  fold K M. unfold product. do 2 f_equal.
  rewrite HflatT, Hn, tot_num_bins_app. do 2 f_equal. unfold K, M. nia.
Qed.

Lemma demo_binning_ok (name : string) : binning_ok (demo_binning name).
Proof.
  split; [done|]. apply Forall_cons. split; [|done].
  split; [apply demo_edges_of|]. by vm_compute.
Qed.

Lemma transform_equivalence_witness :
  ∃ c2 h direct,
    data demo_rebin_applied !! 0%nat = Some c2 ∧
    getitem (set_representation (mode_binning demo_apply) c2) "weights"
      = Ok (vector h) ∧
    translation.histogram [demo_rebin_reco]
      (Some (vector (binned_weights demo_calc [demo_rebin_true] [5; 7; 11]
                       (translation.n_events [demo_rebin_reco]))))
      demo_apply = Ok direct ∧
    flat direct = h.
Proof.
  apply (transform_equivalence Z.sqrt demo_rebin_stage demo_rebin_setup
           demo_rebin_applied demo_calc demo_apply 0 demo_rebin_container
           [demo_rebin_true] [demo_rebin_reco] [5; 7; 11]).
  - reflexivity.
  - reflexivity.
  - apply demo_binning_ok.
  - apply demo_binning_ok.
  - vm_compute. reflexivity.
  - vm_compute. reflexivity.
  - reflexivity.
  - reflexivity.
  - reflexivity.
  - reflexivity.
  - reflexivity.
  - repeat constructor.
Defined.

Example demo_rebin :
  rebinned Z.sqrt demo_rebin_stage = Ok (vector [11; 5; 14]) ∧
  translation.histogram [demo_rebin_reco]
    (Some (vector (binned_weights demo_calc [demo_rebin_true] [5; 7; 11] 5)))
    demo_apply = Ok (vector [11; 5; 14]).
Proof. split; vm_compute; reflexivity. Qed.

(** C1, as the specification states it, fails on the stage.  With the
    weight vector [5, 7, 11] of three events, the transform of
    [setup_function] applied by [apply_function] gives [11, 5, 7] and the
    direct histogram of the same sample and weights [5, 7, 11]: the weights
    the transform is applied to go with the calculation bins, not with the
    events.  And with one weight per calculation bin, a NaN as the weight of
    the first bin makes every entry of the product a NaN, where the direct
    histogram has a NaN in the one apply bin that receives an event of that
    calculation bin. *)
Lemma transform_equivalence_counterexample :
  (∃ h direct,
     rebinned Z.sqrt demo_perevent_stage = Ok h ∧
     translation.histogram [demo_perevent_reco] (Some (vector [5; 7; 11])) demo_apply
       = Ok direct ∧
     flat h = [11; 5; 7] ∧ flat direct = [5; 7; 11] ∧ flat h ≠ flat direct) ∧
  (∃ h direct,
     @rebinned (option Z) NaNZ_FType _ id nan_stage = Ok h ∧
     @translation.histogram (option Z) NaNZ_FType [nan_reco]
       (Some (vector (@binned_weights (option Z) NaNZ_FType
                        (nan_binning "true_energy") [nan_true] nan_weights 3)))
       (nan_binning "reco_energy") = Ok direct ∧
     flat h = [None; None; None] ∧ flat direct = [Some 1; None; Some 1] ∧
     flat h ≠ flat direct).
Proof.
  split.
  - eexists _, _. split; [vm_compute; reflexivity|].
    split; [vm_compute; reflexivity|]. cbn [flat]. by repeat split.
  - eexists _, _. split; [vm_compute; reflexivity|].
    split; [vm_compute; reflexivity|]. cbn [flat]. by repeat split.
Qed.
